(** * Ready Trader Go autotrader: indicator windows, quoting and order bookkeeping

    A shallow embedding of [autotrader.cc] / [autotrader.h].

    - [unsigned long] is a 64-bit unsigned integer: a [Z] in [0, 2^64) whose
      arithmetic wraps around (the wrap is written out with [mod]).
    - [long] and [int] are signed; the C++ standard gives signed overflow,
      division by zero and an out-of-range vector access no meaning.  Such
      operations return [None]; an operation that is defined returns
      [Some].  [std::abs] of the least [long] is given the value its
      two's-complement negation produces, the least [long] itself, so that
      the guard of a fill is followed where the running program goes on.
    - [double] is IEEE-754 binary64 (round to nearest, ties to even), taken
      from the standard library's [SpecFloat].
    - the unordered sets and maps of the trader are [gset Z] and [gmap Z Z].
    - calls to the order gateway are recorded, in order, in an outbox. *)

From Stdlib Require Import ZArith Lia Bool String.
From Stdlib Require Import Floats.SpecFloat.
From stdpp Require Import base option list gmap.

Local Open Scope Z_scope.

(** ** Machine integers *)

Module CInt.

Definition ULONG_MOD : Z := 2 ^ 64.
Definition LONG_MIN : Z := - 2 ^ 63.
Definition LONG_MAX : Z := 2 ^ 63 - 1.
Definition INT_MIN : Z := - 2 ^ 31.
Definition INT_MAX : Z := 2 ^ 31 - 1.

(** Conversion of any integer value to [unsigned long]. *)
Definition to_ulong (z : Z) : Z := z mod ULONG_MOD.

(** [static_cast<long>(u)] for an [unsigned long] u: the value congruent
    to u modulo 2^64 that lies in the range of [long]. *)
Definition to_long (z : Z) : Z := (z + 2 ^ 63) mod ULONG_MOD - 2 ^ 63.

Definition ulong_add (a b : Z) : Z := to_ulong (a + b).
Definition ulong_sub (a b : Z) : Z := to_ulong (a - b).
Definition ulong_shr1 (a : Z) : Z := Z.shiftr a 1.

Definition is_ulong (z : Z) : Prop := 0 <= z < ULONG_MOD.

Definition in_long (z : Z) : bool := (LONG_MIN <=? z) && (z <=? LONG_MAX).
Definition in_int (z : Z) : bool := (INT_MIN <=? z) && (z <=? INT_MAX).

(** A signed result that does not fit its type is undefined. *)
Definition long_val (z : Z) : option Z := if in_long z then Some z else None.
Definition int_val (z : Z) : option Z := if in_int z then Some z else None.

Definition long_add (a b : Z) : option Z := long_val (a + b).
Definition long_sub (a b : Z) : option Z := long_val (a - b).
Definition long_mul (a b : Z) : option Z := long_val (a * b).
Definition long_neg (a : Z) : option Z := long_val (- a).
(** [std::abs(long)].  The absolute value of [LONG_MIN] does not fit
    [long]; the negation that computes it is carried out in two's
    complement and gives [LONG_MIN] back, and that is the value a
    comparison on the result sees. *)
Definition long_abs (a : Z) : option Z :=
  if a =? LONG_MIN then Some LONG_MIN else long_val (Z.abs a).
(** Signed division truncates towards zero. *)
Definition long_div (a b : Z) : option Z :=
  if b =? 0 then None else long_val (Z.quot a b).

Definition int_add (a b : Z) : option Z := int_val (a + b).
(** [a % b] on [int]: the remainder of the truncating division. *)
Definition int_rem (a b : Z) : option Z :=
  if b =? 0 then None else int_val (Z.rem a b).

(** Unsigned division; a zero divisor is undefined. *)
Definition ulong_div (a b : Z) : option Z :=
  if b =? 0 then None else Some (a / b).

End CInt.
Import CInt.

(** Sequencing of operations that may be undefined. *)
Notation "'do' x <- m ; k" :=
  (match m with Some x => k | None => None end)
  (at level 10, x name, m at level 100, k at level 200, only parsing).
Notation "'do' ' p <- m ; k" :=
  (match m with Some p => k | None => None end)
  (at level 10, p pattern, m at level 100, k at level 200, only parsing).

(** ** std::vector<unsigned long> *)

(** [buffer[index]] as an rvalue, for an [int] index. *)
Definition vec_load (buffer : list Z) (index : Z) : option Z :=
  if index <? 0 then None else buffer !! Z.to_nat index.

(** [buffer[index] = v]. *)
Definition vec_store (buffer : list Z) (index v : Z) : option (list Z) :=
  if (0 <=? index) && (index <? Z.of_nat (length buffer))
  then Some (<[Z.to_nat index := v]> buffer)
  else None.

(** ** The sliding-window accumulator *)

(** The four reference parameters (buffer, index, count, sum) are returned
    in that order. *)
Definition updateCircularBufferWithNewValue
    (buffer : list Z) (index count newValue sum maxSize : Z)
    : option (list Z * Z * Z * Z) :=
  do '(buffer', count', sum') <-
    (if count <? maxSize then
       do b <- vec_store buffer index newValue;
       let s := ulong_add sum newValue in
       do c <- int_add count 1;
       Some (b, c, s)
     else
       do old <- vec_load buffer index;
       let s0 := ulong_sub sum old in
       do b <- vec_store buffer index newValue;
       let s := ulong_add s0 newValue in
       Some (b, count, s));
  do i1 <- int_add index 1;
  do index' <- int_rem i1 maxSize;
  Some (buffer', index', count', sum').

(** One accumulator on its own: the four references of one window. *)
Record Window : Type := mkWindow {
  w_buffer : list Z;
  w_index : Z;
  w_count : Z;
  w_sum : Z
}.

(** A window of capacity [N] as the program creates it: a vector of [N]
    zeros, cursor 0, count 0, sum 0. *)
Definition fresh (N : Z) : Window :=
  mkWindow (replicate (Z.to_nat N) 0) 0 0 0.

Definition push (N : Z) (w : Window) (v : Z) : option Window :=
  do '(b, i, c, s) <-
    updateCircularBufferWithNewValue (w_buffer w) (w_index w) (w_count w) v (w_sum w) N;
  Some (mkWindow b i c s).

Fixpoint pushes (N : Z) (w : Window) (vs : list Z) : option Window :=
  match vs with
  | [] => Some w
  | v :: vs' => do w' <- push N w v; pushes N w' vs'
  end.

(** The sums observed after each push. *)
Fixpoint push_sums (N : Z) (w : Window) (vs : list Z) : option (list Z) :=
  match vs with
  | [] => Some []
  | v :: vs' =>
      do w' <- push N w v;
      do r <- push_sums N w' vs';
      Some (w_sum w' :: r)
  end.

Definition sum_list (l : list Z) : Z := foldr Z.add 0 l.

(** The last [k] elements of a list. *)
Definition lastn {A} (k : nat) (l : list A) : list A := drop (length l - k) l.

(** ** The Ichimoku indicator *)

Module IchimokuSignal.
Inductive t : Set := BUY | SELL | NEUTRAL.
End IchimokuSignal.

(** Modelled from the spec: [ReadyTraderGo::TOP_LEVEL_COUNT] comes from
    [ready_trader_go/types.h], which is not among the sources; the spec
    gives the order-book arrays five entries. *)
Definition TOP_LEVEL_COUNT : nat := 5.

(** A [std::array<unsigned long, TOP_LEVEL_COUNT>].  A list shorter than
    [TOP_LEVEL_COUNT] stands for the array padded with zeros; no entry
    from [TOP_LEVEL_COUNT] on is read. *)
Definition PriceVolumeArray : Type := list Z.

Definition arr_get (a : PriceVolumeArray) (i : nat) : Z := default 0 (a !! i).

Definition conversion_line_size : Z := 9.
Definition baseline_size : Z := 26.
Definition leading_span_b_window : Z := 52.

(** The file-scope indicator variables. *)
Record Indicators : Type := mkIndicators {
  conversionLineBuffer : list Z;
  baselineBuffer : list Z;
  leadingSpanBBuffer : list Z;
  laggingSpanBuffer : list Z;
  conversionLineSum : Z;
  baselineSum : Z;
  leadingSpanBSum : Z;
  conversionLineIndex : Z;
  baselineIndex : Z;
  leadingSpanBIndex : Z;
  laggingSpanIndex : Z;
  conversionLineCount : Z;
  baselineCount : Z;
  leadingSpanBCount : Z;
  laggingSpanCount : Z
}.

Definition initial_indicators : Indicators :=
  {| conversionLineBuffer := replicate (Z.to_nat conversion_line_size) 0;
     baselineBuffer := replicate (Z.to_nat baseline_size) 0;
     leadingSpanBBuffer := replicate (Z.to_nat leading_span_b_window) 0;
     laggingSpanBuffer := replicate (Z.to_nat baseline_size) 0;
     conversionLineSum := 0; baselineSum := 0; leadingSpanBSum := 0;
     conversionLineIndex := 0; baselineIndex := 0;
     leadingSpanBIndex := 0; laggingSpanIndex := 0;
     conversionLineCount := 0; baselineCount := 0;
     leadingSpanBCount := 0; laggingSpanCount := 0 |}.

(** [buffer.size()], a [size_t]. *)
Definition vec_size (buffer : list Z) : Z := Z.of_nat (length buffer).

(** The slot the lagging span is compared with:
    [(laggingSpanIndex - baseline_size + size) % size], where the [int]
    difference is converted to [size_t] before the addition. *)
Definition laggingComparisonIndex (laggingSpanIndex : Z) (buffer : list Z) : option Z :=
  do d <- int_val (laggingSpanIndex - baseline_size);
  let n := ulong_add (to_ulong d) (vec_size buffer) in
  if vec_size buffer =? 0 then None else Some (n mod vec_size buffer).

Definition Ichimoku (askPrices askVolumes bidPrices bidVolumes : PriceVolumeArray)
    (g : Indicators) : option (IchimokuSignal.t * Indicators) :=
  let currentPrice := ulong_shr1 (ulong_add (arr_get bidPrices 0) (arr_get askPrices 0)) in
  (* Conversion line *)
  do '(clBuf, clIdx, clCnt, clSum) <-
    updateCircularBufferWithNewValue (conversionLineBuffer g) (conversionLineIndex g)
      (conversionLineCount g) currentPrice (conversionLineSum g) conversion_line_size;
  do conversionLine <- ulong_div clSum (to_ulong clCnt);
  (* Base line *)
  do '(blBuf, blIdx, blCnt, blSum) <-
    updateCircularBufferWithNewValue (baselineBuffer g) (baselineIndex g)
      (baselineCount g) conversionLine (baselineSum g) baseline_size;
  do baseline <- ulong_div blSum (to_ulong blCnt);
  (* Leading span A *)
  let leadingSpanA := ulong_shr1 (ulong_add conversionLine baseline) in
  (* Leading span B *)
  do '(lbBuf, lbIdx, lbCnt, lbSum) <-
    updateCircularBufferWithNewValue (leadingSpanBBuffer g) (leadingSpanBIndex g)
      (leadingSpanBCount g) conversionLine (leadingSpanBSum g) leading_span_b_window;
  let leadingSpanB := ulong_shr1 (ulong_add lbSum baseline) in
  (* Lagging span: the running sum handed over is leadingSpanBSum *)
  do '(lgBuf, lgIdx, lgCnt, lbSum') <-
    updateCircularBufferWithNewValue (laggingSpanBuffer g) (laggingSpanIndex g)
      (laggingSpanCount g) currentPrice lbSum baseline_size;
  do laggingSpan <- vec_load lgBuf lgIdx;
  (* Trading strategy *)
  let priceAboveCloud := Z.min leadingSpanA leadingSpanB <? currentPrice in
  let priceBelowCloud := currentPrice <? Z.max leadingSpanA leadingSpanB in
  let priceAboveConversionAndBase :=
    (conversionLine <? currentPrice) && (baseline <? currentPrice) in
  let priceBelowConversionAndBase :=
    (currentPrice <? conversionLine) && (currentPrice <? baseline) in
  do cmpIdx <- laggingComparisonIndex lgIdx lgBuf;
  do cmp <- vec_load lgBuf cmpIdx;
  let laggingSpanAbovePrice := cmp <? laggingSpan in
  let laggingSpanBelowPrice := laggingSpan <? cmp in
  let signal0 := IchimokuSignal.NEUTRAL in
  let signal1 :=
    if (priceAboveCloud || priceAboveConversionAndBase) && laggingSpanAbovePrice
    then IchimokuSignal.BUY else signal0 in
  let signal2 :=
    if (priceBelowCloud || priceBelowConversionAndBase) && laggingSpanBelowPrice
    then IchimokuSignal.SELL else signal1 in
  Some (signal2,
        {| conversionLineBuffer := clBuf; baselineBuffer := blBuf;
           leadingSpanBBuffer := lbBuf; laggingSpanBuffer := lgBuf;
           conversionLineSum := clSum; baselineSum := blSum;
           leadingSpanBSum := lbSum';
           conversionLineIndex := clIdx; baselineIndex := blIdx;
           leadingSpanBIndex := lbIdx; laggingSpanIndex := lgIdx;
           conversionLineCount := clCnt; baselineCount := blCnt;
           leadingSpanBCount := lbCnt; laggingSpanCount := lgCnt |}).

(** One order-book snapshot: the four arrays handed to the handlers. *)
Record Book : Type := mkBook {
  askPrices : PriceVolumeArray;
  askVolumes : PriceVolumeArray;
  bidPrices : PriceVolumeArray;
  bidVolumes : PriceVolumeArray
}.

(** Successive calls of [Ichimoku]; the signals are returned in call order. *)
Fixpoint Ichimoku_run (g : Indicators) (books : list Book)
    : option (list IchimokuSignal.t * Indicators) :=
  match books with
  | [] => Some ([], g)
  | b :: books' =>
      do '(sig, g') <- Ichimoku (askPrices b) (askVolumes b) (bidPrices b) (bidVolumes b) g;
      do '(sigs, g'') <- Ichimoku_run g' books';
      Some (sig :: sigs, g'')
  end.

(** ** double *)

Module Dbl.

Definition prec : Z := 53.
Definition emax : Z := 1024.

Definition t : Type := spec_float.

Definition zero : t := S754_zero false.

(** Conversion of an [unsigned long] to [double] (rounds when the value
    needs more than 53 bits). *)
Definition of_ulong (z : Z) : t := binary_normalize prec emax z 0 false.

Definition add : t -> t -> t := SFadd prec emax.
Definition sub : t -> t -> t := SFsub prec emax.
Definition mul : t -> t -> t := SFmul prec emax.
Definition div : t -> t -> t := SFdiv prec emax.
Definition ltb : t -> t -> bool := SFltb.

(** Conversion of a [double] to [unsigned long]: the fractional part is
    discarded; undefined when the truncated value is not representable. *)
Definition to_ulong (f : t) : option Z :=
  match f with
  | S754_zero _ => Some 0
  | S754_finite s m e =>
      let v := if 0 <=? e then Z.pos m * 2 ^ e else Z.pos m / 2 ^ (- e) in
      if s then (if v =? 0 then Some 0 else None)
      else if v <? ULONG_MOD then Some v else None
  | _ => None
  end.

End Dbl.

Fixpoint WeightedAverageSpread_loop (n : nat) (i : nat)
    (askPrices askVolumes bidPrices bidVolumes : PriceVolumeArray)
    (totalSpreadVolume weightedSpreadSum : Dbl.t) : Dbl.t * Dbl.t :=
  match n with
  | O => (totalSpreadVolume, weightedSpreadSum)
  | S n' =>
      let '(tot, wsum) :=
        if negb (arr_get askPrices i =? 0) && negb (arr_get bidPrices i =? 0) then
          let spread :=
            Dbl.of_ulong (ulong_shr1 (ulong_sub (arr_get askPrices i) (arr_get bidPrices i))) in
          let spreadVolume :=
            Dbl.of_ulong (Z.min (arr_get askVolumes i) (arr_get bidVolumes i)) in
          (Dbl.add totalSpreadVolume spreadVolume,
           Dbl.add weightedSpreadSum (Dbl.mul spread spreadVolume))
        else (totalSpreadVolume, weightedSpreadSum) in
      WeightedAverageSpread_loop n' (S i) askPrices askVolumes bidPrices bidVolumes tot wsum
  end.

Definition WeightedAverageSpread
    (askPrices askVolumes bidPrices bidVolumes : PriceVolumeArray) : Dbl.t :=
  let '(totalSpreadVolume, weightedSpreadSum) :=
    WeightedAverageSpread_loop TOP_LEVEL_COUNT 0
      askPrices askVolumes bidPrices bidVolumes Dbl.zero Dbl.zero in
  if Dbl.ltb Dbl.zero totalSpreadVolume
  then Dbl.div weightedSpreadSum totalSpreadVolume
  else Dbl.zero.

(** ** The trader *)

Definition LOT_SIZE : Z := 200.
Definition UNLOAD : Z := 25.
Definition POSITION_LIMIT : Z := 100.
Definition TICK_SIZE_IN_CENTS : Z := 100.

(** [Side], [Lifespan] and [Instrument] are declared in
    [ready_trader_go/types.h], which is not among the sources.  [Side] and
    [Lifespan] list the enumerators the trader names.  Modelled from the
    spec: the trader follows a pair of correlated instruments, of which the
    source names [FUTURE]; the other one is called [ETF] here. *)
Module Side.
Inductive t : Set := SELL | BUY.
End Side.

Inductive Lifespan : Set := GOOD_FOR_DAY.

Inductive Instrument : Set := FUTURE | ETF.

(** The two hedge prices.  Their values are computed from [MINIMUM_BID] and
    [MAXIMUM_ASK] of [ready_trader_go/types.h], which is not among the
    sources; a hedge order records which of the two constants it carries. *)
Inductive HedgePrice : Set := MIN_BID_NEAREST_TICK | MAX_ASK_NEAREST_TICK.

(** Calls to the order gateway. *)
Inductive Message : Type :=
| InsertOrder (clientOrderId : Z) (side : Side.t) (price volume : Z) (lifespan : Lifespan)
| CancelOrder (clientOrderId : Z)
| HedgeOrder (clientOrderId : Z) (side : Side.t) (price : HedgePrice) (volume : Z).

(** The members of [AutoTrader], the file-scope indicator variables and
    the gateway calls made so far (oldest first). *)
Record State : Type := mkState {
  mNextMessageId : Z;
  mAskId : Z;
  mBidId : Z;
  mAskPrice : Z;
  mBidPrice : Z;
  mPosition : Z;
  mHedges : Z;
  mAsks : gset Z;
  mBids : gset Z;
  shortInventory : gmap Z Z;
  longInventory : gmap Z Z;
  lotSize : gmap Z Z;
  PendingCancelAsk : bool;
  PendingCancelBid : bool;
  indicators : Indicators;
  outbox : list Message
}.

Definition initial_state : State :=
  {| mNextMessageId := 1; mAskId := 0; mBidId := 0; mAskPrice := 0; mBidPrice := 0;
     mPosition := 0; mHedges := 0; mAsks := empty; mBids := empty;
     shortInventory := empty; longInventory := empty; lotSize := empty;
     PendingCancelAsk := false; PendingCancelBid := false;
     indicators := initial_indicators; outbox := [] |}.

(** Member updates.  No member function assigns [mHedges]. *)
Definition set_mNextMessageId (v : Z) (s : State) : State :=
  {| mNextMessageId := v; mAskId := mAskId s; mBidId := mBidId s; mAskPrice := mAskPrice s; mBidPrice := mBidPrice s; mPosition := mPosition s; mHedges := mHedges s; mAsks := mAsks s; mBids := mBids s; shortInventory := shortInventory s; longInventory := longInventory s; lotSize := lotSize s; PendingCancelAsk := PendingCancelAsk s; PendingCancelBid := PendingCancelBid s; indicators := indicators s; outbox := outbox s |}.
Definition set_mAskId (v : Z) (s : State) : State :=
  {| mNextMessageId := mNextMessageId s; mAskId := v; mBidId := mBidId s; mAskPrice := mAskPrice s; mBidPrice := mBidPrice s; mPosition := mPosition s; mHedges := mHedges s; mAsks := mAsks s; mBids := mBids s; shortInventory := shortInventory s; longInventory := longInventory s; lotSize := lotSize s; PendingCancelAsk := PendingCancelAsk s; PendingCancelBid := PendingCancelBid s; indicators := indicators s; outbox := outbox s |}.
Definition set_mBidId (v : Z) (s : State) : State :=
  {| mNextMessageId := mNextMessageId s; mAskId := mAskId s; mBidId := v; mAskPrice := mAskPrice s; mBidPrice := mBidPrice s; mPosition := mPosition s; mHedges := mHedges s; mAsks := mAsks s; mBids := mBids s; shortInventory := shortInventory s; longInventory := longInventory s; lotSize := lotSize s; PendingCancelAsk := PendingCancelAsk s; PendingCancelBid := PendingCancelBid s; indicators := indicators s; outbox := outbox s |}.
Definition set_mAskPrice (v : Z) (s : State) : State :=
  {| mNextMessageId := mNextMessageId s; mAskId := mAskId s; mBidId := mBidId s; mAskPrice := v; mBidPrice := mBidPrice s; mPosition := mPosition s; mHedges := mHedges s; mAsks := mAsks s; mBids := mBids s; shortInventory := shortInventory s; longInventory := longInventory s; lotSize := lotSize s; PendingCancelAsk := PendingCancelAsk s; PendingCancelBid := PendingCancelBid s; indicators := indicators s; outbox := outbox s |}.
Definition set_mBidPrice (v : Z) (s : State) : State :=
  {| mNextMessageId := mNextMessageId s; mAskId := mAskId s; mBidId := mBidId s; mAskPrice := mAskPrice s; mBidPrice := v; mPosition := mPosition s; mHedges := mHedges s; mAsks := mAsks s; mBids := mBids s; shortInventory := shortInventory s; longInventory := longInventory s; lotSize := lotSize s; PendingCancelAsk := PendingCancelAsk s; PendingCancelBid := PendingCancelBid s; indicators := indicators s; outbox := outbox s |}.
Definition set_mPosition (v : Z) (s : State) : State :=
  {| mNextMessageId := mNextMessageId s; mAskId := mAskId s; mBidId := mBidId s; mAskPrice := mAskPrice s; mBidPrice := mBidPrice s; mPosition := v; mHedges := mHedges s; mAsks := mAsks s; mBids := mBids s; shortInventory := shortInventory s; longInventory := longInventory s; lotSize := lotSize s; PendingCancelAsk := PendingCancelAsk s; PendingCancelBid := PendingCancelBid s; indicators := indicators s; outbox := outbox s |}.
Definition set_mAsks (v : gset Z) (s : State) : State :=
  {| mNextMessageId := mNextMessageId s; mAskId := mAskId s; mBidId := mBidId s; mAskPrice := mAskPrice s; mBidPrice := mBidPrice s; mPosition := mPosition s; mHedges := mHedges s; mAsks := v; mBids := mBids s; shortInventory := shortInventory s; longInventory := longInventory s; lotSize := lotSize s; PendingCancelAsk := PendingCancelAsk s; PendingCancelBid := PendingCancelBid s; indicators := indicators s; outbox := outbox s |}.
Definition set_mBids (v : gset Z) (s : State) : State :=
  {| mNextMessageId := mNextMessageId s; mAskId := mAskId s; mBidId := mBidId s; mAskPrice := mAskPrice s; mBidPrice := mBidPrice s; mPosition := mPosition s; mHedges := mHedges s; mAsks := mAsks s; mBids := v; shortInventory := shortInventory s; longInventory := longInventory s; lotSize := lotSize s; PendingCancelAsk := PendingCancelAsk s; PendingCancelBid := PendingCancelBid s; indicators := indicators s; outbox := outbox s |}.
Definition set_shortInventory (v : gmap Z Z) (s : State) : State :=
  {| mNextMessageId := mNextMessageId s; mAskId := mAskId s; mBidId := mBidId s; mAskPrice := mAskPrice s; mBidPrice := mBidPrice s; mPosition := mPosition s; mHedges := mHedges s; mAsks := mAsks s; mBids := mBids s; shortInventory := v; longInventory := longInventory s; lotSize := lotSize s; PendingCancelAsk := PendingCancelAsk s; PendingCancelBid := PendingCancelBid s; indicators := indicators s; outbox := outbox s |}.
Definition set_longInventory (v : gmap Z Z) (s : State) : State :=
  {| mNextMessageId := mNextMessageId s; mAskId := mAskId s; mBidId := mBidId s; mAskPrice := mAskPrice s; mBidPrice := mBidPrice s; mPosition := mPosition s; mHedges := mHedges s; mAsks := mAsks s; mBids := mBids s; shortInventory := shortInventory s; longInventory := v; lotSize := lotSize s; PendingCancelAsk := PendingCancelAsk s; PendingCancelBid := PendingCancelBid s; indicators := indicators s; outbox := outbox s |}.
Definition set_lotSize (v : gmap Z Z) (s : State) : State :=
  {| mNextMessageId := mNextMessageId s; mAskId := mAskId s; mBidId := mBidId s; mAskPrice := mAskPrice s; mBidPrice := mBidPrice s; mPosition := mPosition s; mHedges := mHedges s; mAsks := mAsks s; mBids := mBids s; shortInventory := shortInventory s; longInventory := longInventory s; lotSize := v; PendingCancelAsk := PendingCancelAsk s; PendingCancelBid := PendingCancelBid s; indicators := indicators s; outbox := outbox s |}.
Definition set_PendingCancelAsk (v : bool) (s : State) : State :=
  {| mNextMessageId := mNextMessageId s; mAskId := mAskId s; mBidId := mBidId s; mAskPrice := mAskPrice s; mBidPrice := mBidPrice s; mPosition := mPosition s; mHedges := mHedges s; mAsks := mAsks s; mBids := mBids s; shortInventory := shortInventory s; longInventory := longInventory s; lotSize := lotSize s; PendingCancelAsk := v; PendingCancelBid := PendingCancelBid s; indicators := indicators s; outbox := outbox s |}.
Definition set_PendingCancelBid (v : bool) (s : State) : State :=
  {| mNextMessageId := mNextMessageId s; mAskId := mAskId s; mBidId := mBidId s; mAskPrice := mAskPrice s; mBidPrice := mBidPrice s; mPosition := mPosition s; mHedges := mHedges s; mAsks := mAsks s; mBids := mBids s; shortInventory := shortInventory s; longInventory := longInventory s; lotSize := lotSize s; PendingCancelAsk := PendingCancelAsk s; PendingCancelBid := v; indicators := indicators s; outbox := outbox s |}.
Definition set_indicators (v : Indicators) (s : State) : State :=
  {| mNextMessageId := mNextMessageId s; mAskId := mAskId s; mBidId := mBidId s; mAskPrice := mAskPrice s; mBidPrice := mBidPrice s; mPosition := mPosition s; mHedges := mHedges s; mAsks := mAsks s; mBids := mBids s; shortInventory := shortInventory s; longInventory := longInventory s; lotSize := lotSize s; PendingCancelAsk := PendingCancelAsk s; PendingCancelBid := PendingCancelBid s; indicators := v; outbox := outbox s |}.
Definition set_outbox (v : list Message) (s : State) : State :=
  {| mNextMessageId := mNextMessageId s; mAskId := mAskId s; mBidId := mBidId s; mAskPrice := mAskPrice s; mBidPrice := mBidPrice s; mPosition := mPosition s; mHedges := mHedges s; mAsks := mAsks s; mBids := mBids s; shortInventory := shortInventory s; longInventory := longInventory s; lotSize := lotSize s; PendingCancelAsk := PendingCancelAsk s; PendingCancelBid := PendingCancelBid s; indicators := indicators s; outbox := v |}.

Definition send (m : Message) (s : State) : State := set_outbox (outbox s ++ [m]) s.

Definition SendCancelOrder (clientOrderId : Z) (s : State) : State :=
  send (CancelOrder clientOrderId) s.
Definition SendInsertOrder (clientOrderId : Z) (side : Side.t) (price volume : Z)
    (lifespan : Lifespan) (s : State) : State :=
  send (InsertOrder clientOrderId side price volume lifespan) s.
Definition SendHedgeOrder (clientOrderId : Z) (side : Side.t) (price : HedgePrice)
    (volume : Z) (s : State) : State :=
  send (HedgeOrder clientOrderId side price volume) s.

(** [mNextMessageId++]: the old value, and the state with the counter advanced. *)
Definition next_message_id (s : State) : Z * State :=
  (mNextMessageId s, set_mNextMessageId (ulong_add (mNextMessageId s) 1) s).

(** [std::unordered_map::emplace]: no effect when the key is present. *)
Definition map_emplace (k v : Z) (m : gmap Z Z) : gmap Z Z :=
  match m !! k with
  | Some _ => m
  | None => <[k := v]> m
  end.

(** [m[k]], which creates a zero entry when the key is absent. *)
Definition map_at (k : Z) (m : gmap Z Z) : Z := default 0 (m !! k).

(** [set.count(k) == 1]. *)
Definition set_has (k : Z) (X : gset Z) : bool := bool_decide (k ∈ X).

(** *** Execution notifications *)

(** The guard of a fill,
    [std::abs(exposure) <= POSITION_LIMIT && std::abs(newPosition) <= POSITION_LIMIT];
    the second operand is evaluated only when the first holds. *)
Definition within_limit (exposure newPosition : Z) : option bool :=
  do a <- long_abs exposure;
  if a <=? POSITION_LIMIT then
    do b <- long_abs newPosition;
    Some (b <=? POSITION_LIMIT)
  else Some false.

(** The condition under which an ask fill moves the position:
    [std::abs(newPosition + mHedges) <= POSITION_LIMIT
     && std::abs(newPosition) <= POSITION_LIMIT]. *)
Definition askFillAccepted (newPosition mHedges : Z) : option bool :=
  do exposure <- long_add newPosition mHedges;
  within_limit exposure newPosition.

(** The same for a bid fill, with [newPosition - mHedges]. *)
Definition bidFillAccepted (newPosition mHedges : Z) : option bool :=
  do exposure <- long_sub newPosition mHedges;
  within_limit exposure newPosition.

(** The check on the position alone, [std::abs(newPosition) <= POSITION_LIMIT]. *)
Definition plainCheck (newPosition : Z) : option bool :=
  do b <- long_abs newPosition;
  Some (b <=? POSITION_LIMIT).

Definition OrderFilledMessageHandler (clientOrderId price volume : Z) (s : State)
    : option State :=
  do s1 <-
    (if set_has clientOrderId (mAsks s) then
       do newPosition <- long_sub (mPosition s) (to_long volume);
       do ok <- askFillAccepted newPosition (mHedges s);
       let s := if ok then set_mPosition newPosition s else s in
       let '(id, s) := next_message_id s in
       let s := SendHedgeOrder id Side.BUY MAX_ASK_NEAREST_TICK volume s in
       Some (set_shortInventory (map_emplace clientOrderId price (shortInventory s)) s)
     else if set_has clientOrderId (mBids s) then
       do newPosition <- long_add (mPosition s) (to_long volume);
       do ok <- bidFillAccepted newPosition (mHedges s);
       let s := if ok then set_mPosition newPosition s else s in
       let '(id, s) := next_message_id s in
       let s := SendHedgeOrder id Side.SELL MIN_BID_NEAREST_TICK volume s in
       Some (set_longInventory (map_emplace clientOrderId price (longInventory s)) s)
     else Some s);
  Some (set_lotSize (map_emplace clientOrderId volume (lotSize s1)) s1).

Definition OrderStatusMessageHandler (clientOrderId fillVolume remainingVolume fees : Z)
    (s : State) : State :=
  if remainingVolume =? 0 then
    let s :=
      if clientOrderId =? mAskId s then set_PendingCancelAsk false (set_mAskId 0 s)
      else if clientOrderId =? mBidId s then set_PendingCancelBid false (set_mBidId 0 s)
      else s in
    let s :=
      if set_has clientOrderId (mAsks s)
      then set_mAsks (mAsks s ∖ {[clientOrderId]}) s else s in
    if set_has clientOrderId (mBids s)
    then set_mBids (mBids s ∖ {[clientOrderId]}) s else s
  else
    let s :=
      set_longInventory
        (<[clientOrderId := to_ulong (map_at clientOrderId (longInventory s) + fees)]>
           (longInventory s)) s in
    let s :=
      set_shortInventory
        (<[clientOrderId := to_ulong (map_at clientOrderId (shortInventory s) - fees)]>
           (shortInventory s)) s in
    set_lotSize (<[clientOrderId := remainingVolume]> (lotSize s)) s.

Definition ErrorMessageHandler (clientOrderId : Z) (errorMessage : string) (s : State)
    : State :=
  if negb (clientOrderId =? 0)
     && (set_has clientOrderId (mAsks s) || set_has clientOrderId (mBids s))
  then OrderStatusMessageHandler clientOrderId 0 0 0 s
  else s.

(** Logging only. *)
Definition HedgeFilledMessageHandler (clientOrderId price volume : Z) (s : State) : State := s.

(** Logging only. *)
Definition TradeTicksMessageHandler (instrument : Instrument) (sequenceNumber : Z)
    (askPrices askVolumes bidPrices bidVolumes : PriceVolumeArray) (s : State) : State := s.

(** Modelled from the spec: [BaseAutoTrader::DisconnectHandler] is not among
    the sources; connection loss is reported and leaves the trader's
    bookkeeping as it is. *)
Definition DisconnectHandler (s : State) : State := s.

(** *** Quoting *)

(** [-(mPosition / LOT_SIZE) * TICK_SIZE_IN_CENTS], computed in [long] and
    converted to [unsigned long]. *)
Definition priceAdjustment (mPosition : Z) : option Z :=
  do q <- long_div mPosition LOT_SIZE;
  do n <- long_neg q;
  do a <- long_mul n TICK_SIZE_IN_CENTS;
  Some (to_ulong a).

(** [(p / TICK_SIZE_IN_CENTS) * TICK_SIZE_IN_CENTS] on [unsigned long]. *)
Definition round_to_tick (p : Z) : Z := to_ulong ((p / TICK_SIZE_IN_CENTS) * TICK_SIZE_IN_CENTS).

(** The values computed at the top of [OrderBookMessageHandler]. *)
Record Quote : Type := mkQuote {
  currentPrice : Z;
  newAskPrice : Z;
  newBidPrice : Z;
  askQuantity : Z;
  bidQuantity : Z
}.

Definition targetAskPrice (askPrices : PriceVolumeArray) (adjustment : Z)
    (weightedAverageSpread : Dbl.t) : option Z :=
  do p <- Dbl.to_ulong
            (if negb (arr_get askPrices 0 =? 0)
             then Dbl.add (Dbl.of_ulong (ulong_add (arr_get askPrices 0) adjustment))
                          weightedAverageSpread
             else Dbl.zero);
  Some (round_to_tick p).

Definition targetBidPrice (bidPrices : PriceVolumeArray) (adjustment : Z)
    (weightedAverageSpread : Dbl.t) : option Z :=
  do p <- Dbl.to_ulong
            (if negb (arr_get bidPrices 0 =? 0)
             then Dbl.sub (Dbl.of_ulong (ulong_add (arr_get bidPrices 0) adjustment))
                          weightedAverageSpread
             else Dbl.zero);
  Some (round_to_tick p).

Definition computeQuote (askPrices askVolumes bidPrices bidVolumes : PriceVolumeArray)
    (mPosition : Z) : option Quote :=
  let weightedAverageSpread :=
    WeightedAverageSpread askPrices askVolumes bidPrices bidVolumes in
  do adjustment <- priceAdjustment mPosition;
  let currentPrice := ulong_shr1 (ulong_add (arr_get bidPrices 0) (arr_get askPrices 0)) in
  do newAskPrice <- targetAskPrice askPrices adjustment weightedAverageSpread;
  do newBidPrice <- targetBidPrice bidPrices adjustment weightedAverageSpread;
  do roomBelow <- long_add POSITION_LIMIT mPosition;
  let askQuantity := Z.min LOT_SIZE (to_ulong roomBelow) in
  do roomAbove <- long_sub POSITION_LIMIT mPosition;
  let bidQuantity := Z.min LOT_SIZE (to_ulong roomAbove) in
  Some (mkQuote currentPrice newAskPrice newBidPrice askQuantity bidQuantity).

(** The ask block of [OrderBookMessageHandler].  The source repeats this
    block, text for text, at each place where it requotes the ask. *)
Definition requoteAsk (q : Quote) (s : State) : State :=
  if negb (newAskPrice q =? 0) && negb (newAskPrice q =? mAskPrice s) then
    let s :=
      if negb (mAskId s =? 0)
      then set_PendingCancelAsk true (SendCancelOrder (mAskId s) s)
      else s in
    let s :=
      if negb (PendingCancelAsk s) && (0 <? askQuantity q) then
        let '(id, s) := next_message_id s in
        let s := set_mAskId id s in
        let s := SendInsertOrder (mAskId s) Side.SELL (newAskPrice q) (askQuantity q)
                   GOOD_FOR_DAY s in
        set_mAsks ({[mAskId s]} ∪ mAsks s) s
      else s in
    set_mAskPrice (newAskPrice q) s
  else s.

(** The bid block, repeated likewise. *)
Definition requoteBid (q : Quote) (s : State) : State :=
  if negb (newBidPrice q =? 0) && negb (newBidPrice q =? mBidPrice s) then
    let s :=
      if negb (mBidId s =? 0)
      then set_PendingCancelBid true (SendCancelOrder (mBidId s) s)
      else s in
    let s :=
      if negb (PendingCancelBid s) && (0 <? bidQuantity q) then
        let '(id, s) := next_message_id s in
        let s := set_mBidId id s in
        let s := SendInsertOrder (mBidId s) Side.BUY (newBidPrice q) (bidQuantity q)
                   GOOD_FOR_DAY s in
        set_mBids ({[mBidId s]} ∪ mBids s) s
      else s in
    set_mBidPrice (newBidPrice q) s
  else s.

Definition is_BUY (signal : IchimokuSignal.t) : bool :=
  match signal with IchimokuSignal.BUY => true | _ => false end.
Definition is_SELL (signal : IchimokuSignal.t) : bool :=
  match signal with IchimokuSignal.SELL => true | _ => false end.

(** The two signal branches that follow the call of [Ichimoku]. *)
Definition actOnSignal (signal : IchimokuSignal.t) (q : Quote) (s : State) : State :=
  if (52 <=? vec_size (leadingSpanBBuffer (indicators s))) && is_BUY signal
  then requoteBid q s
  else if is_SELL signal then requoteAsk q s
  else s.

(** One pass of the loop over [longInventory]. *)
Definition unloadLong (q : Quote) (s : State) (entry : Z * Z) : State :=
  let longCostBasis := snd entry in
  if negb (newAskPrice q =? 0) && negb (newAskPrice q =? mAskPrice s) then
    if longCostBasis <? currentPrice q then requoteAsk q s else s
  else s.

(** One pass of the loop over [shortInventory]. *)
Definition unloadShort (q : Quote) (s : State) (entry : Z * Z) : State :=
  let shortCostBasis := snd entry in
  if currentPrice q <? shortCostBasis then requoteBid q s else s.

(** The profit-taking overlay.  The maps are walked in the order of
    [map_to_list]; the loops do not change the maps they walk. *)
Definition unloadInventory (q : Quote) (s : State) : State :=
  if (UNLOAD <=? mPosition s) || (mPosition s <=? - UNLOAD) then
    let s := foldl (unloadLong q) s (map_to_list (longInventory s)) in
    foldl (unloadShort q) s (map_to_list (shortInventory s))
  else s.

Definition OrderBookMessageHandler (instrument : Instrument) (sequenceNumber : Z)
    (askPrices askVolumes bidPrices bidVolumes : PriceVolumeArray) (s : State)
    : option State :=
  do q <- computeQuote askPrices askVolumes bidPrices bidVolumes (mPosition s);
  match instrument with
  | FUTURE =>
      let s := requoteAsk q s in
      let s := requoteBid q s in
      do '(signal, g) <- Ichimoku askPrices askVolumes bidPrices bidVolumes (indicators s);
      let s := set_indicators g s in
      let s := actOnSignal signal q s in
      Some (unloadInventory q s)
  | ETF => Some s
  end.

(** *** Sessions *)

Inductive Event : Type :=
| EvOrderBook (instrument : Instrument) (sequenceNumber : Z) (book : Book)
| EvTradeTicks (instrument : Instrument) (sequenceNumber : Z) (book : Book)
| EvOrderFilled (clientOrderId price volume : Z)
| EvOrderStatus (clientOrderId fillVolume remainingVolume fees : Z)
| EvHedgeFilled (clientOrderId price volume : Z)
| EvError (clientOrderId : Z) (errorMessage : string)
| EvDisconnect.

Definition step (s : State) (e : Event) : option State :=
  match e with
  | EvOrderBook i n b =>
      OrderBookMessageHandler i n (askPrices b) (askVolumes b) (bidPrices b) (bidVolumes b) s
  | EvTradeTicks i n b =>
      Some (TradeTicksMessageHandler i n (askPrices b) (askVolumes b)
              (bidPrices b) (bidVolumes b) s)
  | EvOrderFilled id p v => OrderFilledMessageHandler id p v s
  | EvOrderStatus id f r fees => Some (OrderStatusMessageHandler id f r fees s)
  | EvHedgeFilled id p v => Some (HedgeFilledMessageHandler id p v s)
  | EvError id msg => Some (ErrorMessageHandler id msg s)
  | EvDisconnect => Some (DisconnectHandler s)
  end.

(** The handlers run one at a time, in the order of delivery. *)
Fixpoint run (s : State) (events : list Event) : option State :=
  match events with
  | [] => Some s
  | e :: events' => do s' <- step s e; run s' events'
  end.

(** A state is reachable when some session, started in the initial state,
    ends in it. *)
Definition reachable (s : State) : Prop :=
  exists events, run initial_state events = Some s.

(** A session of fill notifications only; a fill is (id, price, volume). *)
Definition Fill : Type := (Z * Z * Z)%type.

Definition fill_event (f : Fill) : Event :=
  let '(id, price, volume) := f in EvOrderFilled id price volume.

Definition run_fills (s : State) (fills : list Fill) : option State :=
  run s (map fill_event fills).

(** The gateway calls made between two states of one session. *)
Definition sent_since (s s' : State) : list Message :=
  drop (length (outbox s)) (outbox s').

(** * Specification vocabulary *)

(** What the window holds after the values [vs] have been pushed into a
    new window: slot [i mod N] holds push number [i] for each of the last
    [N] pushes. *)
Record tracks (N : Z) (vs : list Z) (w : Window) : Prop := mkTracks {
  tr_len : Z.of_nat (length (w_buffer w)) = N;
  tr_index : w_index w = Z.of_nat (length vs) mod N;
  tr_count : w_count w = Z.min (Z.of_nat (length vs)) N;
  tr_slots : forall i : nat,
    (i < length vs)%nat -> Z.of_nat (length vs) <= Z.of_nat i + N ->
    w_buffer w !! Z.to_nat (Z.of_nat i mod N) = vs !! i;
  tr_sum : w_sum w = to_ulong (sum_list (lastn (Z.to_nat (w_count w)) vs))
}.

(** The statement of the sliding-window property with the sum taken in the
    integers, for one capacity and one sequence of pushes. *)
Definition exact_sum_after_pushes (N : Z) (vs : list Z) : Prop :=
  forall w, pushes N (fresh N) vs = Some w ->
    w_sum w = sum_list (lastn (Nat.min (length vs) (Z.to_nat N)) vs)
    /\ w_count w <= N.

(** A window in step with its pushes: the buffer has its capacity, the
    cursor and the count are in range, and until the window is full the
    cursor stands at the count. *)
Definition wf_window (N : Z) (buffer : list Z) (index count : Z) : Prop :=
  Z.of_nat (length buffer) = N /\ 0 <= index < N /\ 0 <= count <= N
  /\ (count < N -> index = count).

(** Every buffer has the length it was created with, and every cursor and
    count lies within it. *)
Record wf_indicators (g : Indicators) : Prop := mkWf {
  wf_conversion :
    wf_window conversion_line_size (conversionLineBuffer g)
      (conversionLineIndex g) (conversionLineCount g);
  wf_baseline :
    wf_window baseline_size (baselineBuffer g) (baselineIndex g) (baselineCount g);
  wf_leading :
    wf_window leading_span_b_window (leadingSpanBBuffer g)
      (leadingSpanBIndex g) (leadingSpanBCount g);
  wf_lagging :
    wf_window baseline_size (laggingSpanBuffer g) (laggingSpanIndex g) (laggingSpanCount g)
}.

(** The condition that opens the ask block, and the one for the bid block. *)
Definition askDue (q : Quote) (s : State) : bool :=
  negb (newAskPrice q =? 0) && negb (newAskPrice q =? mAskPrice s).
Definition bidDue (q : Quote) (s : State) : bool :=
  negb (newBidPrice q =? 0) && negb (newBidPrice q =? mBidPrice s).

(** Case analysis on every test of a block. *)
Ltac crush_block :=
  repeat match goal with
         | |- context [if ?b then _ else _] => destruct b
         end; reflexivity.

(** What quoting never touches: the position, the hedge counter, the
    inventory and lot-size maps and the indicator variables. *)
Record same_books (s s' : State) : Prop := mkSameBooks {
  sb_position : mPosition s' = mPosition s;
  sb_hedges : mHedges s' = mHedges s;
  sb_short : shortInventory s' = shortInventory s;
  sb_long : longInventory s' = longInventory s;
  sb_lots : lotSize s' = lotSize s;
  sb_indicators : indicators s' = indicators s
}.

(** The state in which the signal branches run, with the signal and the
    quote of that update. *)
Definition atSignalDispatch (askP askV bidP bidV : PriceVolumeArray) (s : State)
    : option (IchimokuSignal.t * Quote * State) :=
  do q <- computeQuote askP askV bidP bidV (mPosition s);
  let s := requoteBid q (requoteAsk q s) in
  do '(signal, g) <- Ichimoku askP askV bidP bidV (indicators s);
  Some (signal, q, set_indicators g s).

Ltac split3 := split; [|split].

(** Two order books: best ask 1100 and best bid 900, then 1300 and 1100,
    ten lots on each side. *)
Definition book1 : Book := mkBook [1100] [10] [900] [10].
Definition book2 : Book := mkBook [1300] [10] [1100] [10].

(** After the first order book: an ask (id 1) rests at 1200 and a bid
    (id 2) at 800, each for 100 lots. *)
Definition quoted_state : State :=
  {| mNextMessageId := 3; mAskId := 1; mBidId := 2;
     mAskPrice := 1200; mBidPrice := 800;
     mPosition := 0; mHedges := 0;
     mAsks := {[ 1 ]}; mBids := {[ 2 ]};
     shortInventory := empty; longInventory := empty; lotSize := empty;
     PendingCancelAsk := false; PendingCancelBid := false;
     indicators :=
       {| conversionLineBuffer := 1000 :: replicate 8 0;
          baselineBuffer := 1000 :: replicate 25 0;
          leadingSpanBBuffer := 1000 :: replicate 51 0;
          laggingSpanBuffer := 1000 :: replicate 25 0;
          conversionLineSum := 1000; baselineSum := 1000; leadingSpanBSum := 2000;
          conversionLineIndex := 1; baselineIndex := 1;
          leadingSpanBIndex := 1; laggingSpanIndex := 1;
          conversionLineCount := 1; baselineCount := 1;
          leadingSpanBCount := 1; laggingSpanCount := 1 |};
     outbox := [InsertOrder 1 Side.SELL 1200 100 GOOD_FOR_DAY;
                InsertOrder 2 Side.BUY 800 100 GOOD_FOR_DAY] |}.

(** The statement that a resting ask whose price has moved is cancelled and
    replaced within the same update, for one state and one order book. *)
Definition ask_replaced_in_same_update (s : State) (n : Z) (b : Book) : Prop :=
  forall q,
    computeQuote (askPrices b) (askVolumes b) (bidPrices b) (bidVolumes b) (mPosition s)
      = Some q ->
    mAskId s <> 0 -> PendingCancelAsk s = false ->
    newAskPrice q <> 0 -> newAskPrice q <> mAskPrice s -> 0 < askQuantity q ->
    exists s',
      step s (EvOrderBook FUTURE n b) = Some s'
      /\ In (CancelOrder (mAskId s)) (sent_since s s')
      /\ exists id, In (InsertOrder id Side.SELL (newAskPrice q) (askQuantity q) GOOD_FOR_DAY)
                       (sent_since s s').

(** The statement that, while the leading-span-B window is not full, a BUY
    signal sends nothing whereas a SELL signal can still send a cancel or
    an insert. *)
Definition signal_gating_as_stated : Prop :=
  (forall askP askV bidP bidV s signal q s3,
     atSignalDispatch askP askV bidP bidV s = Some (signal, q, s3) ->
     leadingSpanBCount (indicators s3) < leading_span_b_window ->
     sent_since s3 (actOnSignal IchimokuSignal.BUY q s3) = [])
  /\ (exists askP askV bidP bidV s signal q s3,
        atSignalDispatch askP askV bidP bidV s = Some (signal, q, s3)
        /\ leadingSpanBCount (indicators s3) < leading_span_b_window
        /\ sent_since s3 (actOnSignal IchimokuSignal.SELL q s3) <> []).

(** A status update, as (fill volume, remaining volume, fees). *)
Definition StatusUpdate : Type := (Z * Z * Z)%type.

Definition remaining (u : StatusUpdate) : Z := snd (fst u).

(** Successive status updates for one order id. *)
Definition status_updates (id : Z) (s : State) (us : list StatusUpdate) : State :=
  foldl (fun s u => OrderStatusMessageHandler id (fst (fst u)) (snd (fst u)) (snd u) s) s us.

(** The statement that, once a zero-remaining update for an id has been
    processed, any later update for that id leaves the position and the two
    inventory maps as they are. *)
Definition terminal_status_final (s : State) (id : Z) : Prop :=
  forall f fees f' r' fees',
    let s1 := OrderStatusMessageHandler id f 0 fees s in
    let s2 := OrderStatusMessageHandler id f' r' fees' s1 in
    mPosition s2 = mPosition s1
    /\ longInventory s2 = longInventory s1
    /\ shortInventory s2 = shortInventory s1.

(** The ask of [quoted_state] filled for 10 lots at 1200. *)
Definition filled_state : State :=
  {| mNextMessageId := 4; mAskId := 1; mBidId := 2;
     mAskPrice := 1200; mBidPrice := 800;
     mPosition := -10; mHedges := 0;
     mAsks := {[ 1 ]}; mBids := {[ 2 ]};
     shortInventory := {[ 1 := 1200 ]}; longInventory := empty;
     lotSize := {[ 1 := 10 ]};
     PendingCancelAsk := false; PendingCancelBid := false;
     indicators := indicators quoted_state;
     outbox := outbox quoted_state ++ [HedgeOrder 3 Side.BUY MAX_ASK_NEAREST_TICK 10] |}.

(** [filled_state] after a second fill of the ask, for 2^63 - 10 lots:
    the position is the least [long]; the cost basis and the lot size of
    the first fill stay. *)
Definition overdrawn_state : State :=
  {| mNextMessageId := 5; mAskId := 1; mBidId := 2;
     mAskPrice := 1200; mBidPrice := 800;
     mPosition := - 2 ^ 63; mHedges := 0;
     mAsks := {[ 1 ]}; mBids := {[ 2 ]};
     shortInventory := {[ 1 := 1200 ]}; longInventory := empty;
     lotSize := {[ 1 := 10 ]};
     PendingCancelAsk := false; PendingCancelBid := false;
     indicators := indicators quoted_state;
     outbox := outbox filled_state
               ++ [HedgeOrder 4 Side.BUY MAX_ASK_NEAREST_TICK (2 ^ 63 - 10)] |}.

(** An order id the trader knows nothing about. *)
Definition unknown_id (id : Z) (s : State) : Prop :=
  id <> mAskId s /\ id <> mBidId s
  /\ set_has id (mAsks s) = false /\ set_has id (mBids s) = false
  /\ longInventory s !! id = None /\ shortInventory s !! id = None
  /\ lotSize s !! id = None.

(** The statement that a status update for an unknown id changes nothing. *)
Definition unknown_status_ignored (s : State) (id f r fees : Z) : Prop :=
  unknown_id id s -> OrderStatusMessageHandler id f r fees s = s.

(** [sum == Σ(buffer[0..count))]. *)
Definition window_sum_exact (buffer : list Z) (count sum : Z) : Prop :=
  sum = sum_list (take (Z.to_nat count) buffer).

(** The statement that each of the four windows satisfies the invariant,
    each with the running sum its pushes are made with. *)
Definition windows_sums_exact (g : Indicators) : Prop :=
  window_sum_exact (conversionLineBuffer g) (conversionLineCount g) (conversionLineSum g)
  /\ window_sum_exact (baselineBuffer g) (baselineCount g) (baselineSum g)
  /\ window_sum_exact (leadingSpanBBuffer g) (leadingSpanBCount g) (leadingSpanBSum g)
  /\ window_sum_exact (laggingSpanBuffer g) (laggingSpanCount g) (leadingSpanBSum g).

(** What the running sums do hold: the conversion-line and baseline sums
    are the sums of their windows, and [leadingSpanBSum] is the sum of the
    leading-span-B window plus the sum of the lagging-span window, all
    modulo 2^64. *)
Record sums_found (g : Indicators) : Prop := mkSums {
  sf_conversion :
    conversionLineSum g
    = to_ulong (sum_list (take (Z.to_nat (conversionLineCount g)) (conversionLineBuffer g)));
  sf_baseline :
    baselineSum g
    = to_ulong (sum_list (take (Z.to_nat (baselineCount g)) (baselineBuffer g)));
  sf_leading :
    leadingSpanBSum g
    = to_ulong (sum_list (take (Z.to_nat (leadingSpanBCount g)) (leadingSpanBBuffer g))
                + sum_list (take (Z.to_nat (laggingSpanCount g)) (laggingSpanBuffer g)))
}.

(** ** Vocabulary of the further properties *)

(** The level [i] of an order book adds nothing to the spread estimate:
    a price is missing, or no volume stands on one of the two sides. *)
Definition level_idle (askP askV bidP bidV : PriceVolumeArray) (i : nat) : Prop :=
  arr_get askP i = 0 \/ arr_get bidP i = 0
  \/ Z.min (arr_get askV i) (arr_get bidV i) = 0.

(** The id a gateway call consumes from [mNextMessageId], if any. *)
Definition allots_id (m : Message) : option Z :=
  match m with
  | InsertOrder id _ _ _ _ => Some id
  | HedgeOrder id _ _ _ => Some id
  | CancelOrder _ => None
  end.

(** The ids consumed by a list of gateway calls, in call order. *)
Definition allotted_ids (l : list Message) : list Z := omap allots_id l.

(** [ids] are [start], [start + 1], ... in [unsigned long] arithmetic. *)
Definition consecutive_from (start : Z) (ids : list Z) : Prop :=
  forall (i : nat) id, ids !! i = Some id -> id = to_ulong (start + Z.of_nat i).

(** A quote as [computeQuote] produces it: prices on the tick grid, sizes
    at most one lot. *)
Record quote_ok (q : Quote) : Prop := mkQuoteOk {
  qo_ask : 0 <= newAskPrice q < ULONG_MOD /\ newAskPrice q mod TICK_SIZE_IN_CENTS = 0;
  qo_bid : 0 <= newBidPrice q < ULONG_MOD /\ newBidPrice q mod TICK_SIZE_IN_CENTS = 0;
  qo_askq : askQuantity q <= LOT_SIZE;
  qo_bidq : bidQuantity q <= LOT_SIZE
}.

(** Every cancel in a list of gateway calls names a nonzero id for which
    an insert stands earlier in the list. *)
Definition cancels_follow_inserts (l : list Message) : Prop :=
  forall l1 l2 id, l = l1 ++ CancelOrder id :: l2 ->
    id <> 0 /\ exists sd p v, In (InsertOrder id sd p v GOOD_FOR_DAY) l1.

(** How the trader's bookkeeping and the gateway calls made so far hang
    together. *)
Record session_inv (s : State) : Prop := mkSessionInv {
  si_ids : consecutive_from 1 (allotted_ids (outbox s));
  si_next : mNextMessageId s
            = to_ulong (1 + Z.of_nat (length (allotted_ids (outbox s))));
  si_ask : mAskId s = 0
           \/ exists p v, In (InsertOrder (mAskId s) Side.SELL p v GOOD_FOR_DAY) (outbox s);
  si_bid : mBidId s = 0
           \/ exists p v, In (InsertOrder (mBidId s) Side.BUY p v GOOD_FOR_DAY) (outbox s);
  si_asks : forall id, id ∈ mAsks s ->
            exists p v, In (InsertOrder id Side.SELL p v GOOD_FOR_DAY) (outbox s);
  si_bids : forall id, id ∈ mBids s ->
            exists p v, In (InsertOrder id Side.BUY p v GOOD_FOR_DAY) (outbox s);
  si_cancel : cancels_follow_inserts (outbox s);
  si_insert : forall id sd p v l, In (InsertOrder id sd p v l) (outbox s) ->
              0 < p < ULONG_MOD /\ p mod TICK_SIZE_IN_CENTS = 0 /\ 1 <= v <= LOT_SIZE;
  si_hedge : forall id sd p v, In (HedgeOrder id sd p v) (outbox s) ->
             (sd = Side.BUY /\ p = MAX_ASK_NEAREST_TICK)
             \/ (sd = Side.SELL /\ p = MIN_BID_NEAREST_TICK);
  si_pending_ask : PendingCancelAsk s = true -> mAskId s <> 0;
  si_pending_bid : PendingCancelBid s = true -> mBidId s <> 0
}.

(** Membership in an outbox with one more call. *)
Ltac keep_in := eauto 8 using in_or_app, in_eq.

(** An order-book update for the quoted instrument. *)
Definition is_future_book (e : Event) : bool :=
  match e with
  | EvOrderBook FUTURE _ _ => true
  | _ => false
  end.

(** The number of such updates in a session. *)
Definition future_books (events : list Event) : nat :=
  length (List.filter is_future_book events).

(** A status update or an error notification that carries the order id [id]. *)
Definition about_order (id : Z) (e : Event) : bool :=
  match e with
  | EvOrderStatus id' _ _ _ => id' =? id
  | EvError id' _ => id' =? id
  | _ => false
  end.

Definition is_sell_insert (m : Message) : bool :=
  match m with
  | InsertOrder _ Side.SELL _ _ _ => true
  | _ => false
  end.

Definition is_buy_insert (m : Message) : bool :=
  match m with
  | InsertOrder _ Side.BUY _ _ _ => true
  | _ => false
  end.

(** [quoted_state] with a cancel pending on both sides. *)
Definition cancel_pending_state : State :=
  set_PendingCancelBid true (set_PendingCancelAsk true quoted_state).

(** The hedge order a fill triggers: a buy at [MAX_ASK_NEAREST_TICK] for a
    fill of an active ask, a sell at [MIN_BID_NEAREST_TICK] for a fill of
    an active bid, none for any other id. *)
Definition hedge_for (id volume : Z) (s : State) : list Message :=
  if set_has id (mAsks s)
  then [HedgeOrder (mNextMessageId s) Side.BUY MAX_ASK_NEAREST_TICK volume]
  else if set_has id (mBids s)
  then [HedgeOrder (mNextMessageId s) Side.SELL MIN_BID_NEAREST_TICK volume]
  else [].

(** The four window counts. *)
Definition window_counts (g : Indicators) : Z * Z * Z * Z :=
  (conversionLineCount g, baselineCount g, leadingSpanBCount g, laggingSpanCount g).

(** The counts after [k] calls of [Ichimoku] from counts 0. *)
Definition counts_after (k : nat) : Z * Z * Z * Z :=
  (Z.min (Z.of_nat k) conversion_line_size, Z.min (Z.of_nat k) baseline_size,
   Z.min (Z.of_nat k) leading_span_b_window, Z.min (Z.of_nat k) baseline_size).


(** The mid-price [Ichimoku] computes from an order book:
    [(bidPrices[0] + askPrices[0]) >> 1] in [unsigned long]. *)
Definition midprice (b : Book) : Z :=
  ulong_shr1 (ulong_add (arr_get (bidPrices b) 0) (arr_get (askPrices b) 0)).

(** The conversion-line and baseline variables, each as one window. *)
Definition conversion_window (g : Indicators) : Window :=
  mkWindow (conversionLineBuffer g) (conversionLineIndex g)
    (conversionLineCount g) (conversionLineSum g).

Definition baseline_window (g : Indicators) : Window :=
  mkWindow (baselineBuffer g) (baselineIndex g) (baselineCount g) (baselineSum g).

(** [sum / count] of a window. *)
Definition window_average (w : Window) : Z := w_sum w / w_count w.

(** The averages observed after each push. *)
Fixpoint push_averages (N : Z) (w : Window) (vs : list Z) : option (list Z) :=
  match vs with
  | [] => Some []
  | v :: vs' =>
      do w' <- push N w v;
      do r <- push_averages N w' vs';
      Some (window_average w' :: r)
  end.

(** Two windows that agree on buffer, cursor and count. *)
Definition same_slots (w : Window) (buffer : list Z) (index count : Z) : Prop :=
  w_buffer w = buffer /\ w_index w = index /\ w_count w = count.

(** The order books for the quoted instrument in a session, in order of
    arrival. *)
Definition future_book_stream (events : list Event) : list Book :=
  omap (fun e => match e with
                 | EvOrderBook FUTURE _ b => Some b
                 | _ => None
                 end) events.

(** The average of the last [min (k+1) N] of the values [vs] up to number
    [k], with the sum reduced modulo 2^64, for each [k]. *)
Definition moving_averages (N : nat) (vs : list Z) : list Z :=
  map (fun k => let n := Nat.min (S k) N in
                to_ulong (sum_list (lastn n (take (S k) vs))) / Z.of_nat n)
      (seq 0 (length vs)).

(** The values for which [std::abs(z) <= POSITION_LIMIT] holds when the
    program evaluates it: those within the limit, and the least [long]. *)
Definition passes_limit_check (z : Z) : Prop :=
  z = LONG_MIN \/ Z.abs z <= POSITION_LIMIT.

(** A notification that is not a fill of 2^63 - 100 lots or more. *)
Definition fill_below_bound (e : Event) : Prop :=
  match e with
  | EvOrderFilled _ _ volume => 0 <= volume < 2 ^ 63 - 100
  | _ => True
  end.

(** The session that takes the position out of the limit: the first order
    book, a fill of the ask for 10 lots, and a second fill of the same ask
    for 2^63 - 10 lots. *)
Definition overdrawing_session : list Event :=
  [EvOrderBook FUTURE 1 book1; EvOrderFilled 1 1200 10;
   EvOrderFilled 1 1200 (2 ^ 63 - 10)].

(** * Properties *)

(** ** Machine arithmetic *)

Lemma to_ulong_range z : 0 <= to_ulong z < ULONG_MOD.
Proof. unfold to_ulong, ULONG_MOD. apply Z.mod_pos_bound. lia. Qed.

Lemma to_ulong_small z : 0 <= z < ULONG_MOD -> to_ulong z = z.
Proof. intros H. unfold to_ulong. apply Z.mod_small. exact H. Qed.

Lemma to_long_range z : LONG_MIN <= to_long z <= LONG_MAX.
Proof.
  unfold to_long, LONG_MIN, LONG_MAX, ULONG_MOD.
  pose proof (Z.mod_pos_bound (z + 2 ^ 63) (2 ^ 64)). lia.
Qed.

Lemma to_long_small z : 0 <= z <= LONG_MAX -> to_long z = z.
Proof.
  unfold to_long, LONG_MAX, ULONG_MOD. intros H.
  rewrite Z.mod_small; lia.
Qed.

Lemma long_val_Some z r : long_val z = Some r -> r = z /\ LONG_MIN <= z <= LONG_MAX.
Proof.
  unfold long_val, in_long. intros H.
  destruct (LONG_MIN <=? z) eqn:E1; destruct (z <=? LONG_MAX) eqn:E2;
    simpl in H; try discriminate.
  inversion H; subst. lia.
Qed.

Lemma long_val_in z : LONG_MIN <= z <= LONG_MAX -> long_val z = Some z.
Proof.
  unfold long_val, in_long. intros [H1 H2].
  apply Z.leb_le in H1. apply Z.leb_le in H2. rewrite H1, H2. reflexivity.
Qed.

Lemma int_val_in z : INT_MIN <= z <= INT_MAX -> int_val z = Some z.
Proof.
  unfold int_val, in_int. intros [H1 H2].
  apply Z.leb_le in H1. apply Z.leb_le in H2. rewrite H1, H2. reflexivity.
Qed.

Lemma ulong_add_mod a b : ulong_add (to_ulong a) b = to_ulong (a + b).
Proof. unfold ulong_add, to_ulong. apply Zplus_mod_idemp_l. Qed.

Lemma ulong_sub_mod a b : ulong_sub (to_ulong a) b = to_ulong (a - b).
Proof. unfold ulong_sub, to_ulong. apply Zminus_mod_idemp_l. Qed.

(** ** The sliding window *)

Lemma sum_list_app l1 l2 : sum_list (l1 ++ l2) = sum_list l1 + sum_list l2.
Proof.
  unfold sum_list. induction l1 as [|x l1 IH]; simpl; [reflexivity|].
  rewrite IH. lia.
Qed.

Section WindowFacts.

Variable N : Z.
Hypothesis N_pos : 0 < N.
Hypothesis N_int : N <= INT_MAX.

(** With the cursor and the count in range, a push is defined, and this
    is what it does. *)
Lemma update_defined (buffer : list Z) index count v sum :
  Z.of_nat (length buffer) = N -> 0 <= index < N -> 0 <= count <= N ->
  updateCircularBufferWithNewValue buffer index count v sum N =
  Some (<[Z.to_nat index := v]> buffer,
        (index + 1) mod N,
        Z.min (count + 1) N,
        if count <? N then ulong_add sum v
        else ulong_add (ulong_sub sum (default 0 (buffer !! Z.to_nat index))) v).
Proof.
  intros Hlen Hi Hc.
  assert (Hint : INT_MAX = 2147483647) by reflexivity.
  assert (Hmin : INT_MIN = -2147483648) by reflexivity.
  unfold updateCircularBufferWithNewValue, vec_store, vec_load.
  assert (Hst : (0 <=? index) && (index <? Z.of_nat (length buffer)) = true).
  { apply andb_true_iff. split; [apply Z.leb_le | apply Z.ltb_lt]; lia. }
  assert (Hrem : int_rem (index + 1) N = Some ((index + 1) mod N)).
  { unfold int_rem. destruct (N =? 0) eqn:E; [apply Z.eqb_eq in E; lia|].
    rewrite Z.rem_mod_nonneg by lia.
    apply int_val_in.
    pose proof (Z.mod_pos_bound (index + 1) N N_pos). lia. }
  assert (Hadd : int_add index 1 = Some (index + 1)).
  { unfold int_add. apply int_val_in. lia. }
  destruct (count <? N) eqn:Ec.
  - apply Z.ltb_lt in Ec. rewrite Hst.
    unfold int_add at 1. rewrite int_val_in by lia.
    rewrite Hadd, Hrem. rewrite Z.min_l by lia. reflexivity.
  - apply Z.ltb_ge in Ec.
    destruct (index <? 0) eqn:E0; [apply Z.ltb_lt in E0; lia|].
    destruct (buffer !! Z.to_nat index) as [old|] eqn:El.
    + rewrite Hst, Hadd, Hrem. rewrite Z.min_r by lia.
      assert (Hcn : count = N) by lia. rewrite Hcn. reflexivity.
    + apply lookup_ge_None in El. lia.
Qed.

Lemma tracks_fresh : tracks N [] (fresh N).
Proof.
  split; simpl.
  - rewrite length_replicate. lia.
  - rewrite Z.mod_0_l by lia. reflexivity.
  - lia.
  - intros i Hi. lia.
  - reflexivity.
Qed.

Lemma mod_slot_distinct (i k : Z) :
  0 <= i < k -> k < i + N -> Z.to_nat (i mod N) <> Z.to_nat (k mod N).
Proof.
  intros Hik Hk Heq.
  pose proof (Z.mod_pos_bound i N N_pos).
  pose proof (Z.mod_pos_bound k N N_pos).
  assert (E : i mod N = k mod N) by lia.
  pose proof (Z.div_mod i N ltac:(lia)).
  pose proof (Z.div_mod k N ltac:(lia)).
  assert (k - i = N * (k / N - i / N)) by lia.
  assert (0 < k / N - i / N) by nia.
  nia.
Qed.

Lemma push_tracks vs w v :
  tracks N vs w ->
  exists w', push N w v = Some w' /\ tracks N (vs ++ [v]) w'.
Proof.
  intros [Hlen Hidx Hcnt Hslots Hsum].
  pose proof (Z.mod_pos_bound (Z.of_nat (length vs)) N N_pos) as Hm.
  unfold push.
  rewrite (update_defined _ _ _ v (w_sum w) Hlen) by lia.
  eexists. split; [reflexivity|].
  assert (Hlapp : length (vs ++ [v]) = S (length vs)).
  { rewrite length_app. simpl. lia. }
  remember (length vs) as k eqn:Hk.
  split; simpl; rewrite ?Hlapp.
  - rewrite length_insert. exact Hlen.
  - rewrite Hidx.
    replace (Z.of_nat (S k)) with (Z.of_nat k + 1) by lia.
    rewrite Zplus_mod_idemp_l. reflexivity.
  - lia.
  - intros i Hi Hwin.
    destruct (decide (i = k)) as [->|Hne].
    + rewrite Hidx. rewrite list_lookup_insert_eq by lia.
      rewrite lookup_app_r by lia. rewrite <- Hk.
      replace (k - k)%nat with 0%nat by lia. reflexivity.
    + rewrite list_lookup_insert_ne.
      * rewrite lookup_app_l by lia. apply Hslots; lia.
      * rewrite Hidx. intros E. symmetry in E. revert E.
        apply mod_slot_distinct; lia.
  - rewrite Hsum, Hcnt. unfold lastn. rewrite Hlapp, <- Hk.
    destruct (Z.min (Z.of_nat k) N <? N) eqn:Ec.
    + apply Z.ltb_lt in Ec.
      replace (k - Z.to_nat (Z.min (Z.of_nat k) N))%nat with 0%nat by lia.
      replace (S k - Z.to_nat (Z.min (Z.min (Z.of_nat k) N + 1) N))%nat
        with 0%nat by lia.
      rewrite !drop_0. rewrite ulong_add_mod, sum_list_app.
      unfold sum_list at 3. simpl. f_equal. lia.
    + apply Z.ltb_ge in Ec.
      assert (HkN : N <= Z.of_nat k) by lia.
      rewrite Z.min_r by lia.
      replace (Z.min (N + 1) N) with N by lia.
      remember (k - Z.to_nat N)%nat as j eqn:Hj.
      replace (S k - Z.to_nat N)%nat with (S j) by lia.
      assert (Hjk : (j < length vs)%nat) by lia.
      destruct (lookup_lt_is_Some_2 vs j Hjk) as [x Hx].
      assert (Hold : w_buffer w !! Z.to_nat (w_index w) = Some x).
      { rewrite Hidx. rewrite <- Hx.
        replace (Z.of_nat k mod N) with (Z.of_nat j mod N).
        - apply Hslots; lia.
        - replace (Z.of_nat k) with (Z.of_nat j + 1 * N) by lia.
          rewrite Z.mod_add by lia. reflexivity. }
      rewrite Hold. simpl.
      rewrite (drop_S vs x j Hx).
      rewrite drop_app_le by lia.
      rewrite ulong_sub_mod, ulong_add_mod, sum_list_app.
      unfold sum_list at 1 3. simpl. fold (sum_list (drop (S j) vs)).
      f_equal. lia.
Qed.

Lemma pushes_snoc w vs v :
  pushes N w (vs ++ [v]) = (do w' <- pushes N w vs; push N w' v).
Proof.
  revert w. induction vs as [|x vs IH]; intros w; simpl.
  - destruct (push N w v); reflexivity.
  - destruct (push N w x); [apply IH | reflexivity].
Qed.

Lemma pushes_tracks vs :
  exists w, pushes N (fresh N) vs = Some w /\ tracks N vs w.
Proof.
  induction vs as [|v vs IH] using rev_ind.
  - exists (fresh N). split; [reflexivity | apply tracks_fresh].
  - destruct IH as (w & Hw & Ht).
    destruct (push_tracks vs w v Ht) as (w' & Hp & Ht').
    exists w'. split; [|exact Ht'].
    rewrite pushes_snoc, Hw. exact Hp.
Qed.

End WindowFacts.

(** C4, counterexample: with capacity 2, two pushes of 2^63 leave the
    running sum at 0, whereas the two values add up to 2^64. *)
Lemma window_sum_wraps_at_2_64 :
  is_ulong (2 ^ 63) /\ ~ exact_sum_after_pushes 2 [2 ^ 63; 2 ^ 63].
Proof.
  split.
  - unfold is_ulong, ULONG_MOD. lia.
  - intros H.
    destruct (H (mkWindow [2 ^ 63; 2 ^ 63] 0 2 0)) as [Hs _].
    + vm_compute. reflexivity.
    + vm_compute in Hs. discriminate Hs.
Qed.

(** C4 (amended): for a window of capacity [N] and any sequence of pushes
    into a new window, every push is defined; the running sum is the sum of
    the last [min(pushes, N)] values reduced modulo 2^64, and so is that
    sum itself whenever it is below 2^64; the count is [min(pushes, N)] and
    does not exceed [N].  With capacity 3 and pushes 10, 20, 30, 40 the sums
    after the pushes are 10, 30, 60, 90, and the window ends as
    [40; 20; 30], sum 90, count 3. *)
Theorem window_sum_of_last_pushes (N : Z) (vs : list Z) :
  0 < N <= INT_MAX ->
  let recent := lastn (Nat.min (length vs) (Z.to_nat N)) vs in
  (exists w, pushes N (fresh N) vs = Some w
     /\ w_sum w = sum_list recent mod 2 ^ 64
     /\ (0 <= sum_list recent < 2 ^ 64 -> w_sum w = sum_list recent)
     /\ w_count w = Z.of_nat (Nat.min (length vs) (Z.to_nat N))
     /\ w_count w <= N)
  /\ push_sums 3 (fresh 3) [10; 20; 30; 40] = Some [10; 30; 60; 90]
  /\ pushes 3 (fresh 3) [10; 20; 30; 40] = Some (mkWindow [40; 20; 30] 1 3 90).
Proof.
  intros [Hpos Hint] recent.
  split; [|split; reflexivity].
  destruct (pushes_tracks N Hpos Hint vs) as (w & Hw & Ht).
  exists w. split; [exact Hw|].
  destruct Ht as [_ _ Hcnt _ Hsum].
  assert (Hc : Z.to_nat (w_count w) = Nat.min (length vs) (Z.to_nat N)) by lia.
  rewrite Hc in Hsum. fold recent in Hsum.
  unfold to_ulong, ULONG_MOD in Hsum.
  repeat split.
  - exact Hsum.
  - intros Hsmall. rewrite Hsum. apply Z.mod_small. exact Hsmall.
  - lia.
  - lia.
Qed.

Lemma window_sum_of_last_pushes_witness :
  0 < 3 <= INT_MAX
  /\ exists w, pushes 3 (fresh 3) [10; 20; 30; 40] = Some w
               /\ w_sum w = 90 /\ w_count w = 3.
Proof.
  assert (H3 : 0 < 3 <= INT_MAX) by (unfold INT_MAX; lia).
  split; [exact H3|].
  destruct (window_sum_of_last_pushes 3 [10; 20; 30; 40] H3)
    as [(w & Hw & Hs & _ & Hc & _) _].
  exists w. split; [exact Hw|]. split.
  - rewrite Hs. reflexivity.
  - rewrite Hc. reflexivity.
Defined.

(** ** The indicator *)

Lemma wf_initial_indicators : wf_indicators initial_indicators.
Proof. split; vm_compute; repeat split; try discriminate; reflexivity. Qed.

Lemma update_wf N buffer index count v sum :
  0 < N <= INT_MAX -> wf_window N buffer index count ->
  exists b i c s,
    updateCircularBufferWithNewValue buffer index count v sum N = Some (b, i, c, s)
    /\ wf_window N b i c /\ 1 <= c
    /\ b = <[Z.to_nat index := v]> buffer /\ i = (index + 1) mod N.
Proof.
  intros [Hpos Hint] (Hlen & Hi & Hc & Hcur).
  rewrite (update_defined N Hpos Hint buffer index count v sum Hlen Hi Hc).
  do 4 eexists. split; [reflexivity|].
  pose proof (Z.mod_pos_bound (index + 1) N Hpos).
  split; [|split; [lia|split; reflexivity]].
  split; [rewrite length_insert; exact Hlen|].
  split; [lia|]. split; [lia|].
  intros Hlt. rewrite Hcur by lia.
  rewrite Z.mod_small by lia. lia.
Qed.

Lemma ulong_div_count s c : 1 <= c <= INT_MAX -> ulong_div s (to_ulong c) = Some (s / c).
Proof.
  intros H. unfold INT_MAX in H.
  rewrite to_ulong_small by (unfold ULONG_MOD; lia).
  unfold ulong_div. destruct (c =? 0) eqn:E; [apply Z.eqb_eq in E; lia | reflexivity].
Qed.

(** The slot compared with the lagging span is the lagging span's own slot. *)
Lemma laggingComparisonIndex_self (i : Z) (buffer : list Z) :
  vec_size buffer = baseline_size -> 0 <= i < baseline_size ->
  laggingComparisonIndex i buffer = Some i.
Proof.
  unfold laggingComparisonIndex, baseline_size. intros Hsz Hi.
  rewrite int_val_in by (unfold INT_MIN, INT_MAX; lia).
  rewrite Hsz. simpl. f_equal.
  rewrite ulong_add_mod. unfold to_ulong, ULONG_MOD.
  replace (i - 26 + 26) with i by lia.
  rewrite (Z.mod_small i (2 ^ 64)) by lia.
  apply Z.mod_small. lia.
Qed.

Lemma Ichimoku_neutral askP askV bidP bidV g :
  wf_indicators g ->
  exists g', Ichimoku askP askV bidP bidV g = Some (IchimokuSignal.NEUTRAL, g')
             /\ wf_indicators g'.
Proof.
  intros [Hc Hb Hl Hg].
  assert (I9 : 0 < conversion_line_size <= INT_MAX) by (vm_compute; split; [reflexivity|discriminate]).
  assert (I26 : 0 < baseline_size <= INT_MAX) by (vm_compute; split; [reflexivity|discriminate]).
  assert (I52 : 0 < leading_span_b_window <= INT_MAX) by (vm_compute; split; [reflexivity|discriminate]).
  unfold Ichimoku.
  set (cur := ulong_shr1 _).
  destruct (update_wf _ _ _ _ cur (conversionLineSum g) I9 Hc)
    as (b1 & i1 & c1 & s1 & -> & W1 & P1 & _ & _).
  rewrite ulong_div_count by (destruct W1 as (_ & _ & ?); unfold conversion_line_size in *; unfold INT_MAX; lia).
  destruct (update_wf _ _ _ _ (s1 / c1) (baselineSum g) I26 Hb)
    as (b2 & i2 & c2 & s2 & -> & W2 & P2 & _ & _).
  rewrite ulong_div_count by (destruct W2 as (_ & _ & ?); unfold baseline_size in *; unfold INT_MAX; lia).
  destruct (update_wf _ _ _ _ (s1 / c1) (leadingSpanBSum g) I52 Hl)
    as (b3 & i3 & c3 & s3 & -> & W3 & P3 & _ & _).
  destruct (update_wf _ _ _ _ cur s3 I26 Hg)
    as (b4 & i4 & c4 & s4 & -> & W4 & P4 & _ & _).
  pose proof W4 as Hg4.
  destruct W4 as (L4 & R4 & C4 & _).
  assert (Hload : exists x, vec_load b4 i4 = Some x).
  { unfold vec_load. destruct (i4 <? 0) eqn:E; [apply Z.ltb_lt in E; lia|].
    apply lookup_lt_is_Some_2. lia. }
  destruct Hload as [x Hx]. rewrite Hx.
  rewrite (laggingComparisonIndex_self i4 b4 L4 R4).
  rewrite Hx. rewrite Z.ltb_irrefl. rewrite !andb_false_r.
  eexists. split; [reflexivity|].
  destruct Hg4 as (G1 & G2 & G3 & G4).
  split; simpl; unfold wf_window; auto.
Qed.

Lemma Ichimoku_run_neutral books : forall g,
  wf_indicators g ->
  exists g', Ichimoku_run g books
             = Some (replicate (length books) IchimokuSignal.NEUTRAL, g')
             /\ wf_indicators g'.
Proof.
  induction books as [|b books IH]; intros g Hg; simpl.
  - exists g. split; [reflexivity | exact Hg].
  - destruct (Ichimoku_neutral (askPrices b) (askVolumes b) (bidPrices b) (bidVolumes b) g Hg)
      as (g1 & -> & Hg1).
    destruct (IH g1 Hg1) as (g2 & -> & Hg2).
    exists g2. split; [reflexivity | exact Hg2].
Qed.

(** C3: for every sequence of order-book inputs, every call of [Ichimoku],
    starting from the indicator variables as initialised, is defined and
    returns NEUTRAL; the slot the lagging span is compared with is the
    lagging span's own slot. *)
Theorem Ichimoku_always_neutral (books : list Book) :
  exists g,
    Ichimoku_run initial_indicators books
      = Some (replicate (length books) IchimokuSignal.NEUTRAL, g)
    /\ vec_size (laggingSpanBuffer g) = baseline_size
    /\ laggingComparisonIndex (laggingSpanIndex g) (laggingSpanBuffer g)
       = Some (laggingSpanIndex g).
Proof.
  destruct (Ichimoku_run_neutral books initial_indicators wf_initial_indicators)
    as (g & Hrun & Hwf).
  exists g. split; [exact Hrun|].
  destruct (wf_lagging g Hwf) as (Hlen & Hidx & _ & _).
  split; [exact Hlen|].
  apply laggingComparisonIndex_self; assumption.
Qed.

(** ** Quoting on an order-book update *)

Lemma requoteAsk_not_due q s : askDue q s = false -> requoteAsk q s = s.
Proof. unfold askDue, requoteAsk. intros ->. reflexivity. Qed.

Lemma requoteBid_not_due q s : bidDue q s = false -> requoteBid q s = s.
Proof. unfold bidDue, requoteBid. intros ->. reflexivity. Qed.

Lemma due_after_assign (p : Z) : negb (p =? 0) && negb (p =? p) = false.
Proof. rewrite Z.eqb_refl. apply andb_false_r. Qed.

(** Once the ask block has run, its condition no longer holds. *)
Lemma requoteAsk_settles q s : askDue q (requoteAsk q s) = false.
Proof.
  unfold requoteAsk. destruct (negb (newAskPrice q =? 0) && negb (newAskPrice q =? mAskPrice s)) eqn:E.
  - unfold askDue. simpl. apply due_after_assign.
  - exact E.
Qed.

Lemma requoteBid_settles q s : bidDue q (requoteBid q s) = false.
Proof.
  unfold requoteBid. destruct (negb (newBidPrice q =? 0) && negb (newBidPrice q =? mBidPrice s)) eqn:E.
  - unfold bidDue. simpl. apply due_after_assign.
  - exact E.
Qed.

Lemma requoteBid_mAskPrice q s : mAskPrice (requoteBid q s) = mAskPrice s.
Proof. unfold requoteBid, next_message_id. destruct s; simpl. crush_block. Qed.

Lemma requoteBid_keeps_ask_settled q s :
  askDue q s = false -> askDue q (requoteBid q s) = false.
Proof. unfold askDue. rewrite requoteBid_mAskPrice. auto. Qed.

Lemma foldl_fixed {A B} (f : A -> B -> A) (a : A) (l : list B) :
  (forall b, f a b = a) -> foldl f a l = a.
Proof. intros H. induction l as [|b l IH]; simpl; [reflexivity|]. rewrite H. exact IH. Qed.

Lemma actOnSignal_settled signal q s :
  askDue q s = false -> bidDue q s = false -> actOnSignal signal q s = s.
Proof.
  intros Ha Hb. unfold actOnSignal.
  rewrite (requoteAsk_not_due q s Ha), (requoteBid_not_due q s Hb).
  destruct (_ && _); [reflexivity|]. destruct (is_SELL signal); reflexivity.
Qed.

Lemma unloadInventory_settled q s :
  askDue q s = false -> bidDue q s = false -> unloadInventory q s = s.
Proof.
  intros Ha Hb. unfold unloadInventory.
  destruct (_ || _); [|reflexivity].
  rewrite (foldl_fixed (unloadLong q) s).
  - apply foldl_fixed. intros e. unfold unloadShort.
    rewrite (requoteBid_not_due q s Hb). destruct (_ <? _); reflexivity.
  - intros e. unfold unloadLong. fold (askDue q s). rewrite Ha. reflexivity.
Qed.

(** The whole of an order-book update for the quoted instrument: the two
    quote blocks and the indicator update.  The signal branches and the
    profit-taking loops find both conditions already consumed. *)
Lemma OrderBookMessageHandler_FUTURE n askP askV bidP bidV s q signal g :
  computeQuote askP askV bidP bidV (mPosition s) = Some q ->
  Ichimoku askP askV bidP bidV (indicators (requoteBid q (requoteAsk q s))) = Some (signal, g) ->
  OrderBookMessageHandler FUTURE n askP askV bidP bidV s
  = Some (set_indicators g (requoteBid q (requoteAsk q s))).
Proof.
  intros Hq Hi. unfold OrderBookMessageHandler. rewrite Hq, Hi.
  set (s2 := requoteBid q (requoteAsk q s)).
  assert (Ha : askDue q (set_indicators g s2) = false).
  { change (askDue q s2 = false). subst s2.
    apply requoteBid_keeps_ask_settled, requoteAsk_settles. }
  assert (Hb : bidDue q (set_indicators g s2) = false).
  { change (bidDue q s2 = false). subst s2. apply requoteBid_settles. }
  rewrite (actOnSignal_settled signal q _ Ha Hb).
  rewrite (unloadInventory_settled q _ Ha Hb). reflexivity.
Qed.

Lemma same_books_trans s1 s2 s3 : same_books s1 s2 -> same_books s2 s3 -> same_books s1 s3.
Proof. intros [] []. split; congruence. Qed.

Lemma requoteAsk_same_books q s : same_books s (requoteAsk q s).
Proof.
  unfold requoteAsk, next_message_id. destruct s; simpl.
  repeat match goal with
         | |- context [if ?b then _ else _] => destruct b
         end; split; reflexivity.
Qed.

Lemma requoteBid_same_books q s : same_books s (requoteBid q s).
Proof.
  unfold requoteBid, next_message_id. destruct s; simpl.
  repeat match goal with
         | |- context [if ?b then _ else _] => destruct b
         end; split; reflexivity.
Qed.

Lemma OrderBookMessageHandler_dispatch n askP askV bidP bidV s :
  OrderBookMessageHandler FUTURE n askP askV bidP bidV s
  = (do '(signal, q, s3) <- atSignalDispatch askP askV bidP bidV s;
     Some (unloadInventory q (actOnSignal signal q s3))).
Proof.
  unfold OrderBookMessageHandler, atSignalDispatch.
  destruct (computeQuote _ _ _ _ _) as [q|]; [|reflexivity].
  destruct (Ichimoku _ _ _ _ _) as [[signal g]|]; reflexivity.
Qed.

Lemma atSignalDispatch_settled askP askV bidP bidV s signal q s3 :
  atSignalDispatch askP askV bidP bidV s = Some (signal, q, s3) ->
  askDue q s3 = false /\ bidDue q s3 = false.
Proof.
  unfold atSignalDispatch.
  destruct (computeQuote _ _ _ _ _) as [q0|]; [|discriminate].
  destruct (Ichimoku _ _ _ _ _) as [[signal0 g]|]; [|discriminate].
  intros H. inversion H; subst. split.
  - change (askDue q (requoteBid q (requoteAsk q s)) = false).
    apply requoteBid_keeps_ask_settled, requoteAsk_settles.
  - change (bidDue q (requoteBid q (requoteAsk q s)) = false).
    apply requoteBid_settles.
Qed.

(** An order-book update either concerns the other instrument and changes
    nothing, or runs the two quote blocks and the indicator update. *)
Lemma OrderBookMessageHandler_cases i n askP askV bidP bidV s s' :
  OrderBookMessageHandler i n askP askV bidP bidV s = Some s' ->
  exists q, computeQuote askP askV bidP bidV (mPosition s) = Some q /\
    ((i = ETF /\ s' = s) \/
     (i = FUTURE /\ exists signal g,
        Ichimoku askP askV bidP bidV (indicators s) = Some (signal, g)
        /\ s' = set_indicators g (requoteBid q (requoteAsk q s)))).
Proof.
  destruct i.
  - rewrite OrderBookMessageHandler_dispatch.
    destruct (atSignalDispatch askP askV bidP bidV s) as [[[signal q] s3]|] eqn:E;
      [|discriminate].
    destruct (atSignalDispatch_settled _ _ _ _ _ _ _ _ E) as [Ha Hb].
    rewrite (actOnSignal_settled _ _ _ Ha Hb), (unloadInventory_settled _ _ Ha Hb).
    intros H. inversion H; subst s'. clear H.
    unfold atSignalDispatch in E.
    destruct (computeQuote _ _ _ _ _) as [q0|]; [|discriminate].
    exists q0. split; [reflexivity|]. right. split; [reflexivity|].
    rewrite (sb_indicators _ _ (same_books_trans _ _ _ (requoteAsk_same_books q0 s)
                                   (requoteBid_same_books q0 _))) in E.
    destruct (Ichimoku _ _ _ _ _) as [[signal0 g]|]; [|discriminate].
    inversion E; subst. exists signal, g. split; reflexivity.
  - unfold OrderBookMessageHandler.
    destruct (computeQuote _ _ _ _ _) as [q0|]; [|discriminate].
    intros H. inversion H; subst. exists q0. split; [reflexivity|]. left. split; reflexivity.
Qed.

(** ** Session invariants *)

Lemma OrderStatusMessageHandler_same_books_position id f r fees s :
  mPosition (OrderStatusMessageHandler id f r fees s) = mPosition s
  /\ mHedges (OrderStatusMessageHandler id f r fees s) = mHedges s
  /\ indicators (OrderStatusMessageHandler id f r fees s) = indicators s.
Proof.
  unfold OrderStatusMessageHandler. destruct s; simpl.
  repeat match goal with
         | |- context [if ?b then _ else _] => destruct b; simpl
         end; repeat split; reflexivity.
Qed.

Lemma ErrorMessageHandler_position id msg s :
  mPosition (ErrorMessageHandler id msg s) = mPosition s
  /\ mHedges (ErrorMessageHandler id msg s) = mHedges s
  /\ indicators (ErrorMessageHandler id msg s) = indicators s.
Proof.
  unfold ErrorMessageHandler. destruct (_ && _).
  - apply OrderStatusMessageHandler_same_books_position.
  - repeat split; reflexivity.
Qed.

Lemma long_abs_Some a r :
  long_abs a = Some r ->
  (a = LONG_MIN /\ r = LONG_MIN) \/ (a <> LONG_MIN /\ r = Z.abs a).
Proof.
  unfold long_abs. destruct (a =? LONG_MIN) eqn:E.
  - apply Z.eqb_eq in E. intros H. inversion H. left. split; [exact E|reflexivity].
  - apply Z.eqb_neq in E. intros H. apply long_val_Some in H. right. tauto.
Qed.

Lemma long_abs_in a : LONG_MIN < a <= LONG_MAX -> long_abs a = Some (Z.abs a).
Proof.
  intros H. unfold long_abs.
  destruct (a =? LONG_MIN) eqn:E; [apply Z.eqb_eq in E; lia|].
  apply long_val_in. unfold LONG_MIN, LONG_MAX in *. lia.
Qed.

Lemma long_abs_passes a r :
  long_abs a = Some r -> (r <=? POSITION_LIMIT) = true -> passes_limit_check a.
Proof.
  intros H Hr. apply Z.leb_le in Hr.
  destruct (long_abs_Some _ _ H) as [[Ha _]|[_ ->]]; [left|right]; assumption.
Qed.

Lemma within_limit_true e np :
  within_limit e np = Some true ->
  passes_limit_check e /\ passes_limit_check np.
Proof.
  unfold within_limit.
  destruct (long_abs e) as [a|] eqn:Ea; [|discriminate].
  destruct (a <=? POSITION_LIMIT) eqn:E1; [|discriminate].
  destruct (long_abs np) as [b|] eqn:Eb; [|discriminate].
  intros H. inversion H as [E2].
  split; [exact (long_abs_passes _ _ Ea E1)|exact (long_abs_passes _ _ Eb E2)].
Qed.

Lemma askFillAccepted_true np h :
  askFillAccepted np h = Some true ->
  passes_limit_check (np + h) /\ passes_limit_check np.
Proof.
  unfold askFillAccepted, long_add.
  destruct (long_val (np + h)) as [e|] eqn:E; [|discriminate].
  apply long_val_Some in E. destruct E as [-> _]. apply within_limit_true.
Qed.

Lemma bidFillAccepted_true np h :
  bidFillAccepted np h = Some true ->
  passes_limit_check (np - h) /\ passes_limit_check np.
Proof.
  unfold bidFillAccepted, long_sub.
  destruct (long_val (np - h)) as [e|] eqn:E; [|discriminate].
  apply long_val_Some in E. destruct E as [-> _]. apply within_limit_true.
Qed.

(** What a fill does to the position: it either leaves it alone, or moves
    it to a value that passed both checks. *)
Lemma OrderFilledMessageHandler_position id p v s s' :
  OrderFilledMessageHandler id p v s = Some s' ->
  mHedges s' = mHedges s /\ indicators s' = indicators s /\
  (mPosition s' = mPosition s
   \/ (set_has id (mAsks s) = true
       /\ mPosition s' = mPosition s - to_long v
       /\ passes_limit_check (mPosition s' + mHedges s)
       /\ passes_limit_check (mPosition s'))
   \/ (set_has id (mAsks s) = false /\ set_has id (mBids s) = true
       /\ mPosition s' = mPosition s + to_long v
       /\ passes_limit_check (mPosition s' - mHedges s)
       /\ passes_limit_check (mPosition s'))).
Proof.
  unfold OrderFilledMessageHandler.
  destruct (set_has id (mAsks s)) eqn:Ea; [|destruct (set_has id (mBids s)) eqn:Eb].
  - destruct (long_sub (mPosition s) (to_long v)) as [np|] eqn:Enp; [|discriminate].
    apply long_val_Some in Enp. destruct Enp as [-> _].
    destruct (askFillAccepted _ _) as [ok|] eqn:Eok; [|discriminate].
    destruct ok; intros H; inversion H; subst s'; clear H; destruct s; simpl in *.
    + apply askFillAccepted_true in Eok. repeat split; try reflexivity.
      right. left. repeat split; tauto.
    + repeat split; try reflexivity. left. reflexivity.
  - destruct (long_add (mPosition s) (to_long v)) as [np|] eqn:Enp; [|discriminate].
    apply long_val_Some in Enp. destruct Enp as [-> _].
    destruct (bidFillAccepted _ _) as [ok|] eqn:Eok; [|discriminate].
    destruct ok; intros H; inversion H; subst s'; clear H; destruct s; simpl in *.
    + apply bidFillAccepted_true in Eok. repeat split; try reflexivity.
      right. right. repeat split; tauto.
    + repeat split; try reflexivity. left. reflexivity.
  - intros H; inversion H; subst s'; clear H; destruct s; simpl.
    repeat split; try reflexivity. left. reflexivity.
Qed.

Lemma within_limit_defined e np :
  LONG_MIN < e <= LONG_MAX -> LONG_MIN < np <= LONG_MAX ->
  exists ok, within_limit e np = Some ok.
Proof.
  intros He Hnp. unfold within_limit.
  rewrite (long_abs_in _ He).
  destruct (_ <=? _); [|eexists; reflexivity].
  rewrite (long_abs_in _ Hnp).
  eexists; reflexivity.
Qed.

(** A fill is defined whenever the position is within the limit, no hedge
    is recorded and the volume is below 2^63 - 100. *)
Lemma OrderFilledMessageHandler_defined id p v s :
  Z.abs (mPosition s) <= POSITION_LIMIT -> mHedges s = 0 ->
  0 <= v < 2 ^ 63 - 100 ->
  exists s', OrderFilledMessageHandler id p v s = Some s'.
Proof.
  intros Hpos Hh Hv. unfold POSITION_LIMIT in Hpos.
  assert (Hl : to_long v = v) by (apply to_long_small; unfold LONG_MAX; lia).
  unfold OrderFilledMessageHandler. rewrite Hl, Hh.
  destruct (set_has id (mAsks s)); [|destruct (set_has id (mBids s))].
  - unfold long_sub, askFillAccepted, long_add.
    rewrite long_val_in by (unfold LONG_MIN, LONG_MAX; lia).
    rewrite long_val_in by (unfold LONG_MIN, LONG_MAX; lia).
    destruct (within_limit_defined (mPosition s - v + 0) (mPosition s - v)) as [ok ->];
      try (unfold LONG_MIN, LONG_MAX; lia).
    eexists; reflexivity.
  - unfold long_add, bidFillAccepted, long_sub.
    rewrite long_val_in by (unfold LONG_MIN, LONG_MAX; lia).
    rewrite long_val_in by (unfold LONG_MIN, LONG_MAX; lia).
    destruct (within_limit_defined (mPosition s + v - 0) (mPosition s + v)) as [ok ->];
      try (unfold LONG_MIN, LONG_MAX; lia).
    eexists; reflexivity.
  - eexists; reflexivity.
Qed.

(** What one notification does to the position: nothing, unless it is a
    fill that passed the limit check. *)
Lemma step_position s e s' :
  step s e = Some s' ->
  mPosition s' = mPosition s
  \/ exists id p v, e = EvOrderFilled id p v
       /\ (mPosition s' = mPosition s - to_long v \/ mPosition s' = mPosition s + to_long v)
       /\ passes_limit_check (mPosition s').
Proof.
  destruct e as [i n b|i n b|id p v|id f r fees|id p v|id msg|]; simpl; intros H.
  - apply OrderBookMessageHandler_cases in H.
    destruct H as (q & _ & [[_ ->]|(_ & signal & g & Hi & ->)]).
    + left. reflexivity.
    + pose proof (same_books_trans _ _ _ (requoteAsk_same_books q s)
                    (requoteBid_same_books q _)) as [Hp _ _ _ _ _].
      left. simpl. exact Hp.
  - inversion H; subst. left. reflexivity.
  - apply OrderFilledMessageHandler_position in H.
    destruct H as (_ & _ & [E|[(_ & E & _ & Hc)|(_ & _ & E & _ & Hc)]]).
    + left. exact E.
    + right. exists id, p, v. split; [reflexivity|]. split; [left; exact E|exact Hc].
    + right. exists id, p, v. split; [reflexivity|]. split; [right; exact E|exact Hc].
  - inversion H; subst.
    destruct (OrderStatusMessageHandler_same_books_position id f r fees s) as (-> & _).
    left. reflexivity.
  - inversion H; subst. left. reflexivity.
  - inversion H; subst.
    destruct (ErrorMessageHandler_position id msg s) as (-> & _).
    left. reflexivity.
  - inversion H; subst. left. reflexivity.
Qed.

(** Each handler leaves the hedge counter alone, keeps the position among
    the values that pass the limit check and keeps the indicator variables
    well formed. *)
Lemma step_invariants s e s' :
  step s e = Some s' ->
  mHedges s' = mHedges s
  /\ (passes_limit_check (mPosition s) -> passes_limit_check (mPosition s'))
  /\ (wf_indicators (indicators s) -> wf_indicators (indicators s')).
Proof.
  intros H. pose proof (step_position _ _ _ H) as Hpos.
  assert (Hp : passes_limit_check (mPosition s) -> passes_limit_check (mPosition s')).
  { intros Hs. destruct Hpos as [->|(_ & _ & _ & _ & _ & Hc)]; assumption. }
  clear Hpos.
  destruct e as [i n b|i n b|id p v|id f r fees|id p v|id msg|]; simpl in H.
  - apply OrderBookMessageHandler_cases in H.
    destruct H as (q & _ & [[_ ->]|(_ & signal & g & Hi & ->)]).
    + split3; auto.
    + pose proof (same_books_trans _ _ _ (requoteAsk_same_books q s)
                    (requoteBid_same_books q _)) as [_ Hh _ _ _ _].
      split3; [simpl; exact Hh | exact Hp |].
      intros Hwf.
      destruct (Ichimoku_neutral (askPrices b) (askVolumes b) (bidPrices b) (bidVolumes b)
                  (indicators s) Hwf) as (g' & Hg' & Hwf').
      rewrite Hg' in Hi. inversion Hi; subst. exact Hwf'.
  - inversion H; subst. split3; auto.
  - apply OrderFilledMessageHandler_position in H.
    destruct H as (Hh & Hi & _). rewrite Hi. split3; auto.
  - inversion H; subst.
    destruct (OrderStatusMessageHandler_same_books_position id f r fees s) as (_ & -> & ->).
    split3; auto.
  - inversion H; subst. split3; auto.
  - inversion H; subst.
    destruct (ErrorMessageHandler_position id msg s) as (_ & -> & ->).
    split3; auto.
  - inversion H; subst. split3; auto.
Qed.

Lemma run_invariants events : forall s s',
  run s events = Some s' ->
  mHedges s' = mHedges s
  /\ (passes_limit_check (mPosition s) -> passes_limit_check (mPosition s'))
  /\ (wf_indicators (indicators s) -> wf_indicators (indicators s')).
Proof.
  induction events as [|e events IH]; intros s s' H; simpl in H.
  - inversion H; subst. split3; auto.
  - destruct (step s e) as [s1|] eqn:E; [|discriminate].
    destruct (step_invariants _ _ _ E) as (Hh & Hp & Hw).
    destruct (IH _ _ H) as (Hh' & Hp' & Hw').
    split3; [congruence | auto | auto].
Qed.

Lemma reachable_invariants s :
  reachable s ->
  mHedges s = 0 /\ passes_limit_check (mPosition s) /\ wf_indicators (indicators s).
Proof.
  intros [events H]. destruct (run_invariants _ _ _ H) as (Hh & Hp & Hw).
  split3.
  - rewrite Hh. reflexivity.
  - apply Hp. right. vm_compute. discriminate.
  - apply Hw. apply wf_initial_indicators.
Qed.

(** A notification other than a fill of 2^63 - 100 lots or more keeps a
    position that is within the limit within the limit. *)
Lemma step_within_limit s e s' :
  step s e = Some s' -> fill_below_bound e ->
  Z.abs (mPosition s) <= POSITION_LIMIT -> Z.abs (mPosition s') <= POSITION_LIMIT.
Proof.
  intros H Hb Hs.
  destruct (step_position _ _ _ H) as [->|(id & p & v & -> & Hmove & Hc)]; [exact Hs|].
  simpl in Hb.
  assert (Hl : to_long v = v) by (apply to_long_small; unfold LONG_MAX; lia).
  rewrite Hl in Hmove.
  destruct Hc as [Hmin|Hc]; [|exact Hc].
  unfold POSITION_LIMIT in Hs. unfold LONG_MIN in Hmin. lia.
Qed.

Lemma run_within_limit events : forall s s',
  run s events = Some s' -> Forall fill_below_bound events ->
  Z.abs (mPosition s) <= POSITION_LIMIT -> Z.abs (mPosition s') <= POSITION_LIMIT.
Proof.
  induction events as [|e events IH]; intros s s' H Hall Hs; simpl in H.
  - inversion H; subst. exact Hs.
  - destruct (step s e) as [s1|] eqn:E; [|discriminate].
    inversion Hall as [|e0 l He Hrest]; subst.
    apply (IH _ _ H Hrest). exact (step_within_limit _ _ _ E He Hs).
Qed.

Lemma run_fills_defined fills : forall s,
  Z.abs (mPosition s) <= POSITION_LIMIT -> mHedges s = 0 ->
  Forall (fun f : Fill => 0 <= snd f < 2 ^ 63 - 100) fills ->
  exists s', run_fills s fills = Some s' /\ Z.abs (mPosition s') <= POSITION_LIMIT.
Proof.
  unfold run_fills.
  induction fills as [|[[id p] v] fills IH]; intros s Hp Hh Hall; simpl.
  - eexists; split; [reflexivity|exact Hp].
  - inversion Hall as [|f l Hv Hrest]; subst. simpl in Hv.
    destruct (OrderFilledMessageHandler_defined id p v s Hp Hh Hv) as [s1 E].
    rewrite E.
    assert (Hstep : step s (EvOrderFilled id p v) = Some s1) by exact E.
    destruct (step_invariants _ _ _ Hstep) as (Hh1 & _ & _).
    apply IH; [|congruence|assumption].
    exact (step_within_limit _ _ _ Hstep Hv Hp).
Qed.

(** *** Sample sessions *)

Lemma quoted_state_run :
  run initial_state [EvOrderBook FUTURE 1 book1] = Some quoted_state.
Proof. vm_compute. reflexivity. Qed.

Lemma quoted_state_reachable : reachable quoted_state.
Proof. exists [EvOrderBook FUTURE 1 book1]. exact quoted_state_run. Qed.

Lemma overdrawn_state_run : run initial_state overdrawing_session = Some overdrawn_state.
Proof. vm_compute. reflexivity. Qed.

Lemma overdrawn_state_reachable : reachable overdrawn_state.
Proof. exists overdrawing_session. exact overdrawn_state_run. Qed.

(** What holds of the position: in every reachable state it is within the
    limit or it is the least [long]; a session whose fills are all below
    2^63 - 100 lots keeps it within the limit, fills alone of that size are
    all processed, and a fill moves the position only to a value that
    passed both checks. *)
Lemma position_within_limit_or_least_long :
  (forall s, reachable s -> passes_limit_check (mPosition s))
  /\ (forall events s, run initial_state events = Some s ->
        Forall fill_below_bound events -> Z.abs (mPosition s) <= POSITION_LIMIT)
  /\ (forall s fills,
        Z.abs (mPosition s) <= POSITION_LIMIT -> mHedges s = 0 ->
        Forall (fun f : Fill => 0 <= snd f < 2 ^ 63 - 100) fills ->
        exists s', run_fills s fills = Some s' /\ Z.abs (mPosition s') <= POSITION_LIMIT)
  /\ (forall id p v s0 s1,
        OrderFilledMessageHandler id p v s0 = Some s1 ->
        mPosition s1 <> mPosition s0 ->
        passes_limit_check (mPosition s1)
        /\ ((set_has id (mAsks s0) = true
             /\ mPosition s1 = mPosition s0 - to_long v
             /\ passes_limit_check (mPosition s1 + mHedges s0))
            \/ (set_has id (mBids s0) = true
                /\ mPosition s1 = mPosition s0 + to_long v
                /\ passes_limit_check (mPosition s1 - mHedges s0)))).
Proof.
  split; [|split; [|split]].
  - intros s Hr. apply (reachable_invariants s Hr).
  - intros events s H Hall. apply (run_within_limit _ _ _ H Hall).
    vm_compute. discriminate.
  - intros s fills Hp Hh Hall. apply run_fills_defined; assumption.
  - intros id p v s0 s1 H Hne.
    apply OrderFilledMessageHandler_position in H.
    destruct H as (_ & _ & [E|[(Ha & Hv & He & Hn)|(_ & Hb & Hv & He & Hn)]]).
    + contradiction.
    + split; [exact Hn|]. left. auto.
    + split; [exact Hn|]. right. auto.
Qed.

(** C1 (the code leaves the limit): after the first order book, a fill of
    the resting ask for 10 lots and a second fill of the same ask for
    2^63 - 10 lots, the position is -2^63.  The second fill computes
    [newPosition = -10 - (2^63 - 10)], the least [long]; [std::abs] gives
    the least [long] back, both comparisons with [POSITION_LIMIT] hold, and
    the position is assigned. *)
Theorem position_leaves_limit :
  run initial_state overdrawing_session = Some overdrawn_state
  /\ run initial_state (take 2 overdrawing_session) = Some filled_state
  /\ mPosition filled_state = -10
  /\ long_sub (mPosition filled_state) (to_long (2 ^ 63 - 10)) = Some LONG_MIN
  /\ askFillAccepted LONG_MIN (mHedges filled_state) = Some true
  /\ mPosition overdrawn_state = - 2 ^ 63
  /\ ~ Z.abs (mPosition overdrawn_state) <= POSITION_LIMIT.
Proof.
  split; [exact overdrawn_state_run|].
  split; [vm_compute; reflexivity|].
  split; [reflexivity|].
  split; [vm_compute; reflexivity|].
  split; [vm_compute; reflexivity|].
  split; [reflexivity|].
  vm_compute. intros H. apply H. reflexivity.
Qed.

Lemma priceAdjustment_small pos :
  Z.abs pos < LOT_SIZE -> priceAdjustment pos = Some 0.
Proof.
  unfold LOT_SIZE. intros H.
  assert (Hq : Z.quot pos 200 = 0) by (apply Z.quot_small_iff; lia).
  unfold priceAdjustment, long_div, long_neg, long_mul, LOT_SIZE. simpl.
  rewrite Hq. reflexivity.
Qed.

(** What holds of the price adjustment: whenever the position is below
    [LOT_SIZE] in absolute value, [mPosition / LOT_SIZE] is 0 (the division
    truncates towards zero, also for a negative position), the adjustment
    is 0, and the target prices of an order-book update are those computed
    with no adjustment at all; a session whose fills are all below
    2^63 - 100 lots ends in such a position. *)
Lemma price_adjustment_zero_below_lot_size (pos : Z) :
  Z.abs pos < LOT_SIZE ->
  Z.quot pos LOT_SIZE = 0 /\ priceAdjustment pos = Some 0
  /\ (forall askP askV bidP bidV q,
        computeQuote askP askV bidP bidV pos = Some q ->
        targetAskPrice askP 0 (WeightedAverageSpread askP askV bidP bidV)
          = Some (newAskPrice q)
        /\ targetBidPrice bidP 0 (WeightedAverageSpread askP askV bidP bidV)
          = Some (newBidPrice q))
  /\ (forall events s, run initial_state events = Some s ->
        Forall fill_below_bound events -> Z.abs (mPosition s) < LOT_SIZE).
Proof.
  intros Hlt. split; [|split; [|split]].
  - unfold LOT_SIZE in *. apply Z.quot_small_iff; lia.
  - apply priceAdjustment_small. exact Hlt.
  - intros askP askV bidP bidV q. unfold computeQuote.
    rewrite (priceAdjustment_small _ Hlt).
    destruct (targetAskPrice _ _ _) as [a|]; [|discriminate].
    destruct (targetBidPrice _ _ _) as [b|]; [|discriminate].
    destruct (long_add _ _); [|discriminate].
    destruct (long_sub _ _); [|discriminate].
    intros H. inversion H; subst. split; reflexivity.
  - intros events s H Hall.
    assert (Hp : Z.abs (mPosition s) <= POSITION_LIMIT).
    { apply (run_within_limit _ _ _ H Hall). vm_compute. discriminate. }
    unfold POSITION_LIMIT in Hp. unfold LOT_SIZE. lia.
Qed.

(** A negative position below the lot size: the division gives 0 where
    rounding down would give -1. *)
Example price_adjustment_at_negative_position :
  mPosition filled_state = -10
  /\ Z.quot (-10) LOT_SIZE = 0 /\ (-10) / LOT_SIZE = -1
  /\ priceAdjustment (mPosition filled_state) = Some 0
  /\ computeQuote [1300] [10] [1100] [10] (mPosition filled_state)
     = Some (mkQuote 1200 1400 1000 90 110).
Proof. repeat split; vm_compute; reflexivity. Qed.

(** C9 (the code skews the prices): the state reached by the session of
    C1 has position -2^63, which is not below [LOT_SIZE] in absolute
    value; there [-(mPosition / LOT_SIZE) * TICK_SIZE_IN_CENTS] is
    4611686018427387900, and for the order book 1300 / 1100 the target
    prices computed with it are both 4611686018427388900, not 1400 and
    1000, the prices computed with no adjustment. *)
Theorem price_adjustment_after_overdraw :
  reachable overdrawn_state
  /\ mPosition overdrawn_state = - 2 ^ 63
  /\ ~ Z.abs (mPosition overdrawn_state) < LOT_SIZE
  /\ priceAdjustment (mPosition overdrawn_state) = Some 4611686018427387900
  /\ targetAskPrice [1300] 4611686018427387900
       (WeightedAverageSpread [1300] [10] [1100] [10]) = Some 4611686018427388900
  /\ targetAskPrice [1300] 0
       (WeightedAverageSpread [1300] [10] [1100] [10]) = Some 1400
  /\ targetBidPrice [1100] 4611686018427387900
       (WeightedAverageSpread [1300] [10] [1100] [10]) = Some 4611686018427388900
  /\ targetBidPrice [1100] 0
       (WeightedAverageSpread [1300] [10] [1100] [10]) = Some 1000.
Proof.
  split; [exact overdrawn_state_reachable|].
  split; [reflexivity|].
  split; [vm_compute; intros H; discriminate H|].
  repeat split; vm_compute; reflexivity.
Qed.

Lemma hedged_check_is_plain np :
  askFillAccepted np 0 = plainCheck np /\ bidFillAccepted np 0 = plainCheck np.
Proof.
  unfold askFillAccepted, bidFillAccepted, long_add, long_sub.
  rewrite Z.add_0_r, Z.sub_0_r.
  assert (H : (do e <- long_val np; within_limit e np) = plainCheck np).
  { unfold within_limit, plainCheck.
    destruct (long_val np) as [e|] eqn:E.
    - apply long_val_Some in E. destruct E as [-> _].
      destruct (long_abs np) as [a|]; [|reflexivity].
      destruct (a <=? POSITION_LIMIT); reflexivity.
    - unfold long_abs.
      destruct (np =? LONG_MIN) eqn:E1.
      + apply Z.eqb_eq in E1. subst np. vm_compute in E. discriminate E.
      + unfold long_val, in_long in *.
        destruct (LONG_MIN <=? np) eqn:E2; destruct (np <=? LONG_MAX) eqn:E3;
          simpl in E; try discriminate E.
        * apply Z.leb_gt in E3.
          assert (E4 : (Z.abs np <=? LONG_MAX) = false) by (apply Z.leb_gt; lia).
          rewrite E4, andb_false_r. reflexivity.
        * apply Z.leb_gt in E2.
          assert (E4 : (Z.abs np <=? LONG_MAX) = false)
            by (apply Z.leb_gt; unfold LONG_MIN, LONG_MAX in *; lia).
          rewrite E4, andb_false_r. reflexivity.
        * apply Z.leb_gt in E2. apply Z.leb_gt in E3.
          unfold LONG_MIN, LONG_MAX in *. lia. }
  split; exact H.
Qed.

(** C10: [mHedges] starts at 0 and no handler changes it, so it is 0 in
    every reachable state, and there the hedge-adjusted check of a fill
    gives the same answer as the check on the position alone. *)
Theorem hedges_always_zero (s : State) :
  reachable s ->
  mHedges initial_state = 0
  /\ (forall s0 e s1, step s0 e = Some s1 -> mHedges s1 = mHedges s0)
  /\ mHedges s = 0
  /\ (forall newPosition,
        askFillAccepted newPosition (mHedges s) = plainCheck newPosition
        /\ bidFillAccepted newPosition (mHedges s) = plainCheck newPosition).
Proof.
  intros Hr. destruct (reachable_invariants s Hr) as (Hh & _ & _).
  split; [reflexivity|]. split; [|split].
  - intros s0 e s1 H. apply (step_invariants _ _ _ H).
  - exact Hh.
  - intros np. rewrite Hh. apply hedged_check_is_plain.
Qed.

Lemma hedges_always_zero_witness :
  reachable quoted_state /\ mHedges quoted_state = 0.
Proof.
  split; [exact quoted_state_reachable|].
  exact (proj1 (proj2 (proj2 (hedges_always_zero quoted_state quoted_state_reachable)))).
Defined.

(** ** Cancel and replace *)

Lemma sent_since_app (s s' : State) ms :
  outbox s' = outbox s ++ ms -> sent_since s s' = ms.
Proof. unfold sent_since. intros ->. apply drop_app_length. Qed.

(** The ask block with an order resting: one cancel, the pending flag, the
    new price; the insert is skipped because the flag is now set. *)
Lemma requoteAsk_resting q s :
  askDue q s = true -> mAskId s <> 0 ->
  requoteAsk q s
  = set_mAskPrice (newAskPrice q)
      (set_PendingCancelAsk true (SendCancelOrder (mAskId s) s)).
Proof.
  unfold askDue, requoteAsk. intros -> Hid.
  apply Z.eqb_neq in Hid. rewrite Hid. reflexivity.
Qed.

Lemma requoteBid_resting q s :
  bidDue q s = true -> mBidId s <> 0 ->
  requoteBid q s
  = set_mBidPrice (newBidPrice q)
      (set_PendingCancelBid true (SendCancelOrder (mBidId s) s)).
Proof.
  unfold bidDue, requoteBid. intros -> Hid.
  apply Z.eqb_neq in Hid. rewrite Hid. reflexivity.
Qed.

(** What either block may send, and that it leaves the other side alone. *)
Lemma requoteAsk_sends q s :
  exists ms, outbox (requoteAsk q s) = outbox s ++ ms
    /\ (forall m, In m ms ->
          m = CancelOrder (mAskId s)
          \/ exists id, m = InsertOrder id Side.SELL (newAskPrice q) (askQuantity q) GOOD_FOR_DAY)
    /\ mBidId (requoteAsk q s) = mBidId s
    /\ PendingCancelBid (requoteAsk q s) = PendingCancelBid s
    /\ mBidPrice (requoteAsk q s) = mBidPrice s.
Proof.
  unfold requoteAsk, next_message_id, SendCancelOrder, SendInsertOrder, send.
  destruct s; simpl.
  repeat match goal with
         | |- context [if ?b then _ else _] => destruct b; simpl
         end;
    (eexists; split;
       [ rewrite <- ?app_assoc; try reflexivity; symmetry; apply app_nil_r
       | split; [|repeat split; reflexivity] ]);
    simpl; intros m Hm;
    repeat (destruct Hm as [<-|Hm]; [eauto|]); contradiction.
Qed.

Lemma requoteBid_sends q s :
  exists ms, outbox (requoteBid q s) = outbox s ++ ms
    /\ (forall m, In m ms ->
          m = CancelOrder (mBidId s)
          \/ exists id, m = InsertOrder id Side.BUY (newBidPrice q) (bidQuantity q) GOOD_FOR_DAY)
    /\ mAskId (requoteBid q s) = mAskId s
    /\ PendingCancelAsk (requoteBid q s) = PendingCancelAsk s
    /\ mAskPrice (requoteBid q s) = mAskPrice s.
Proof.
  unfold requoteBid, next_message_id, SendCancelOrder, SendInsertOrder, send.
  destruct s; simpl.
  repeat match goal with
         | |- context [if ?b then _ else _] => destruct b; simpl
         end;
    (eexists; split;
       [ rewrite <- ?app_assoc; try reflexivity; symmetry; apply app_nil_r
       | split; [|repeat split; reflexivity] ]);
    simpl; intros m Hm;
    repeat (destruct Hm as [<-|Hm]; [eauto|]); contradiction.
Qed.

Lemma due_true (p cur : Z) :
  p <> 0 -> p <> cur -> negb (p =? 0) && negb (p =? cur) = true.
Proof.
  intros H1 H2. apply Z.eqb_neq in H1. apply Z.eqb_neq in H2.
  rewrite H1, H2. reflexivity.
Qed.

(** An order-book update for the quoted instrument is defined whenever its
    quote is. *)
Lemma OrderBookMessageHandler_defined n askP askV bidP bidV s q :
  wf_indicators (indicators s) ->
  computeQuote askP askV bidP bidV (mPosition s) = Some q ->
  exists g, wf_indicators g
    /\ Ichimoku askP askV bidP bidV (indicators s) = Some (IchimokuSignal.NEUTRAL, g)
    /\ OrderBookMessageHandler FUTURE n askP askV bidP bidV s
       = Some (set_indicators g (requoteBid q (requoteAsk q s))).
Proof.
  intros Hwf Hq.
  destruct (Ichimoku_neutral askP askV bidP bidV (indicators s) Hwf) as (g & Hg & Hwg).
  exists g. split; [exact Hwg|]. split; [exact Hg|].
  apply OrderBookMessageHandler_FUTURE with (signal := IchimokuSignal.NEUTRAL);
    [exact Hq|].
  rewrite (sb_indicators _ _ (same_books_trans _ _ _ (requoteAsk_same_books q s)
                                 (requoteBid_same_books q _))).
  exact Hg.
Qed.

(** C5, counterexample: an ask (id 1) rests at 1200 with no cancel pending;
    the next order book moves the target to 1400 with size 100; the update
    sends the two cancels and no insert. *)
Lemma no_replace_in_same_update :
  mAskId quoted_state = 1 /\ PendingCancelAsk quoted_state = false
  /\ mAskPrice quoted_state = 1200
  /\ computeQuote [1300] [10] [1100] [10] (mPosition quoted_state)
     = Some (mkQuote 1200 1400 1000 100 100)
  /\ option_map (sent_since quoted_state) (step quoted_state (EvOrderBook FUTURE 2 book2))
     = Some [CancelOrder 1; CancelOrder 2]
  /\ ~ ask_replaced_in_same_update quoted_state 2 book2.
Proof.
  assert (Hq : computeQuote [1300] [10] [1100] [10] (mPosition quoted_state)
               = Some (mkQuote 1200 1400 1000 100 100)) by (vm_compute; reflexivity).
  assert (Hs : option_map (sent_since quoted_state)
                 (step quoted_state (EvOrderBook FUTURE 2 book2))
               = Some [CancelOrder 1; CancelOrder 2]) by (vm_compute; reflexivity).
  repeat (split; [first [exact Hq | exact Hs | reflexivity]|]).
  intros H.
  destruct (H _ Hq) as (s' & Hstep & _ & id & Hin).
  - vm_compute. discriminate.
  - reflexivity.
  - simpl. discriminate.
  - vm_compute. discriminate.
  - reflexivity.
  - rewrite Hstep in Hs. unfold option_map in Hs. injection Hs as Hs'.
    rewrite Hs' in Hin.
    destruct Hin as [Hin|[Hin|[]]]; discriminate Hin.
Qed.

(** C5 (amended): on an order-book update for the quoted instrument whose
    quote is defined, if a side holds an order (nonzero tracked id), no
    cancel is pending for it, the target price is nonzero and differs from
    the quoted price and the quote size is positive, then the update sends
    a cancel for the tracked id and no insert for that side; the tracked id
    stays, the side is marked pending-cancel and the target price is
    recorded as the quoted price. *)
Theorem cancel_without_replace (n : Z) (askP askV bidP bidV : PriceVolumeArray)
    (s : State) (q : Quote) :
  wf_indicators (indicators s) ->
  computeQuote askP askV bidP bidV (mPosition s) = Some q ->
  exists s',
    OrderBookMessageHandler FUTURE n askP askV bidP bidV s = Some s'
    /\ (mAskId s <> 0 -> PendingCancelAsk s = false ->
        newAskPrice q <> 0 -> newAskPrice q <> mAskPrice s -> 0 < askQuantity q ->
        In (CancelOrder (mAskId s)) (sent_since s s')
        /\ (forall id p v l, ~ In (InsertOrder id Side.SELL p v l) (sent_since s s'))
        /\ mAskId s' = mAskId s /\ PendingCancelAsk s' = true
        /\ mAskPrice s' = newAskPrice q)
    /\ (mBidId s <> 0 -> PendingCancelBid s = false ->
        newBidPrice q <> 0 -> newBidPrice q <> mBidPrice s -> 0 < bidQuantity q ->
        In (CancelOrder (mBidId s)) (sent_since s s')
        /\ (forall id p v l, ~ In (InsertOrder id Side.BUY p v l) (sent_since s s'))
        /\ mBidId s' = mBidId s /\ PendingCancelBid s' = true
        /\ mBidPrice s' = newBidPrice q).
Proof.
  intros Hwf Hq.
  destruct (OrderBookMessageHandler_defined n askP askV bidP bidV s q Hwf Hq)
    as (g & _ & _ & Hh).
  eexists. split; [exact Hh|].
  set (s1 := requoteAsk q s).
  destruct (requoteAsk_sends q s) as (ma & Hoa & Hma & Ha1 & Ha2 & Ha3).
  destruct (requoteBid_sends q s1) as (mb & Hob & Hmb & Hb1 & Hb2 & Hb3).
  fold s1 in Hoa, Ha1, Ha2, Ha3.
  assert (Hout : sent_since s (set_indicators g (requoteBid q s1)) = ma ++ mb).
  { apply sent_since_app.
    change (outbox (requoteBid q s1) = outbox s ++ ma ++ mb).
    rewrite Hob, Hoa, app_assoc. reflexivity. }
  rewrite Hout.
  change (mAskId (set_indicators g (requoteBid q s1))) with (mAskId (requoteBid q s1)).
  change (PendingCancelAsk (set_indicators g (requoteBid q s1)))
    with (PendingCancelAsk (requoteBid q s1)).
  change (mAskPrice (set_indicators g (requoteBid q s1))) with (mAskPrice (requoteBid q s1)).
  change (mBidId (set_indicators g (requoteBid q s1))) with (mBidId (requoteBid q s1)).
  change (PendingCancelBid (set_indicators g (requoteBid q s1)))
    with (PendingCancelBid (requoteBid q s1)).
  change (mBidPrice (set_indicators g (requoteBid q s1))) with (mBidPrice (requoteBid q s1)).
  split.
  - intros Hid Hpend Hnz Hne Hqty.
    assert (Hdue : askDue q s = true) by (apply due_true; assumption).
    pose proof (requoteAsk_resting q s Hdue Hid) as Hs1. fold s1 in Hs1.
    assert (Hma' : ma = [CancelOrder (mAskId s)]).
    { apply (app_inv_head (outbox s)). rewrite <- Hoa, Hs1. reflexivity. }
    rewrite Hb1, Hb2, Hb3, Hs1. simpl. subst ma.
    split; [left; reflexivity|].
    split; [|repeat split; reflexivity].
    intros id p v l [Hin|Hin]; [discriminate Hin|].
    destruct (Hmb _ Hin) as [E|[id' E]]; discriminate E.
  - intros Hid Hpend Hnz Hne Hqty.
    assert (Hdue : bidDue q s1 = true).
    { unfold bidDue. rewrite Ha3. apply due_true; assumption. }
    assert (Hid1 : mBidId s1 <> 0) by (rewrite Ha1; exact Hid).
    pose proof (requoteBid_resting q s1 Hdue Hid1) as Hs2.
    assert (Hmb' : mb = [CancelOrder (mBidId s)]).
    { apply (app_inv_head (outbox s1)). rewrite <- Hob, Hs2, <- Ha1. reflexivity. }
    rewrite Hs2. simpl. subst mb.
    split; [apply in_or_app; right; left; reflexivity|].
    split; [|rewrite Ha1; repeat split; reflexivity].
    intros id p v l Hin. apply in_app_or in Hin. destruct Hin as [Hin|[Hin|[]]].
    + destruct (Hma _ Hin) as [E|[id' E]]; discriminate E.
    + discriminate Hin.
Qed.

Lemma cancel_without_replace_witness :
  wf_indicators (indicators quoted_state)
  /\ computeQuote [1300] [10] [1100] [10] (mPosition quoted_state)
     = Some (mkQuote 1200 1400 1000 100 100)
  /\ exists s',
       OrderBookMessageHandler FUTURE 2 [1300] [10] [1100] [10] quoted_state = Some s'
       /\ PendingCancelAsk s' = true /\ PendingCancelBid s' = true.
Proof.
  assert (Hwf : wf_indicators (indicators quoted_state))
    by (apply reachable_invariants, quoted_state_reachable).
  assert (Hq : computeQuote [1300] [10] [1100] [10] (mPosition quoted_state)
               = Some (mkQuote 1200 1400 1000 100 100)) by (vm_compute; reflexivity).
  split; [exact Hwf|]. split; [exact Hq|].
  destruct (cancel_without_replace 2 [1300] [10] [1100] [10] quoted_state _ Hwf Hq)
    as (s' & Hs' & Hask & Hbid).
  exists s'. split; [exact Hs'|]. split.
  - apply Hask; [vm_compute; discriminate | reflexivity | simpl; discriminate
                | vm_compute; discriminate | reflexivity].
  - apply Hbid; [vm_compute; discriminate | reflexivity | simpl; discriminate
                | vm_compute; discriminate | reflexivity].
Defined.

(** ** Acting on the signal *)

Lemma sent_since_same s : sent_since s s = [].
Proof. unfold sent_since. apply drop_all. Qed.

(** C6, counterexample: there is no order-book update, with the window
    full or not, in which the SELL branch sends anything. *)
Lemma sell_signal_sends_nothing : ~ signal_gating_as_stated.
Proof.
  intros [_ (askP & askV & bidP & bidV & s & signal & q & s3 & Hd & _ & Hsent)].
  destruct (atSignalDispatch_settled _ _ _ _ _ _ _ _ Hd) as [Ha Hb].
  rewrite (actOnSignal_settled _ _ _ Ha Hb) in Hsent.
  apply Hsent, sent_since_same.
Qed.

(** The test in front of the BUY branch reads the length of the
    leading-span-B vector, which is 52 from the start: with a count of 0
    the branch is entered and, on a state whose bid is due, sends an order. *)
Lemma buy_branch_open_with_empty_window :
  leadingSpanBCount (indicators initial_state) = 0
  /\ outbox (actOnSignal IchimokuSignal.BUY (mkQuote 1000 1100 900 100 100) initial_state)
     = [InsertOrder 1 Side.BUY 900 100 GOOD_FOR_DAY].
Proof. split; reflexivity. Qed.

(** C6 (amended): in every order-book update for the quoted instrument,
    with the leading-span-B window full or not, neither a BUY nor a SELL
    signal triggers a cancel or an insert: at the point where the signal
    is acted on, both target prices have already been recorded as the
    quoted prices, so either branch leaves the state as it is and the
    update ends in that state; from well-formed indicator variables the
    signal is NEUTRAL in any case. *)
Theorem signals_trigger_nothing (n : Z) (askP askV bidP bidV : PriceVolumeArray)
    (s : State) (signal : IchimokuSignal.t) (q : Quote) (s3 : State) :
  atSignalDispatch askP askV bidP bidV s = Some (signal, q, s3) ->
  (forall sig, actOnSignal sig q s3 = s3 /\ sent_since s3 (actOnSignal sig q s3) = [])
  /\ OrderBookMessageHandler FUTURE n askP askV bidP bidV s = Some s3
  /\ (wf_indicators (indicators s) -> signal = IchimokuSignal.NEUTRAL).
Proof.
  intros Hd.
  destruct (atSignalDispatch_settled _ _ _ _ _ _ _ _ Hd) as [Ha Hb].
  split; [|split].
  - intros sig. rewrite (actOnSignal_settled _ _ _ Ha Hb).
    split; [reflexivity | apply sent_since_same].
  - rewrite OrderBookMessageHandler_dispatch, Hd.
    rewrite (actOnSignal_settled _ _ _ Ha Hb), (unloadInventory_settled _ _ Ha Hb).
    reflexivity.
  - intros Hwf. unfold atSignalDispatch in Hd.
    destruct (computeQuote _ _ _ _ _) as [q0|]; [|discriminate].
    rewrite (sb_indicators _ _ (same_books_trans _ _ _ (requoteAsk_same_books q0 s)
                                   (requoteBid_same_books q0 _))) in Hd.
    destruct (Ichimoku_neutral askP askV bidP bidV (indicators s) Hwf) as (g & Hg & _).
    rewrite Hg in Hd. inversion Hd. reflexivity.
Qed.

Lemma signals_trigger_nothing_witness :
  exists q s3,
    atSignalDispatch [1300] [10] [1100] [10] quoted_state
      = Some (IchimokuSignal.NEUTRAL, q, s3)
    /\ leadingSpanBCount (indicators s3) < leading_span_b_window
    /\ actOnSignal IchimokuSignal.SELL q s3 = s3
    /\ actOnSignal IchimokuSignal.BUY q s3 = s3.
Proof.
  destruct (atSignalDispatch [1300] [10] [1100] [10] quoted_state)
    as [[[signal q] s3]|] eqn:E; [|vm_compute in E; discriminate E].
  assert (Hn : signal = IchimokuSignal.NEUTRAL).
  { apply (signals_trigger_nothing 2 _ _ _ _ _ _ _ _ E).
    apply reachable_invariants, quoted_state_reachable. }
  subst signal. exists q, s3. split; [reflexivity|].
  split.
  - assert (Hc : option_map (fun x => leadingSpanBCount (indicators (snd x)))
                   (atSignalDispatch [1300] [10] [1100] [10] quoted_state) = Some 2)
      by (vm_compute; reflexivity).
    rewrite E in Hc. injection Hc as Hc. simpl in Hc. rewrite Hc. reflexivity.
  - split; apply (signals_trigger_nothing 2 _ _ _ _ _ _ _ _ E).
Defined.

(** ** Status updates *)

Lemma filled_state_run :
  run initial_state [EvOrderBook FUTURE 1 book1; EvOrderFilled 1 1200 10] = Some filled_state.
Proof. vm_compute. reflexivity. Qed.

(** C7, counterexample: order 1 has been filled for 10 lots at 1200; its
    zero-remaining update is processed; a later update for order 1 with 90
    lots remaining and fees 7 creates a long-inventory entry and lowers the
    short-inventory entry. *)
Lemma late_status_changes_inventory :
  let s1 := OrderStatusMessageHandler 1 10 0 5 filled_state in
  let s2 := OrderStatusMessageHandler 1 10 90 7 s1 in
  longInventory s1 !! 1 = None /\ longInventory s2 !! 1 = Some 7
  /\ shortInventory s1 !! 1 = Some 1200 /\ shortInventory s2 !! 1 = Some 1193
  /\ ~ terminal_status_final filled_state 1.
Proof.
  assert (H1 : longInventory (OrderStatusMessageHandler 1 10 0 5 filled_state) !! 1 = None)
    by (vm_compute; reflexivity).
  assert (H2 : longInventory (OrderStatusMessageHandler 1 10 90 7
                                (OrderStatusMessageHandler 1 10 0 5 filled_state)) !! 1
               = Some 7) by (vm_compute; reflexivity).
  cbv zeta. split; [exact H1|]. split; [exact H2|].
  split; [vm_compute; reflexivity|]. split; [vm_compute; reflexivity|].
  intros H. destruct (H 10 5 10 90 7) as (_ & Hl & _).
  rewrite Hl, H1 in H2. discriminate H2.
Qed.

Lemma OrderStatusMessageHandler_terminal id f fees s :
  let s' := OrderStatusMessageHandler id f 0 fees s in
  mPosition s' = mPosition s /\ longInventory s' = longInventory s
  /\ shortInventory s' = shortInventory s /\ lotSize s' = lotSize s.
Proof.
  unfold OrderStatusMessageHandler. destruct s; simpl.
  repeat match goal with
         | |- context [if ?b then _ else _] => destruct b; simpl
         end; repeat split; reflexivity.
Qed.

Lemma OrderStatusMessageHandler_open id f r fees s :
  r <> 0 ->
  OrderStatusMessageHandler id f r fees s
  = set_lotSize (<[id := r]> (lotSize s))
      (set_shortInventory
         (<[id := to_ulong (map_at id (shortInventory s) - fees)]> (shortInventory s))
         (set_longInventory
            (<[id := to_ulong (map_at id (longInventory s) + fees)]> (longInventory s)) s)).
Proof.
  intros Hr. unfold OrderStatusMessageHandler.
  apply Z.eqb_neq in Hr. rewrite Hr. destruct s; reflexivity.
Qed.

(** C7 (amended): after the zero-remaining update of an order has been
    processed, any sequence of later status updates for the same id leaves
    the position as it is; if each of them again reports zero remaining
    volume, it leaves the long, short and lot-size maps as they are; a
    later update with nonzero remaining volume sets the long entry of the
    id to its old value (0 if absent) plus the fees and the short entry to
    its old value minus the fees, both modulo 2^64. *)
Theorem status_after_terminal (s : State) (id f fees : Z) (us : list StatusUpdate) :
  let s1 := OrderStatusMessageHandler id f 0 fees s in
  let s2 := status_updates id s1 us in
  mPosition s2 = mPosition s1
  /\ (Forall (fun u => remaining u = 0) us ->
      longInventory s2 = longInventory s1 /\ shortInventory s2 = shortInventory s1
      /\ lotSize s2 = lotSize s1)
  /\ (forall f' r' fees', r' <> 0 ->
      let s3 := OrderStatusMessageHandler id f' r' fees' s1 in
      longInventory s3
        = <[id := to_ulong (map_at id (longInventory s1) + fees')]> (longInventory s1)
      /\ shortInventory s3
        = <[id := to_ulong (map_at id (shortInventory s1) - fees')]> (shortInventory s1)).
Proof.
  cbv zeta. generalize (OrderStatusMessageHandler id f 0 fees s). clear s. intros s.
  unfold status_updates.
  split; [|split].
  - revert s. induction us as [|[[f1 r1] fees1] us IH]; intros s; simpl; [reflexivity|].
    rewrite IH.
    apply OrderStatusMessageHandler_same_books_position.
  - revert s. induction us as [|[[f1 r1] fees1] us IH]; intros s Hall; simpl.
    + repeat split; reflexivity.
    + inversion Hall as [|u l Hr Hrest]; subst. unfold remaining in Hr. simpl in Hr. subst r1.
      destruct (IH (OrderStatusMessageHandler id f1 0 fees1 s) Hrest) as (-> & -> & ->).
      destruct (OrderStatusMessageHandler_terminal id f1 fees1 s) as (_ & H1 & H2 & H3).
      repeat split; assumption.
  - intros f' r' fees' Hr. rewrite (OrderStatusMessageHandler_open _ _ _ _ _ Hr).
    destruct s; split; reflexivity.
Qed.

Lemma status_after_terminal_witness :
  Forall (fun u => remaining u = 0) [(10, 0, 5); (0, 0, 0)]
  /\ shortInventory
       (status_updates 1 (OrderStatusMessageHandler 1 10 0 5 filled_state)
          [(10, 0, 5); (0, 0, 0)])
     = shortInventory (OrderStatusMessageHandler 1 10 0 5 filled_state).
Proof.
  assert (Hall : Forall (fun u => remaining u = 0) [(10, 0, 5); (0, 0, 0)])
    by (repeat constructor).
  split; [exact Hall|].
  exact (proj1 (proj2 (proj1 (proj2 (status_after_terminal filled_state 1 10 5
                                       [(10, 0, 5); (0, 0, 0)])) Hall))).
Defined.

(** C8, counterexample: in the initial state, a status update for the
    unknown id 7 with 5 lots remaining creates entries for 7 in the three
    maps. *)
Lemma unknown_status_creates_entries :
  unknown_id 7 initial_state
  /\ lotSize (OrderStatusMessageHandler 7 0 5 0 initial_state) !! 7 = Some 5
  /\ longInventory (OrderStatusMessageHandler 7 0 5 0 initial_state) !! 7 = Some 0
  /\ shortInventory (OrderStatusMessageHandler 7 0 5 0 initial_state) !! 7 = Some 0
  /\ ~ unknown_status_ignored initial_state 7 0 5 0.
Proof.
  assert (Hu : unknown_id 7 initial_state).
  { unfold unknown_id. repeat split; try discriminate; vm_compute; reflexivity. }
  assert (H1 : lotSize (OrderStatusMessageHandler 7 0 5 0 initial_state) !! 7 = Some 5)
    by (vm_compute; reflexivity).
  split; [exact Hu|]. split; [exact H1|].
  split; [vm_compute; reflexivity|]. split; [vm_compute; reflexivity|].
  intros H. rewrite (H Hu) in H1. vm_compute in H1. discriminate H1.
Qed.

(** C8 (amended): a status update for an unknown id with zero remaining
    volume leaves the whole state as it is; one with nonzero remaining
    volume is processed without failure and changes nothing but the three
    maps, where it creates the entries of the id: the fees (modulo 2^64) in
    the long map, their negation in the short map and the remaining volume
    in the lot-size map. *)
Theorem unknown_status_update (s : State) (id f r fees : Z) :
  unknown_id id s ->
  (r = 0 -> OrderStatusMessageHandler id f r fees s = s)
  /\ (r <> 0 ->
      OrderStatusMessageHandler id f r fees s
      = set_lotSize (<[id := r]> (lotSize s))
          (set_shortInventory (<[id := to_ulong (- fees)]> (shortInventory s))
             (set_longInventory (<[id := to_ulong fees]> (longInventory s)) s))).
Proof.
  intros (Ha & Hb & Hsa & Hsb & Hl & Hs & _). split.
  - intros ->. unfold OrderStatusMessageHandler. simpl.
    apply Z.eqb_neq in Ha. apply Z.eqb_neq in Hb. rewrite Ha, Hb, Hsa, Hsb. reflexivity.
  - intros Hr. rewrite (OrderStatusMessageHandler_open _ _ _ _ _ Hr).
    unfold map_at. rewrite Hl, Hs. reflexivity.
Qed.

Lemma unknown_status_update_witness :
  unknown_id 7 quoted_state
  /\ OrderStatusMessageHandler 7 0 0 0 quoted_state = quoted_state.
Proof.
  assert (Hu : unknown_id 7 quoted_state).
  { unfold unknown_id. repeat split; try discriminate; vm_compute; reflexivity. }
  split; [exact Hu|].
  exact (proj1 (unknown_status_update quoted_state 7 0 0 0 Hu) eq_refl).
Defined.

(** ** Running sums of the indicator windows *)

(** C2: on the first order book, with best bid and best ask at 1000, each
    of the leading-span-B and lagging-span windows holds the single value
    1000, while the running sum both are updated with is 2000: the
    lagging-span push is made with [leadingSpanBSum]. *)
Theorem leading_span_b_sum_takes_lagging_pushes :
  exists g,
    Ichimoku [1000] [10] [1000] [10] initial_indicators = Some (IchimokuSignal.NEUTRAL, g)
    /\ leadingSpanBCount g = 1
    /\ sum_list (take 1 (leadingSpanBBuffer g)) = 1000
    /\ laggingSpanCount g = 1
    /\ sum_list (take 1 (laggingSpanBuffer g)) = 1000
    /\ leadingSpanBSum g = 2000
    /\ ~ windows_sums_exact g.
Proof.
  exists {| conversionLineBuffer := 1000 :: replicate 8 0;
            baselineBuffer := 1000 :: replicate 25 0;
            leadingSpanBBuffer := 1000 :: replicate 51 0;
            laggingSpanBuffer := 1000 :: replicate 25 0;
            conversionLineSum := 1000; baselineSum := 1000; leadingSpanBSum := 2000;
            conversionLineIndex := 1; baselineIndex := 1;
            leadingSpanBIndex := 1; laggingSpanIndex := 1;
            conversionLineCount := 1; baselineCount := 1;
            leadingSpanBCount := 1; laggingSpanCount := 1 |}.
  split; [vm_compute; reflexivity|].
  repeat (split; [reflexivity|]).
  intros (_ & _ & H & _). vm_compute in H. discriminate H.
Qed.

Lemma sum_list_insert (l : list Z) (i : nat) (v : Z) :
  (i < length l)%nat ->
  sum_list (<[i := v]> l) = sum_list l - default 0 (l !! i) + v.
Proof.
  revert i. induction l as [|x l IH]; intros i Hi; simpl in Hi; [lia|].
  destruct i as [|i]; simpl.
  - unfold sum_list. simpl. lia.
  - unfold sum_list in *. simpl. rewrite IH by lia. lia.
Qed.

(** The sum of the filled part of the buffer across one push. *)
Lemma sum_take_push N (buffer : list Z) index count v :
  0 < N -> wf_window N buffer index count ->
  sum_list (take (Z.to_nat (Z.min (count + 1) N)) (<[Z.to_nat index := v]> buffer))
  = sum_list (take (Z.to_nat count) buffer) + v
    - (if count <? N then 0 else default 0 (buffer !! Z.to_nat index)).
Proof.
  intros Hpos (Hlen & Hi & Hc & Hcur).
  destruct (count <? N) eqn:E.
  - apply Z.ltb_lt in E. rewrite Hcur by lia.
    rewrite Z.min_l by lia.
    replace (Z.to_nat (count + 1)) with (S (Z.to_nat count)) by lia.
    rewrite (take_S_r _ _ v) by (apply list_lookup_insert_eq; lia).
    rewrite take_insert_ge by lia.
    rewrite sum_list_app. unfold sum_list at 2. simpl. lia.
  - apply Z.ltb_ge in E. rewrite Z.min_r by lia.
    assert (Hcn : count = N) by lia. subst count.
    rewrite !take_ge by (rewrite ?length_insert; lia).
    rewrite sum_list_insert by lia. lia.
Qed.

(** One push made with a running sum that stands for the window's own sum
    plus [extra]. *)
Lemma update_sum N buffer index count v sum extra :
  0 < N <= INT_MAX -> wf_window N buffer index count ->
  sum = to_ulong (sum_list (take (Z.to_nat count) buffer) + extra) ->
  exists b i c s,
    updateCircularBufferWithNewValue buffer index count v sum N = Some (b, i, c, s)
    /\ wf_window N b i c /\ c = Z.min (count + 1) N
    /\ s = to_ulong (sum_list (take (Z.to_nat c) b) + extra).
Proof.
  intros HN Hwf Hsum.
  destruct (update_wf N buffer index count v sum HN Hwf)
    as (b & i & c & s & Hu & Hwf' & _ & Hb & _).
  exists b, i, c, s. split; [exact Hu|]. split; [exact Hwf'|].
  destruct HN as [Hpos Hint]. pose proof Hwf as (Hlen & Hi & Hc & _).
  rewrite (update_defined N Hpos Hint buffer index count v sum Hlen Hi Hc) in Hu.
  injection Hu as _ _ Hc' Hs. split; [congruence|].
  subst c b. rewrite (sum_take_push N buffer index count v Hpos Hwf).
  rewrite <- Hs, Hsum.
  destruct (count <? N).
  - rewrite ulong_add_mod. f_equal. lia.
  - rewrite ulong_sub_mod, ulong_add_mod. f_equal. lia.
Qed.

Lemma sums_found_initial : sums_found initial_indicators.
Proof. split; reflexivity. Qed.

(** One call of [Ichimoku] keeps the sums in the relation found above and
    moves each count one step towards its capacity, where it stays. *)
Lemma Ichimoku_sums askP askV bidP bidV g :
  wf_indicators g -> sums_found g ->
  exists g', Ichimoku askP askV bidP bidV g = Some (IchimokuSignal.NEUTRAL, g')
    /\ wf_indicators g' /\ sums_found g'
    /\ conversionLineCount g' = Z.min (conversionLineCount g + 1) conversion_line_size
    /\ baselineCount g' = Z.min (baselineCount g + 1) baseline_size
    /\ leadingSpanBCount g' = Z.min (leadingSpanBCount g + 1) leading_span_b_window
    /\ laggingSpanCount g' = Z.min (laggingSpanCount g + 1) baseline_size.
Proof.
  intros [Hc Hb Hl Hg] [Sc Sb Sl].
  assert (I9 : 0 < conversion_line_size <= INT_MAX) by (vm_compute; split; [reflexivity|discriminate]).
  assert (I26 : 0 < baseline_size <= INT_MAX) by (vm_compute; split; [reflexivity|discriminate]).
  assert (I52 : 0 < leading_span_b_window <= INT_MAX) by (vm_compute; split; [reflexivity|discriminate]).
  unfold Ichimoku.
  set (cur := ulong_shr1 _).
  assert (Sc0 : conversionLineSum g
                = to_ulong (sum_list (take (Z.to_nat (conversionLineCount g))
                                        (conversionLineBuffer g)) + 0))
    by (rewrite Z.add_0_r; exact Sc).
  assert (Sb0 : baselineSum g
                = to_ulong (sum_list (take (Z.to_nat (baselineCount g))
                                        (baselineBuffer g)) + 0))
    by (rewrite Z.add_0_r; exact Sb).
  destruct (update_sum _ _ _ _ cur _ 0 I9 Hc Sc0)
    as (b1 & i1 & c1 & s1 & -> & W1 & C1 & S1).
  rewrite ulong_div_count
    by (destruct W1 as (_ & _ & ? & _), Hc as (_ & _ & ? & _);
        unfold conversion_line_size in *; unfold INT_MAX; lia).
  destruct (update_sum _ _ _ _ (s1 / c1) _ 0 I26 Hb Sb0)
    as (b2 & i2 & c2 & s2 & -> & W2 & C2 & S2).
  rewrite ulong_div_count
    by (destruct W2 as (_ & _ & ? & _), Hb as (_ & _ & ? & _);
        unfold baseline_size in *; unfold INT_MAX; lia).
  destruct (update_sum _ _ _ _ (s1 / c1) _ _ I52 Hl Sl)
    as (b3 & i3 & c3 & s3 & -> & W3 & C3 & S3).
  rewrite Z.add_comm in S3.
  destruct (update_sum _ _ _ _ cur _ _ I26 Hg S3)
    as (b4 & i4 & c4 & s4 & -> & W4 & C4 & S4).
  pose proof W4 as (L4 & R4 & _ & _).
  assert (Hload : exists x, vec_load b4 i4 = Some x).
  { unfold vec_load. destruct (i4 <? 0) eqn:E; [apply Z.ltb_lt in E; lia|].
    apply lookup_lt_is_Some_2. lia. }
  destruct Hload as [x Hx]. rewrite Hx.
  rewrite (laggingComparisonIndex_self i4 b4 L4 R4).
  rewrite Hx. rewrite Z.ltb_irrefl. rewrite !andb_false_r.
  eexists. split; [reflexivity|].
  split; [split; simpl; assumption|].
  split; [|simpl; repeat split; assumption].
  split; simpl.
  - rewrite S1, Z.add_0_r. reflexivity.
  - rewrite S2, Z.add_0_r. reflexivity.
  - rewrite S4, Z.add_comm. reflexivity.
Qed.

(** After any sequence of order books: the sums are in the relation found,
    and each count is the number of calls, capped at the capacity. *)
Lemma Ichimoku_run_sums books : forall g,
  wf_indicators g -> sums_found g ->
  exists signals g', Ichimoku_run g books = Some (signals, g')
    /\ wf_indicators g' /\ sums_found g'
    /\ conversionLineCount g'
       = Z.min (conversionLineCount g + Z.of_nat (length books)) conversion_line_size
    /\ baselineCount g'
       = Z.min (baselineCount g + Z.of_nat (length books)) baseline_size
    /\ leadingSpanBCount g'
       = Z.min (leadingSpanBCount g + Z.of_nat (length books)) leading_span_b_window
    /\ laggingSpanCount g'
       = Z.min (laggingSpanCount g + Z.of_nat (length books)) baseline_size.
Proof.
  induction books as [|b books IH]; intros g Hwf Hs.
  - exists [], g. simpl. rewrite !Z.add_0_r.
    split; [reflexivity|]. split; [exact Hwf|]. split; [exact Hs|].
    destruct Hwf as [(_ & _ & ? & _) (_ & _ & ? & _) (_ & _ & ? & _) (_ & _ & ? & _)].
    repeat split; lia.
  - destruct (Ichimoku_sums (askPrices b) (askVolumes b) (bidPrices b) (bidVolumes b)
                g Hwf Hs) as (g1 & E1 & Hwf1 & Hs1 & K1 & K2 & K3 & K4).
    destruct (IH g1 Hwf1 Hs1) as (sigs & g2 & E2 & Hwf2 & Hs2 & J1 & J2 & J3 & J4).
    exists (IchimokuSignal.NEUTRAL :: sigs), g2.
    simpl Ichimoku_run. rewrite E1, E2.
    split; [reflexivity|]. split; [exact Hwf2|]. split; [exact Hs2|].
    rewrite J1, J2, J3, J4, K1, K2, K3, K4.
    change (length (b :: books)) with (S (length books)).
    destruct Hwf as [(_ & _ & ? & _) (_ & _ & ? & _) (_ & _ & ? & _) (_ & _ & ? & _)].
    unfold conversion_line_size, baseline_size, leading_span_b_window in *.
    repeat split; lia.
Qed.

(** ** The profit-taking loops and the order of iteration *)

Lemma requoteAsk_twice q s : requoteAsk q (requoteAsk q s) = requoteAsk q s.
Proof. apply requoteAsk_not_due, requoteAsk_settles. Qed.

Lemma requoteBid_twice q s : requoteBid q (requoteBid q s) = requoteBid q s.
Proof. apply requoteBid_not_due, requoteBid_settles. Qed.

(** The loop over the long inventory comes to one run of the ask block if
    some entry lies below the current price, and to nothing otherwise. *)
Lemma unloadLong_fold q (entries : list (Z * Z)) : forall s,
  foldl (unloadLong q) s entries
  = if existsb (fun e => snd e <? currentPrice q) entries then requoteAsk q s else s.
Proof.
  induction entries as [|e entries IH]; intros s; simpl; [reflexivity|].
  rewrite IH. unfold unloadLong. fold (askDue q s).
  destruct (askDue q s) eqn:Ed.
  - destruct (snd e <? currentPrice q); simpl.
    + rewrite requoteAsk_twice. destruct (existsb _ _); reflexivity.
    + reflexivity.
  - rewrite (requoteAsk_not_due q s Ed).
    destruct (_ || _); destruct (existsb _ _); reflexivity.
Qed.

Lemma unloadShort_fold q (entries : list (Z * Z)) : forall s,
  foldl (unloadShort q) s entries
  = if existsb (fun e => currentPrice q <? snd e) entries then requoteBid q s else s.
Proof.
  induction entries as [|e entries IH]; intros s; simpl; [reflexivity|].
  rewrite IH. unfold unloadShort.
  destruct (currentPrice q <? snd e); simpl.
  - rewrite requoteBid_twice. destruct (existsb _ _); reflexivity.
  - reflexivity.
Qed.

Lemma existsb_Permutation {A} (f : A -> bool) (l1 l2 : list A) :
  l1 ≡ₚ l2 -> existsb f l1 = existsb f l2.
Proof.
  intros Hp. induction Hp as [|x l1 l2 _ IH|x y l|l1 l2 l3 _ IH1 _ IH2]; simpl.
  - reflexivity.
  - rewrite IH. reflexivity.
  - destruct (f x), (f y); reflexivity.
  - congruence.
Qed.

(** The order in which an unordered map hands out its entries does not
    matter to either loop. *)
Lemma unload_loops_any_order q s (l1 l2 : list (Z * Z)) :
  l1 ≡ₚ l2 ->
  foldl (unloadLong q) s l1 = foldl (unloadLong q) s l2
  /\ foldl (unloadShort q) s l1 = foldl (unloadShort q) s l2.
Proof.
  intros Hp. rewrite !unloadLong_fold, !unloadShort_fold.
  rewrite (existsb_Permutation _ _ _ Hp).
  rewrite (existsb_Permutation (fun e => currentPrice q <? snd e) _ _ Hp).
  split; reflexivity.
Qed.

(** ** The model on the scenarios of the specification *)

(** Best bid 998 and best ask 1002 with volumes 50 and 30: the spread
    estimate is 2. *)
Example WeightedAverageSpread_scenario :
  WeightedAverageSpread [1002] [30] [998] [50] = Dbl.of_ulong 2.
Proof. vm_compute. reflexivity. Qed.

(** At the position limit with lot size 200 the bid size is 0, and no bid
    is placed. *)
Example bidQuantity_at_limit :
  option_map bidQuantity (computeQuote [1100] [10] [900] [10] 100) = Some 0
  /\ option_map outbox
       (OrderBookMessageHandler FUTURE 1 [1100] [10] [900] [10]
          (set_mPosition 100 initial_state))
     = Some [InsertOrder 1 Side.SELL 1200 200 GOOD_FOR_DAY].
Proof. split; vm_compute; reflexivity. Qed.

(** An error for the tracked ask clears the id and removes the order from
    the active asks, as a zero-remaining status update does. *)
Example error_for_tracked_ask :
  ErrorMessageHandler 1 EmptyString quoted_state
  = OrderStatusMessageHandler 1 0 0 0 quoted_state
  /\ mAskId (ErrorMessageHandler 1 EmptyString quoted_state) = 0
  /\ set_has 1 (mAsks (ErrorMessageHandler 1 EmptyString quoted_state)) = false.
Proof. repeat split; vm_compute; reflexivity. Qed.

(** Where a fill is undefined: at position 0 an ask fill of 2^63 lots
    has [static_cast<long>(volume)] the least [long], and the subtraction
    from the position overflows. *)
Example fill_undefined_on_overflow :
  set_has 1 (mAsks quoted_state) = true /\ mPosition quoted_state = 0
  /\ to_long (2 ^ 63) = LONG_MIN
  /\ OrderFilledMessageHandler 1 1200 (2 ^ 63) quoted_state = None.
Proof. repeat split; vm_compute; reflexivity. Qed.

(** * Further properties of the code *)

(** ** Quote prices and sizes *)

Lemma Dbl_to_ulong_range f v : Dbl.to_ulong f = Some v -> 0 <= v < ULONG_MOD.
Proof.
  destruct f as [sg| | |sg m e]; simpl; try discriminate.
  - intros H. inversion H. unfold ULONG_MOD. lia.
  - set (v0 := if 0 <=? e then Z.pos m * 2 ^ e else Z.pos m / 2 ^ (- e)).
    assert (Hv0 : 0 <= v0).
    { unfold v0. destruct (0 <=? e) eqn:E.
      - apply Z.leb_le in E. apply Z.mul_nonneg_nonneg; [lia|]. apply Z.pow_nonneg. lia.
      - apply Z.leb_gt in E. apply Z.div_pos; [lia|]. apply Z.pow_pos_nonneg; lia. }
    destruct sg.
    + destruct (v0 =? 0); [|discriminate]. intros H. inversion H. unfold ULONG_MOD. lia.
    + destruct (v0 <? ULONG_MOD) eqn:E; [|discriminate].
      apply Z.ltb_lt in E. intros H. inversion H. subst. lia.
Qed.

Lemma round_to_tick_spec p :
  0 <= p < ULONG_MOD ->
  round_to_tick p = p - p mod TICK_SIZE_IN_CENTS
  /\ round_to_tick p mod TICK_SIZE_IN_CENTS = 0
  /\ 0 <= round_to_tick p <= p.
Proof.
  unfold round_to_tick, TICK_SIZE_IN_CENTS. intros Hp.
  pose proof (Z.div_mod p 100 ltac:(lia)) as Hd.
  pose proof (Z.mod_pos_bound p 100 ltac:(lia)) as Hm.
  assert (E : p / 100 * 100 = p - p mod 100) by lia.
  rewrite to_ulong_small by lia.
  split; [exact E|]. split; [|lia].
  apply Z.mod_mul. lia.
Qed.

Lemma targetAskPrice_spec askP adj w p :
  targetAskPrice askP adj w = Some p ->
  0 <= p < ULONG_MOD /\ p mod TICK_SIZE_IN_CENTS = 0
  /\ (arr_get askP 0 = 0 -> p = 0).
Proof.
  unfold targetAskPrice.
  destruct (Dbl.to_ulong _) as [v|] eqn:E; [|discriminate].
  intros H. inversion H; subst p. clear H.
  pose proof (Dbl_to_ulong_range _ _ E) as Hv.
  destruct (round_to_tick_spec v Hv) as (_ & Hm & Hr).
  split; [lia|]. split; [exact Hm|].
  intros H0. rewrite H0 in E. simpl in E. inversion E. reflexivity.
Qed.

Lemma targetBidPrice_spec bidP adj w p :
  targetBidPrice bidP adj w = Some p ->
  0 <= p < ULONG_MOD /\ p mod TICK_SIZE_IN_CENTS = 0
  /\ (arr_get bidP 0 = 0 -> p = 0).
Proof.
  unfold targetBidPrice.
  destruct (Dbl.to_ulong _) as [v|] eqn:E; [|discriminate].
  intros H. inversion H; subst p. clear H.
  pose proof (Dbl_to_ulong_range _ _ E) as Hv.
  destruct (round_to_tick_spec v Hv) as (_ & Hm & Hr).
  split; [lia|]. split; [exact Hm|].
  intros H0. rewrite H0 in E. simpl in E. inversion E. reflexivity.
Qed.

(** What a defined quote looks like, whatever the position. *)
Lemma computeQuote_shape askP askV bidP bidV pos q :
  computeQuote askP askV bidP bidV pos = Some q ->
  (0 <= newAskPrice q < ULONG_MOD /\ newAskPrice q mod TICK_SIZE_IN_CENTS = 0
   /\ (arr_get askP 0 = 0 -> newAskPrice q = 0))
  /\ (0 <= newBidPrice q < ULONG_MOD /\ newBidPrice q mod TICK_SIZE_IN_CENTS = 0
      /\ (arr_get bidP 0 = 0 -> newBidPrice q = 0))
  /\ LONG_MIN <= pos <= LONG_MAX - POSITION_LIMIT
  /\ LONG_MIN + POSITION_LIMIT <= pos
  /\ askQuantity q = Z.min LOT_SIZE (to_ulong (POSITION_LIMIT + pos))
  /\ bidQuantity q = Z.min LOT_SIZE (to_ulong (POSITION_LIMIT - pos)).
Proof.
  unfold computeQuote.
  destruct (priceAdjustment pos) as [adj|]; [|discriminate].
  destruct (targetAskPrice _ _ _) as [a|] eqn:Ea; [|discriminate].
  destruct (targetBidPrice _ _ _) as [b|] eqn:Eb; [|discriminate].
  destruct (long_add _ _) as [ra|] eqn:Era; [|discriminate].
  destruct (long_sub _ _) as [rb|] eqn:Erb; [|discriminate].
  intros H. inversion H; subst q; clear H. simpl.
  apply long_val_Some in Era. apply long_val_Some in Erb.
  destruct Era as [-> Hra], Erb as [-> Hrb].
  split; [exact (targetAskPrice_spec _ _ _ _ Ea)|].
  split; [exact (targetBidPrice_spec _ _ _ _ Eb)|].
  unfold POSITION_LIMIT, LONG_MIN, LONG_MAX in *.
  repeat split; lia.
Qed.

(** ** The quote blocks, case by case *)

(** The ask block does one of four things: nothing; cancel the resting
    order; record the price only; insert a new order. *)
Lemma requoteAsk_cases q s :
  (askDue q s = false /\ requoteAsk q s = s)
  \/ (askDue q s = true /\ mAskId s <> 0
      /\ requoteAsk q s
         = set_mAskPrice (newAskPrice q)
             (set_PendingCancelAsk true (SendCancelOrder (mAskId s) s)))
  \/ (askDue q s = true /\ mAskId s = 0
      /\ (PendingCancelAsk s = true \/ askQuantity q <= 0)
      /\ requoteAsk q s = set_mAskPrice (newAskPrice q) s)
  \/ (askDue q s = true /\ mAskId s = 0
      /\ PendingCancelAsk s = false /\ 0 < askQuantity q
      /\ requoteAsk q s
         = set_mAskPrice (newAskPrice q)
             (set_mAsks ({[mNextMessageId s]} ∪ mAsks s)
                (SendInsertOrder (mNextMessageId s) Side.SELL (newAskPrice q)
                   (askQuantity q) GOOD_FOR_DAY
                   (set_mAskId (mNextMessageId s)
                      (set_mNextMessageId (ulong_add (mNextMessageId s) 1) s))))).
Proof.
  destruct (askDue q s) eqn:Ed.
  - right. unfold requoteAsk. unfold askDue in Ed. rewrite Ed.
    destruct (mAskId s =? 0) eqn:Eid.
    + apply Z.eqb_eq in Eid. right. simpl.
      destruct (PendingCancelAsk s) eqn:Ep; simpl.
      * left. repeat split; auto.
      * destruct (0 <? askQuantity q) eqn:Eq.
        -- right. apply Z.ltb_lt in Eq. repeat split; auto.
        -- left. apply Z.ltb_ge in Eq. repeat split; auto.
    + apply Z.eqb_neq in Eid. left. simpl. repeat split; auto.
  - left. split; [reflexivity|]. apply requoteAsk_not_due. exact Ed.
Qed.

Lemma requoteBid_cases q s :
  (bidDue q s = false /\ requoteBid q s = s)
  \/ (bidDue q s = true /\ mBidId s <> 0
      /\ requoteBid q s
         = set_mBidPrice (newBidPrice q)
             (set_PendingCancelBid true (SendCancelOrder (mBidId s) s)))
  \/ (bidDue q s = true /\ mBidId s = 0
      /\ (PendingCancelBid s = true \/ bidQuantity q <= 0)
      /\ requoteBid q s = set_mBidPrice (newBidPrice q) s)
  \/ (bidDue q s = true /\ mBidId s = 0
      /\ PendingCancelBid s = false /\ 0 < bidQuantity q
      /\ requoteBid q s
         = set_mBidPrice (newBidPrice q)
             (set_mBids ({[mNextMessageId s]} ∪ mBids s)
                (SendInsertOrder (mNextMessageId s) Side.BUY (newBidPrice q)
                   (bidQuantity q) GOOD_FOR_DAY
                   (set_mBidId (mNextMessageId s)
                      (set_mNextMessageId (ulong_add (mNextMessageId s) 1) s))))).
Proof.
  destruct (bidDue q s) eqn:Ed.
  - right. unfold requoteBid. unfold bidDue in Ed. rewrite Ed.
    destruct (mBidId s =? 0) eqn:Eid.
    + apply Z.eqb_eq in Eid. right. simpl.
      destruct (PendingCancelBid s) eqn:Ep; simpl.
      * left. repeat split; auto.
      * destruct (0 <? bidQuantity q) eqn:Eq.
        -- right. apply Z.ltb_lt in Eq. repeat split; auto.
        -- left. apply Z.ltb_ge in Eq. repeat split; auto.
    + apply Z.eqb_neq in Eid. left. simpl. repeat split; auto.
  - left. split; [reflexivity|]. apply requoteBid_not_due. exact Ed.
Qed.

(** ** The session invariant *)

Lemma allotted_ids_snoc l m :
  allotted_ids (l ++ [m])
  = allotted_ids l ++ match allots_id m with Some id => [id] | None => [] end.
Proof.
  unfold allotted_ids. rewrite omap_app. simpl.
  destruct (allots_id m); reflexivity.
Qed.

Lemma consecutive_from_snoc start ids id :
  consecutive_from start ids ->
  id = to_ulong (start + Z.of_nat (length ids)) ->
  consecutive_from start (ids ++ [id]).
Proof.
  intros Hc Hid i x Hx.
  destruct (decide (i < length ids)%nat) as [Hlt|Hge].
  - rewrite lookup_app_l in Hx by exact Hlt. apply Hc. exact Hx.
  - rewrite lookup_app_r in Hx by lia.
    destruct (i - length ids)%nat eqn:E; simpl in Hx; [|destruct n; discriminate].
    inversion Hx; subst x. rewrite Hid. f_equal. lia.
Qed.

Lemma snoc_split {A} (l l1 l2 : list A) (m x : A) :
  l ++ [m] = l1 ++ x :: l2 ->
  (l2 = [] /\ x = m /\ l = l1)
  \/ (exists l2', l2 = l2' ++ [m] /\ l = l1 ++ x :: l2').
Proof.
  destruct l2 as [|y l2 _] using rev_ind; intros H.
  - left. apply app_inj_tail in H. destruct H as [-> ->]. auto.
  - right. exists l2.
    change (l1 ++ x :: l2 ++ [y]) with (l1 ++ (x :: l2) ++ [y]) in H.
    rewrite app_assoc in H. apply app_inj_tail in H. destruct H as [-> ->]. auto.
Qed.

Lemma cancels_follow_inserts_snoc l m :
  cancels_follow_inserts l ->
  (forall id, m = CancelOrder id ->
     id <> 0 /\ exists sd p v, In (InsertOrder id sd p v GOOD_FOR_DAY) l) ->
  cancels_follow_inserts (l ++ [m]).
Proof.
  intros Hl Hm l1 l2 id E.
  apply snoc_split in E. destruct E as [(_ & E & ->)|(l2' & _ & ->)].
  - apply Hm. symmetry. exact E.
  - exact (Hl _ _ _ eq_refl).
Qed.

Lemma next_after_allot n :
  ulong_add (to_ulong (1 + Z.of_nat n)) 1 = to_ulong (1 + Z.of_nat (n + 1)).
Proof. rewrite ulong_add_mod. f_equal. lia. Qed.

Lemma due_nonzero (p cur : Z) : negb (p =? 0) && negb (p =? cur) = true -> p <> 0.
Proof.
  intros H. apply andb_true_iff in H. destruct H as [H _].
  apply negb_true_iff, Z.eqb_neq in H. exact H.
Qed.

Lemma requoteAsk_inv q s :
  quote_ok q -> session_inv s -> session_inv (requoteAsk q s).
Proof.
  intros Hq Hinv.
  destruct (requoteAsk_cases q s)
    as [(_ & ->)|[(Hd & Hid & ->)|[(Hd & Hid & Hp & ->)|(Hd & Hid & Hp & Hqty & ->)]]].
  - exact Hinv.
  - destruct Hinv as [I1 I2 I3 I4 I5 I6 I7 I8 I9 I10 I11].
    unfold SendCancelOrder, send. destruct s; simpl in *.
    split; simpl; try assumption.
    + rewrite allotted_ids_snoc. simpl. rewrite app_nil_r. exact I1.
    + rewrite allotted_ids_snoc. simpl. rewrite app_nil_r. exact I2.
    + destruct I3 as [?|(p & v & ?)]; [contradiction|]. right. keep_in.
    + destruct I4 as [?|(p & v & ?)]; [left; assumption|]. right. keep_in.
    + intros id Hin. destruct (I5 id Hin) as (p & v & ?). keep_in.
    + intros id Hin. destruct (I6 id Hin) as (p & v & ?). keep_in.
    + apply cancels_follow_inserts_snoc; [exact I7|].
      intros id E. inversion E; subst id. split; [assumption|].
      destruct I3 as [?|(p & v & ?)]; [contradiction|]. keep_in.
    + intros id sd p v l Hin. apply in_app_or in Hin.
      destruct Hin as [Hin|[Hin|[]]]; [eauto | discriminate Hin].
    + intros id sd p v Hin. apply in_app_or in Hin.
      destruct Hin as [Hin|[Hin|[]]]; [eauto | discriminate Hin].
    + intros _. assumption.
  - destruct Hinv as [I1 I2 I3 I4 I5 I6 I7 I8 I9 I10 I11].
    destruct s; simpl in *. split; simpl; assumption.
  - destruct Hinv as [I1 I2 I3 I4 I5 I6 I7 I8 I9 I10 I11].
    destruct Hq as [[Hqa Hqm] _ Hqq _].
    apply due_nonzero in Hd.
    unfold SendInsertOrder, send. destruct s; simpl in *.
    split; simpl.
    + rewrite allotted_ids_snoc. simpl.
      apply consecutive_from_snoc; [exact I1|]. exact I2.
    + rewrite allotted_ids_snoc. simpl. rewrite length_app. simpl.
      rewrite I2. apply next_after_allot.
    + right. keep_in.
    + destruct I4 as [?|(p & v & ?)]; [left; assumption|]. right. keep_in.
    + intros id Hin. apply elem_of_union in Hin. destruct Hin as [Hin|Hin].
      * apply elem_of_singleton in Hin. subst id. keep_in.
      * destruct (I5 id Hin) as (p & v & ?). keep_in.
    + intros id Hin. destruct (I6 id Hin) as (p & v & ?). keep_in.
    + apply cancels_follow_inserts_snoc; [exact I7|]. intros id E. discriminate E.
    + intros id sd p v l Hin. apply in_app_or in Hin.
      destruct Hin as [Hin|[Hin|[]]]; [eauto|].
      inversion Hin; subst. unfold LOT_SIZE in *. repeat split; lia.
    + intros id sd p v Hin. apply in_app_or in Hin.
      destruct Hin as [Hin|[Hin|[]]]; [eauto | discriminate Hin].
    + intros Hc. rewrite Hp in Hc. discriminate Hc.
    + assumption.
Qed.

Lemma requoteBid_inv q s :
  quote_ok q -> session_inv s -> session_inv (requoteBid q s).
Proof.
  intros Hq Hinv.
  destruct (requoteBid_cases q s)
    as [(_ & ->)|[(Hd & Hid & ->)|[(Hd & Hid & Hp & ->)|(Hd & Hid & Hp & Hqty & ->)]]].
  - exact Hinv.
  - destruct Hinv as [I1 I2 I3 I4 I5 I6 I7 I8 I9 I10 I11].
    unfold SendCancelOrder, send. destruct s; simpl in *.
    split; simpl; try assumption.
    + rewrite allotted_ids_snoc. simpl. rewrite app_nil_r. exact I1.
    + rewrite allotted_ids_snoc. simpl. rewrite app_nil_r. exact I2.
    + destruct I3 as [?|(p & v & ?)]; [left; assumption|]. right. keep_in.
    + destruct I4 as [?|(p & v & ?)]; [contradiction|]. right. keep_in.
    + intros id Hin. destruct (I5 id Hin) as (p & v & ?). keep_in.
    + intros id Hin. destruct (I6 id Hin) as (p & v & ?). keep_in.
    + apply cancels_follow_inserts_snoc; [exact I7|].
      intros id E. inversion E; subst id. split; [assumption|].
      destruct I4 as [?|(p & v & ?)]; [contradiction|]. keep_in.
    + intros id sd p v l Hin. apply in_app_or in Hin.
      destruct Hin as [Hin|[Hin|[]]]; [eauto | discriminate Hin].
    + intros id sd p v Hin. apply in_app_or in Hin.
      destruct Hin as [Hin|[Hin|[]]]; [eauto | discriminate Hin].
    + intros _. assumption.
  - destruct Hinv as [I1 I2 I3 I4 I5 I6 I7 I8 I9 I10 I11].
    destruct s; simpl in *. split; simpl; assumption.
  - destruct Hinv as [I1 I2 I3 I4 I5 I6 I7 I8 I9 I10 I11].
    destruct Hq as [_ [Hqa Hqm] _ Hqq].
    apply due_nonzero in Hd.
    unfold SendInsertOrder, send. destruct s; simpl in *.
    split; simpl.
    + rewrite allotted_ids_snoc. simpl.
      apply consecutive_from_snoc; [exact I1|]. exact I2.
    + rewrite allotted_ids_snoc. simpl. rewrite length_app. simpl.
      rewrite I2. apply next_after_allot.
    + destruct I3 as [?|(p & v & ?)]; [left; assumption|]. right. keep_in.
    + right. keep_in.
    + intros id Hin. destruct (I5 id Hin) as (p & v & ?). keep_in.
    + intros id Hin. apply elem_of_union in Hin. destruct Hin as [Hin|Hin].
      * apply elem_of_singleton in Hin. subst id. keep_in.
      * destruct (I6 id Hin) as (p & v & ?). keep_in.
    + apply cancels_follow_inserts_snoc; [exact I7|]. intros id E. discriminate E.
    + intros id sd p v l Hin. apply in_app_or in Hin.
      destruct Hin as [Hin|[Hin|[]]]; [eauto|].
      inversion Hin; subst. unfold LOT_SIZE in *. repeat split; lia.
    + intros id sd p v Hin. apply in_app_or in Hin.
      destruct Hin as [Hin|[Hin|[]]]; [eauto | discriminate Hin].
    + assumption.
    + intros Hc. rewrite Hp in Hc. discriminate Hc.
Qed.

Lemma computeQuote_ok askP askV bidP bidV pos q :
  computeQuote askP askV bidP bidV pos = Some q -> quote_ok q.
Proof.
  intros H. destruct (computeQuote_shape _ _ _ _ _ _ H)
    as ((Ha & Ham & _) & (Hb & Hbm & _) & _ & _ & Hqa & Hqb).
  split; auto; [rewrite Hqa | rewrite Hqb]; apply Z.le_min_l.
Qed.

Lemma session_inv_initial : session_inv initial_state.
Proof.
  split; simpl; try (left; reflexivity); try discriminate;
    try (intros; contradiction).
  all: try reflexivity.
  all: try (intros i id H; destruct i; discriminate H).
  all: try (intros id H; apply not_elem_of_empty in H; contradiction).
  intros l1 l2 id E. destruct l1; discriminate E.

Qed.

Lemma OrderFilledMessageHandler_inv id p v s s' :
  OrderFilledMessageHandler id p v s = Some s' -> session_inv s -> session_inv s'.
Proof.
  unfold OrderFilledMessageHandler. intros H [I1 I2 I3 I4 I5 I6 I7 I8 I9 I10 I11].
  destruct (set_has id (mAsks s)); [|destruct (set_has id (mBids s))].
  - destruct (long_sub _ _) as [np|]; [|discriminate].
    destruct (askFillAccepted _ _) as [ok|]; [|discriminate].
    inversion H; subst s'; clear H.
    unfold SendHedgeOrder, send, next_message_id.
    destruct ok; destruct s; simpl in *; split; simpl; try assumption;
      try (rewrite allotted_ids_snoc; simpl);
      try (apply consecutive_from_snoc; [exact I1 | exact I2]);
      try (rewrite length_app; simpl; rewrite I2; apply next_after_allot).
    all: try (destruct I3 as [?|(p0 & v0 & ?)]; [left; assumption|]; right; keep_in).
    all: try (destruct I4 as [?|(p0 & v0 & ?)]; [left; assumption|]; right; keep_in).
    all: try (intros id0 Hin; destruct (I5 id0 Hin) as (p0 & v0 & ?); keep_in).
    all: try (intros id0 Hin; destruct (I6 id0 Hin) as (p0 & v0 & ?); keep_in).
    all: try (apply cancels_follow_inserts_snoc; [exact I7|];
              intros id0 E; discriminate E).
    all: try (intros id0 sd p0 v0 l Hin; apply in_app_or in Hin;
              destruct Hin as [Hin|[Hin|[]]]; [eauto | discriminate Hin]).
    all: try (intros id0 sd p0 v0 Hin; apply in_app_or in Hin;
              destruct Hin as [Hin|[Hin|[]]]; [eauto|];
              inversion Hin; subst; left; split; reflexivity).
  - destruct (long_add _ _) as [np|]; [|discriminate].
    destruct (bidFillAccepted _ _) as [ok|]; [|discriminate].
    inversion H; subst s'; clear H.
    unfold SendHedgeOrder, send, next_message_id.
    destruct ok; destruct s; simpl in *; split; simpl; try assumption;
      try (rewrite allotted_ids_snoc; simpl);
      try (apply consecutive_from_snoc; [exact I1 | exact I2]);
      try (rewrite length_app; simpl; rewrite I2; apply next_after_allot).
    all: try (destruct I3 as [?|(p0 & v0 & ?)]; [left; assumption|]; right; keep_in).
    all: try (destruct I4 as [?|(p0 & v0 & ?)]; [left; assumption|]; right; keep_in).
    all: try (intros id0 Hin; destruct (I5 id0 Hin) as (p0 & v0 & ?); keep_in).
    all: try (intros id0 Hin; destruct (I6 id0 Hin) as (p0 & v0 & ?); keep_in).
    all: try (apply cancels_follow_inserts_snoc; [exact I7|];
              intros id0 E; discriminate E).
    all: try (intros id0 sd p0 v0 l Hin; apply in_app_or in Hin;
              destruct Hin as [Hin|[Hin|[]]]; [eauto | discriminate Hin]).
    all: try (intros id0 sd p0 v0 Hin; apply in_app_or in Hin;
              destruct Hin as [Hin|[Hin|[]]]; [eauto|];
              inversion Hin; subst; right; split; reflexivity).
  - inversion H; subst s'; clear H. destruct s; simpl in *. split; simpl; assumption.
Qed.

Lemma OrderStatusMessageHandler_inv id f r fees s :
  session_inv s -> session_inv (OrderStatusMessageHandler id f r fees s).
Proof.
  intros [I1 I2 I3 I4 I5 I6 I7 I8 I9 I10 I11].
  unfold OrderStatusMessageHandler.
  destruct (r =? 0).
  - destruct (id =? mAskId s); [|destruct (id =? mBidId s)];
      destruct s; simpl in *;
      repeat match goal with
             | |- context [if ?b then _ else _] => destruct b; simpl
             end;
      split; simpl; try assumption; try (left; reflexivity); try discriminate;
      intros id0 Hin; apply elem_of_difference in Hin; destruct Hin as [Hin _]; auto.
  - destruct s; simpl in *. split; simpl; assumption.
Qed.

Lemma ErrorMessageHandler_inv id msg s :
  session_inv s -> session_inv (ErrorMessageHandler id msg s).
Proof.
  intros H. unfold ErrorMessageHandler.
  destruct (_ && _); [apply OrderStatusMessageHandler_inv|]; exact H.
Qed.

Lemma set_indicators_inv g s : session_inv s -> session_inv (set_indicators g s).
Proof. intros []. destruct s; split; simpl in *; assumption. Qed.

Lemma step_session_inv s e s' :
  step s e = Some s' -> session_inv s -> session_inv s'.
Proof.
  destruct e as [i n b|i n b|id p v|id f r fees|id p v|id msg|]; simpl; intros H Hinv.
  - apply OrderBookMessageHandler_cases in H.
    destruct H as (q & Hq & [[_ ->]|(_ & signal & g & _ & ->)]); [exact Hinv|].
    pose proof (computeQuote_ok _ _ _ _ _ _ Hq) as Hok.
    apply set_indicators_inv, requoteBid_inv, requoteAsk_inv; assumption.
  - inversion H; subst. exact Hinv.
  - exact (OrderFilledMessageHandler_inv _ _ _ _ _ H Hinv).
  - inversion H; subst. apply OrderStatusMessageHandler_inv. exact Hinv.
  - inversion H; subst. exact Hinv.
  - inversion H; subst. apply ErrorMessageHandler_inv. exact Hinv.
  - inversion H; subst. exact Hinv.
Qed.

Lemma run_session_inv events : forall s s',
  run s events = Some s' -> session_inv s -> session_inv s'.
Proof.
  induction events as [|e events IH]; intros s s' H Hinv; simpl in H.
  - inversion H; subst. exact Hinv.
  - destruct (step s e) as [s1|] eqn:E; [|discriminate].
    exact (IH _ _ H (step_session_inv _ _ _ E Hinv)).
Qed.

Lemma reachable_session_inv s : reachable s -> session_inv s.
Proof.
  intros [events H]. exact (run_session_inv _ _ _ H session_inv_initial).
Qed.

(** ** Gateway calls over a session *)

(** X2: in every reachable state the ids consumed by the insert and hedge
    calls made so far are 1, 2, 3, ... in call order ([unsigned long]
    arithmetic), cancels consume none, and [mNextMessageId] is the next
    one; as long as fewer than 2^64 - 1 ids have been consumed, the ids
    are therefore nonzero and pairwise distinct. *)
Theorem order_ids_consecutive (s : State) :
  reachable s ->
  let ids := allotted_ids (outbox s) in
  consecutive_from 1 ids
  /\ mNextMessageId s = to_ulong (1 + Z.of_nat (length ids))
  /\ (1 + Z.of_nat (length ids) < ULONG_MOD ->
      (forall (i : nat) id, ids !! i = Some id -> id = 1 + Z.of_nat i)
      /\ NoDup ids /\ ~ In 0 ids
      /\ mNextMessageId s = 1 + Z.of_nat (length ids)).
Proof.
  intros Hr. destruct (reachable_session_inv s Hr) as [I1 I2 _ _ _ _ _ _ _ _ _].
  cbv zeta. split; [exact I1|]. split; [exact I2|].
  intros Hn.
  assert (Hex : forall (i : nat) id,
             allotted_ids (outbox s) !! i = Some id -> id = 1 + Z.of_nat i).
  { intros i id Hi. rewrite (I1 i id Hi).
    apply lookup_lt_Some in Hi. apply to_ulong_small. lia. }
  split; [exact Hex|]. split; [|split].
  - apply NoDup_alt. intros i j x Hi Hj.
    apply Hex in Hi. apply Hex in Hj. lia.
  - intros H0. apply list_elem_of_In, list_elem_of_lookup in H0.
    destruct H0 as [i Hi]. apply Hex in Hi. lia.
  - rewrite I2. apply to_ulong_small. lia.
Qed.

Lemma filled_state_reachable : reachable filled_state.
Proof. eexists. exact filled_state_run. Qed.

Lemma order_ids_consecutive_witness :
  reachable filled_state
  /\ allotted_ids (outbox filled_state) = [1; 2; 3]
  /\ NoDup (allotted_ids (outbox filled_state))
  /\ mNextMessageId filled_state = 4.
Proof.
  split; [exact filled_state_reachable|]. split; [reflexivity|].
  destruct (order_ids_consecutive filled_state filled_state_reachable)
    as (_ & _ & H).
  destruct H as (_ & Hnd & _ & Hnext).
  - vm_compute. reflexivity.
  - split; [exact Hnd | reflexivity].
Defined.

(** X3: in every reachable state, each cancel among the gateway calls made
    so far names a nonzero id, and an insert with that id stands earlier
    among the calls: the trader never cancels an order it has not sent. *)
Theorem cancels_only_sent_orders (s : State) (before after : list Message) (id : Z) :
  reachable s ->
  outbox s = before ++ CancelOrder id :: after ->
  id <> 0 /\ exists sd p v, In (InsertOrder id sd p v GOOD_FOR_DAY) before.
Proof.
  intros Hr E. exact (si_cancel s (reachable_session_inv s Hr) _ _ _ E).
Qed.

(** The state after the second order book: both resting orders cancelled. *)
Lemma cancelled_state_run :
  exists s, run initial_state [EvOrderBook FUTURE 1 book1; EvOrderBook FUTURE 2 book2] = Some s
    /\ outbox s = outbox quoted_state ++ CancelOrder 1 :: [CancelOrder 2].
Proof.
  destruct (run initial_state [EvOrderBook FUTURE 1 book1; EvOrderBook FUTURE 2 book2])
    as [s|] eqn:E.
  - exists s. split; [reflexivity|].
    assert (H : option_map outbox
                  (run initial_state [EvOrderBook FUTURE 1 book1; EvOrderBook FUTURE 2 book2])
                = Some (outbox quoted_state ++ CancelOrder 1 :: [CancelOrder 2]))
      by (vm_compute; reflexivity).
    rewrite E in H. injection H as H. exact H.
  - vm_compute in E. discriminate E.
Qed.

Lemma cancels_only_sent_orders_witness :
  exists s, reachable s
    /\ outbox s = outbox quoted_state ++ CancelOrder 1 :: [CancelOrder 2]
    /\ exists sd p v, In (InsertOrder 1 sd p v GOOD_FOR_DAY) (outbox quoted_state).
Proof.
  destruct cancelled_state_run as (s & Hrun & Hout).
  assert (Hr : reachable s) by (eexists; exact Hrun).
  exists s. split; [exact Hr|]. split; [exact Hout|].
  exact (proj2 (cancels_only_sent_orders s _ _ 1 Hr Hout)).
Defined.

(** X4: in every reachable state, every insert among the gateway calls has
    a price that is a positive multiple of the tick size and a volume of at
    least 1 and at most one lot (200), and every hedge order buys at
    [MAX_ASK_NEAREST_TICK] or sells at [MIN_BID_NEAREST_TICK]. *)
Theorem orders_sent_are_well_formed (s : State) :
  reachable s ->
  (forall id sd p v l, In (InsertOrder id sd p v l) (outbox s) ->
     0 < p < ULONG_MOD /\ p mod TICK_SIZE_IN_CENTS = 0 /\ 1 <= v <= LOT_SIZE)
  /\ (forall id sd p v, In (HedgeOrder id sd p v) (outbox s) ->
        (sd = Side.BUY /\ p = MAX_ASK_NEAREST_TICK)
        \/ (sd = Side.SELL /\ p = MIN_BID_NEAREST_TICK)).
Proof.
  intros Hr. destruct (reachable_session_inv s Hr) as [_ _ _ _ _ _ _ I8 I9 _ _].
  split; assumption.
Qed.

Lemma orders_sent_are_well_formed_witness :
  reachable filled_state
  /\ (0 < 1200 < ULONG_MOD /\ 1200 mod TICK_SIZE_IN_CENTS = 0 /\ 1 <= 100 <= LOT_SIZE).
Proof.
  split; [exact filled_state_reachable|].
  apply (proj1 (orders_sent_are_well_formed filled_state filled_state_reachable)
           1 Side.SELL 1200 100 GOOD_FOR_DAY).
  left. reflexivity.
Defined.

(** ** Quotes *)

(** X6: whenever the quote of an order book is defined, both target prices
    are [unsigned long] values on the tick grid (multiples of 100), and a
    side whose best price is 0 gets the target price 0, whatever the
    position and the spread estimate. *)
Theorem target_prices_on_tick_grid
    (askP askV bidP bidV : PriceVolumeArray) (pos : Z) (q : Quote) :
  computeQuote askP askV bidP bidV pos = Some q ->
  0 <= newAskPrice q < ULONG_MOD /\ newAskPrice q mod TICK_SIZE_IN_CENTS = 0
  /\ 0 <= newBidPrice q < ULONG_MOD /\ newBidPrice q mod TICK_SIZE_IN_CENTS = 0
  /\ (arr_get askP 0 = 0 -> newAskPrice q = 0)
  /\ (arr_get bidP 0 = 0 -> newBidPrice q = 0).
Proof.
  intros H. destruct (computeQuote_shape _ _ _ _ _ _ H)
    as ((Ha & Ham & Ha0) & (Hb & Hbm & Hb0) & _).
  repeat split; try tauto; lia.
Qed.

Lemma target_prices_on_tick_grid_witness :
  computeQuote [1234] [10] [0] [0] 0 = Some (mkQuote 617 1200 0 100 100)
  /\ 1200 mod TICK_SIZE_IN_CENTS = 0.
Proof.
  assert (H : computeQuote [1234] [10] [0] [0] 0 = Some (mkQuote 617 1200 0 100 100))
    by (vm_compute; reflexivity).
  split; [exact H|].
  exact (proj1 (proj2 (target_prices_on_tick_grid _ _ _ _ _ _ H))).
Defined.

(** X5: whenever the quote is defined and the position is within the
    limit, the ask size is [POSITION_LIMIT + position] and the bid size is
    [POSITION_LIMIT - position]: they add up to one lot, and a side's size
    is 0 exactly when the position stands at the limit on that side.
    Outside the limit the conversion to [unsigned long] wraps and the size
    is a full lot: 200 on the ask for a position below -100, 200 on the bid
    for a position above 100. *)
Theorem quote_sizes (askP askV bidP bidV : PriceVolumeArray) (pos : Z) (q : Quote) :
  computeQuote askP askV bidP bidV pos = Some q ->
  (Z.abs pos <= POSITION_LIMIT ->
   askQuantity q = POSITION_LIMIT + pos /\ bidQuantity q = POSITION_LIMIT - pos
   /\ askQuantity q + bidQuantity q = LOT_SIZE
   /\ (askQuantity q = 0 <-> pos = - POSITION_LIMIT)
   /\ (bidQuantity q = 0 <-> pos = POSITION_LIMIT))
  /\ (pos < - POSITION_LIMIT -> askQuantity q = LOT_SIZE)
  /\ (POSITION_LIMIT < pos -> bidQuantity q = LOT_SIZE).
Proof.
  intros H. destruct (computeQuote_shape _ _ _ _ _ _ H)
    as (_ & _ & Hhi & Hlo & -> & ->).
  unfold POSITION_LIMIT, LOT_SIZE, LONG_MIN, LONG_MAX in *.
  split; [|split].
  - intros Hp.
    rewrite !to_ulong_small by (unfold ULONG_MOD; lia). lia.
  - intros Hp. unfold to_ulong, ULONG_MOD.
    replace ((100 + pos) mod 2 ^ 64) with (100 + pos + 2 ^ 64).
    + lia.
    + apply Z.mod_unique with (q := -1); lia.
  - intros Hp. unfold to_ulong, ULONG_MOD.
    replace ((100 - pos) mod 2 ^ 64) with (100 - pos + 2 ^ 64).
    + lia.
    + apply Z.mod_unique with (q := -1); lia.
Qed.

Lemma quote_sizes_witness :
  computeQuote [1100] [10] [900] [10] 100 = Some (mkQuote 1000 1200 800 200 0)
  /\ Z.abs 100 <= POSITION_LIMIT
  /\ bidQuantity (mkQuote 1000 1200 800 200 0) = POSITION_LIMIT - 100.
Proof.
  assert (H : computeQuote [1100] [10] [900] [10] 100 = Some (mkQuote 1000 1200 800 200 0))
    by (vm_compute; reflexivity).
  assert (Hp : Z.abs 100 <= POSITION_LIMIT) by (vm_compute; discriminate).
  split; [exact H|]. split; [exact Hp|].
  exact (proj1 (proj2 (proj1 (quote_sizes _ _ _ _ _ _ H) Hp))).
Defined.

(** ** The spread estimate *)

Lemma WeightedAverageSpread_loop_idle n : forall i askP askV bidP bidV w,
  (forall j, (i <= j < i + n)%nat -> level_idle askP askV bidP bidV j) ->
  fst (WeightedAverageSpread_loop n i askP askV bidP bidV Dbl.zero w) = Dbl.zero.
Proof.
  induction n as [|n IH]; intros i askP askV bidP bidV w Hidle; simpl; [reflexivity|].
  assert (Hi : level_idle askP askV bidP bidV i) by (apply Hidle; lia).
  destruct (negb (arr_get askP i =? 0) && negb (arr_get bidP i =? 0)) eqn:E.
  - apply andb_true_iff in E. destruct E as [Ea Eb].
    apply negb_true_iff, Z.eqb_neq in Ea. apply negb_true_iff, Z.eqb_neq in Eb.
    destruct Hi as [?|[?|Hmin]]; [contradiction | contradiction |].
    rewrite Hmin.
    change (Dbl.add Dbl.zero (Dbl.of_ulong 0)) with Dbl.zero.
    apply IH. intros j Hj. apply Hidle. lia.
  - apply IH. intros j Hj. apply Hidle. lia.
Qed.

(** X7: when every one of the five levels lacks a price on one side or has
    no volume on one side, the total spread volume is zero and the estimate
    is 0.0: the division is not carried out. *)
Theorem WeightedAverageSpread_without_volume (askP askV bidP bidV : PriceVolumeArray) :
  (forall i, (i < TOP_LEVEL_COUNT)%nat -> level_idle askP askV bidP bidV i) ->
  WeightedAverageSpread askP askV bidP bidV = Dbl.zero.
Proof.
  intros Hidle. unfold WeightedAverageSpread.
  pose proof (WeightedAverageSpread_loop_idle TOP_LEVEL_COUNT 0 askP askV bidP bidV Dbl.zero) as H.
  destruct (WeightedAverageSpread_loop _ _ _ _ _ _ _ _) as [tot wsum].
  simpl in H. rewrite H.
  - reflexivity.
  - intros j Hj. apply Hidle. lia.
Qed.

Lemma WeightedAverageSpread_without_volume_witness :
  WeightedAverageSpread [1002; 0; 1005] [0; 7; 3] [998; 990; 0] [50; 20; 4] = Dbl.zero.
Proof.
  apply WeightedAverageSpread_without_volume.
  intros i Hi. unfold level_idle, TOP_LEVEL_COUNT in *.
  destruct i as [|[|[|[|[|i]]]]]; vm_compute; try lia; auto.
Defined.

(** ** Order-book updates *)

Lemma handler_future_result n askP askV bidP bidV s s' :
  OrderBookMessageHandler FUTURE n askP askV bidP bidV s = Some s' ->
  exists q g,
    computeQuote askP askV bidP bidV (mPosition s) = Some q
    /\ s' = set_indicators g (requoteBid q (requoteAsk q s))
    /\ askDue q s' = false /\ bidDue q s' = false
    /\ mPosition s' = mPosition s.
Proof.
  intros H. apply OrderBookMessageHandler_cases in H.
  destruct H as (q & Hq & [[E _]|(_ & signal & g & _ & ->)]); [discriminate E|].
  exists q, g. split; [exact Hq|]. split; [reflexivity|].
  split; [|split].
  - change (askDue q (requoteBid q (requoteAsk q s)) = false).
    apply requoteBid_keeps_ask_settled, requoteAsk_settles.
  - change (bidDue q (requoteBid q (requoteAsk q s)) = false).
    apply requoteBid_settles.
  - change (mPosition (requoteBid q (requoteAsk q s)) = mPosition s).
    apply (sb_position _ _ (same_books_trans _ _ _ (requoteAsk_same_books q s)
                              (requoteBid_same_books q _))).
Qed.

(** X8: when the same order book for the quoted instrument is delivered
    twice in a row, the second update makes no gateway call and changes
    nothing but the indicator variables. *)
Theorem repeated_book_sends_nothing (n n' : Z) (askP askV bidP bidV : PriceVolumeArray)
    (s s1 s2 : State) :
  OrderBookMessageHandler FUTURE n askP askV bidP bidV s = Some s1 ->
  OrderBookMessageHandler FUTURE n' askP askV bidP bidV s1 = Some s2 ->
  sent_since s1 s2 = [] /\ s2 = set_indicators (indicators s2) s1.
Proof.
  intros H1 H2.
  destruct (handler_future_result _ _ _ _ _ _ _ H1) as (q & g & Hq & _ & Ha & Hb & Hp).
  destruct (handler_future_result _ _ _ _ _ _ _ H2) as (q' & g' & Hq' & Hs2 & _).
  rewrite Hp, Hq in Hq'. inversion Hq'; subst q'. clear Hq'.
  rewrite (requoteAsk_not_due q s1 Ha), (requoteBid_not_due q s1 Hb) in Hs2.
  subst s2. split.
  - apply sent_since_app. simpl. symmetry. apply app_nil_r.
  - reflexivity.
Qed.

Lemma repeated_book_sends_nothing_witness :
  exists s2,
    OrderBookMessageHandler FUTURE 1 [1100] [10] [900] [10] initial_state = Some quoted_state
    /\ OrderBookMessageHandler FUTURE 2 [1100] [10] [900] [10] quoted_state = Some s2
    /\ sent_since quoted_state s2 = [].
Proof.
  assert (H1 : OrderBookMessageHandler FUTURE 1 [1100] [10] [900] [10] initial_state
               = Some quoted_state) by (vm_compute; reflexivity).
  destruct (OrderBookMessageHandler FUTURE 2 [1100] [10] [900] [10] quoted_state)
    as [s2|] eqn:H2; [|vm_compute in H2; discriminate H2].
  exists s2. split; [exact H1|]. split; [reflexivity|].
  exact (proj1 (repeated_book_sends_nothing 1 2 _ _ _ _ _ _ _ H1 H2)).
Defined.

(** X9: an order book for the quoted instrument with no best ask and no
    best bid, received with the position within the limit and the
    indicator variables well formed, is processed without failure, makes
    no gateway call and changes nothing but the indicator variables. *)
Theorem empty_book_changes_indicators_only (n : Z)
    (askP askV bidP bidV : PriceVolumeArray) (s : State) :
  wf_indicators (indicators s) -> Z.abs (mPosition s) <= POSITION_LIMIT ->
  arr_get askP 0 = 0 -> arr_get bidP 0 = 0 ->
  exists g,
    OrderBookMessageHandler FUTURE n askP askV bidP bidV s = Some (set_indicators g s)
    /\ sent_since s (set_indicators g s) = [].
Proof.
  intros Hwf Hp Ha Hb.
  assert (Hq : exists q, computeQuote askP askV bidP bidV (mPosition s) = Some q
                         /\ newAskPrice q = 0 /\ newBidPrice q = 0).
  { unfold computeQuote.
    rewrite priceAdjustment_small by (unfold POSITION_LIMIT, LOT_SIZE in *; lia).
    unfold targetAskPrice, targetBidPrice. rewrite Ha, Hb. simpl.
    unfold long_add, long_sub.
    rewrite !long_val_in by (unfold POSITION_LIMIT, LONG_MIN, LONG_MAX in *; lia).
    eexists. split; [reflexivity|]. split; reflexivity. }
  destruct Hq as (q & Hq & Hqa & Hqb).
  destruct (OrderBookMessageHandler_defined n askP askV bidP bidV s q Hwf Hq)
    as (g & _ & _ & Hh).
  assert (Hda : askDue q s = false) by (unfold askDue; rewrite Hqa; reflexivity).
  assert (Hdb : bidDue q s = false) by (unfold bidDue; rewrite Hqb; reflexivity).
  rewrite (requoteAsk_not_due q s Hda), (requoteBid_not_due q s Hdb) in Hh.
  exists g. split; [exact Hh|].
  apply sent_since_app. simpl. symmetry. apply app_nil_r.
Qed.

Lemma empty_book_changes_indicators_only_witness :
  exists g,
    OrderBookMessageHandler FUTURE 2 [] [] [] [] quoted_state
    = Some (set_indicators g quoted_state).
Proof.
  destruct (empty_book_changes_indicators_only 2 [] [] [] [] quoted_state) as (g & H & _).
  - apply reachable_invariants, quoted_state_reachable.
  - vm_compute. discriminate.
  - reflexivity.
  - reflexivity.
  - exists g. exact H.
Defined.

Lemma requoteBid_mAsks q s : mAsks (requoteBid q s) = mAsks s.
Proof. unfold requoteBid, next_message_id. destruct s; simpl. crush_block. Qed.

(** The gateway calls of the two quote blocks, side by side. *)
Lemma quote_blocks_sent q s :
  exists ma mb,
    outbox (requoteAsk q s) = outbox s ++ ma
    /\ outbox (requoteBid q (requoteAsk q s)) = outbox s ++ ma ++ mb
    /\ (forall m, In m mb ->
          m = CancelOrder (mBidId s)
          \/ exists id, m = InsertOrder id Side.BUY (newBidPrice q) (bidQuantity q) GOOD_FOR_DAY)
    /\ (forall m, In m ma ->
          m = CancelOrder (mAskId s)
          \/ exists id, m = InsertOrder id Side.SELL (newAskPrice q) (askQuantity q) GOOD_FOR_DAY).
Proof.
  destruct (requoteAsk_sends q s) as (ma & Hoa & Hma & Ha1 & _ & _).
  destruct (requoteBid_sends q (requoteAsk q s)) as (mb & Hob & Hmb & _).
  exists ma, mb. split; [exact Hoa|]. split; [rewrite Hob, Hoa, app_assoc; reflexivity|].
  split; [rewrite <- Ha1; exact Hmb | exact Hma].
Qed.

(** X10: in a reachable state, on an order-book update for the quoted
    instrument whose quote is defined, a side that holds no order and whose
    target price is nonzero and differs from the quoted price gets a new
    order when the quote size is positive: the update sends an insert at
    the target price and size, good for the day, tracks its id and records
    it among the active orders; the ask takes the next message id, the bid
    the one after the ask block.  With a size of 0 the update sends no
    insert for the side and leaves it without an order.  Either way the
    target price becomes the quoted price. *)
Theorem idle_side_is_quoted (n : Z) (askP askV bidP bidV : PriceVolumeArray)
    (s : State) (q : Quote) :
  reachable s ->
  computeQuote askP askV bidP bidV (mPosition s) = Some q ->
  exists s',
    OrderBookMessageHandler FUTURE n askP askV bidP bidV s = Some s'
    /\ (mAskId s = 0 -> newAskPrice q <> 0 -> newAskPrice q <> mAskPrice s ->
        mAskPrice s' = newAskPrice q
        /\ (0 < askQuantity q ->
            In (InsertOrder (mNextMessageId s) Side.SELL (newAskPrice q) (askQuantity q)
                  GOOD_FOR_DAY) (sent_since s s')
            /\ mAskId s' = mNextMessageId s /\ mNextMessageId s ∈ mAsks s'
            /\ PendingCancelAsk s' = false)
        /\ (askQuantity q <= 0 ->
            mAskId s' = 0
            /\ forall m, In m (sent_since s s') -> is_sell_insert m = false))
    /\ (mBidId s = 0 -> newBidPrice q <> 0 -> newBidPrice q <> mBidPrice s ->
        mBidPrice s' = newBidPrice q
        /\ (0 < bidQuantity q ->
            In (InsertOrder (mNextMessageId (requoteAsk q s)) Side.BUY (newBidPrice q)
                  (bidQuantity q) GOOD_FOR_DAY) (sent_since s s')
            /\ mBidId s' = mNextMessageId (requoteAsk q s)
            /\ mNextMessageId (requoteAsk q s) ∈ mBids s'
            /\ PendingCancelBid s' = false)
        /\ (bidQuantity q <= 0 ->
            mBidId s' = 0
            /\ forall m, In m (sent_since s s') -> is_buy_insert m = false)).
Proof.
  intros Hr Hq.
  destruct (reachable_invariants s Hr) as (_ & _ & Hwf).
  pose proof (reachable_session_inv s Hr) as Hinv.
  destruct (OrderBookMessageHandler_defined n askP askV bidP bidV s q Hwf Hq)
    as (g & _ & _ & Hh).
  eexists. split; [exact Hh|].
  destruct (quote_blocks_sent q s) as (ma & mb & Hoa & Hob & Hmb & Hma).
  assert (Hout : sent_since s (set_indicators g (requoteBid q (requoteAsk q s))) = ma ++ mb).
  { apply sent_since_app. exact Hob. }
  rewrite Hout.
  destruct (requoteAsk_sends q s) as (_ & _ & _ & Ha1 & Ha2 & Ha3).
  destruct (requoteBid_sends q (requoteAsk q s)) as (_ & _ & _ & Hb1 & Hb2 & Hb3).
  change (mAskPrice (set_indicators g (requoteBid q (requoteAsk q s))))
    with (mAskPrice (requoteBid q (requoteAsk q s))).
  change (mAskId (set_indicators g (requoteBid q (requoteAsk q s))))
    with (mAskId (requoteBid q (requoteAsk q s))).
  change (mAsks (set_indicators g (requoteBid q (requoteAsk q s))))
    with (mAsks (requoteBid q (requoteAsk q s))).
  change (PendingCancelAsk (set_indicators g (requoteBid q (requoteAsk q s))))
    with (PendingCancelAsk (requoteBid q (requoteAsk q s))).
  change (mBidPrice (set_indicators g (requoteBid q (requoteAsk q s))))
    with (mBidPrice (requoteBid q (requoteAsk q s))).
  change (mBidId (set_indicators g (requoteBid q (requoteAsk q s))))
    with (mBidId (requoteBid q (requoteAsk q s))).
  change (mBids (set_indicators g (requoteBid q (requoteAsk q s))))
    with (mBids (requoteBid q (requoteAsk q s))).
  change (PendingCancelBid (set_indicators g (requoteBid q (requoteAsk q s))))
    with (PendingCancelBid (requoteBid q (requoteAsk q s))).
  split.
  - intros Hid Hnz Hne.
    assert (Hdue : askDue q s = true) by (apply due_true; assumption).
    assert (Hpend : PendingCancelAsk s = false).
    { destruct (PendingCancelAsk s) eqn:E; [|reflexivity].
      exfalso. exact (si_pending_ask s Hinv E Hid). }
    rewrite Hb1, Hb2, Hb3, requoteBid_mAsks.
    destruct (requoteAsk_cases q s)
      as [(Hd & _)|[(_ & Hid' & _)|[(_ & _ & Hc & E)|(_ & _ & _ & Hqty & E)]]].
    + rewrite Hd in Hdue. discriminate Hdue.
    + contradiction.
    + destruct Hc as [Hc|Hc]; [rewrite Hc in Hpend; discriminate Hpend|].
      split; [rewrite E; reflexivity|]. split; [intros ?; lia|].
      intros _. split; [rewrite E; exact Hid|].
      assert (Hma0 : ma = []).
      { apply (app_inv_head (outbox s)). rewrite <- Hoa, E, app_nil_r. reflexivity. }
      subst ma. simpl. intros m Hin.
      destruct (Hmb m Hin) as [->|[id ->]]; reflexivity.
    + split; [rewrite E; reflexivity|]. split; [|intros ?; lia].
      intros _.
      assert (Hma1 : ma = [InsertOrder (mNextMessageId s) Side.SELL (newAskPrice q)
                             (askQuantity q) GOOD_FOR_DAY]).
      { apply (app_inv_head (outbox s)). rewrite <- Hoa, E. reflexivity. }
      subst ma. split; [left; reflexivity|].
      rewrite E. split; [reflexivity|]. split; [|exact Hpend].
      change (mNextMessageId s ∈ {[mNextMessageId s]} ∪ mAsks s).
      apply elem_of_union_l, elem_of_singleton. reflexivity.
  - intros Hid Hnz Hne.
    set (s1 := requoteAsk q s) in *.
    assert (Hdue : bidDue q s1 = true).
    { unfold bidDue. rewrite Ha3. apply due_true; assumption. }
    assert (Hid1 : mBidId s1 = 0) by (rewrite Ha1; exact Hid).
    assert (Hpend : PendingCancelBid s1 = false).
    { rewrite Ha2. destruct (PendingCancelBid s) eqn:E; [|reflexivity].
      exfalso. exact (si_pending_bid s Hinv E Hid). }
    destruct (requoteBid_cases q s1)
      as [(Hd & _)|[(_ & Hid' & _)|[(_ & _ & Hc & E)|(_ & _ & _ & Hqty & E)]]].
    + rewrite Hd in Hdue. discriminate Hdue.
    + contradiction.
    + destruct Hc as [Hc|Hc]; [rewrite Hc in Hpend; discriminate Hpend|].
      split; [rewrite E; reflexivity|]. split; [intros ?; lia|].
      intros _. split; [rewrite E; exact Hid1|].
      assert (Hmb0 : mb = []).
      { apply (app_inv_head (outbox s ++ ma)).
        rewrite <- app_assoc, <- Hob, E, app_nil_r. simpl. rewrite Hoa. reflexivity. }
      subst mb. rewrite app_nil_r. intros m Hin.
      destruct (Hma m Hin) as [->|[id ->]]; reflexivity.
    + split; [rewrite E; reflexivity|]. split; [|intros ?; lia].
      intros _.
      assert (Hmb1 : mb = [InsertOrder (mNextMessageId s1) Side.BUY (newBidPrice q)
                             (bidQuantity q) GOOD_FOR_DAY]).
      { apply (app_inv_head (outbox s ++ ma)).
        rewrite <- app_assoc, <- Hob, E. simpl. unfold s1 at 2. rewrite Hoa. reflexivity. }
      subst mb. split; [apply in_or_app; right; left; reflexivity|].
      rewrite E. split; [reflexivity|]. split; [|exact Hpend].
      change (mNextMessageId s1 ∈ {[mNextMessageId s1]} ∪ mBids s1).
      apply elem_of_union_l, elem_of_singleton. reflexivity.
Qed.

Lemma initial_state_reachable : reachable initial_state.
Proof. exists []. reflexivity. Qed.

Lemma idle_side_is_quoted_witness :
  reachable initial_state
  /\ computeQuote [1100] [10] [900] [10] (mPosition initial_state)
     = Some (mkQuote 1000 1200 800 100 100)
  /\ exists s',
       OrderBookMessageHandler FUTURE 1 [1100] [10] [900] [10] initial_state = Some s'
       /\ mAskId s' = 1 /\ mBidId s' = 2.
Proof.
  assert (Hq : computeQuote [1100] [10] [900] [10] (mPosition initial_state)
               = Some (mkQuote 1000 1200 800 100 100)) by (vm_compute; reflexivity).
  split; [exact initial_state_reachable|]. split; [exact Hq|].
  destruct (idle_side_is_quoted 1 _ _ _ _ _ _ initial_state_reachable Hq)
    as (s' & Hs' & Hask & Hbid).
  exists s'. split; [exact Hs'|]. split.
  - destruct Hask as (_ & Hins & _); [reflexivity | discriminate | discriminate |].
    destruct Hins as (_ & Hid & _); [reflexivity | exact Hid].
  - destruct Hbid as (_ & Hins & _); [reflexivity | discriminate | discriminate |].
    destruct Hins as (_ & Hid & _); [reflexivity | exact Hid].
Defined.

(** X15: while a cancel is pending for a resting order, every further
    order-book update whose target price has moved again sends one more
    cancel for the same id and no insert for that side; the id stays
    tracked and the flag stays set. *)
Theorem pending_cancel_is_repeated (n : Z) (askP askV bidP bidV : PriceVolumeArray)
    (s : State) (q : Quote) :
  wf_indicators (indicators s) ->
  computeQuote askP askV bidP bidV (mPosition s) = Some q ->
  exists s',
    OrderBookMessageHandler FUTURE n askP askV bidP bidV s = Some s'
    /\ (PendingCancelAsk s = true -> mAskId s <> 0 ->
        newAskPrice q <> 0 -> newAskPrice q <> mAskPrice s ->
        In (CancelOrder (mAskId s)) (sent_since s s')
        /\ (forall m, In m (sent_since s s') -> is_sell_insert m = false)
        /\ mAskId s' = mAskId s /\ PendingCancelAsk s' = true)
    /\ (PendingCancelBid s = true -> mBidId s <> 0 ->
        newBidPrice q <> 0 -> newBidPrice q <> mBidPrice s ->
        In (CancelOrder (mBidId s)) (sent_since s s')
        /\ (forall m, In m (sent_since s s') -> is_buy_insert m = false)
        /\ mBidId s' = mBidId s /\ PendingCancelBid s' = true).
Proof.
  intros Hwf Hq.
  destruct (OrderBookMessageHandler_defined n askP askV bidP bidV s q Hwf Hq)
    as (g & _ & _ & Hh).
  eexists. split; [exact Hh|].
  destruct (quote_blocks_sent q s) as (ma & mb & Hoa & Hob & Hmb & Hma).
  assert (Hout : sent_since s (set_indicators g (requoteBid q (requoteAsk q s))) = ma ++ mb).
  { apply sent_since_app. exact Hob. }
  rewrite Hout.
  destruct (requoteAsk_sends q s) as (_ & _ & _ & Ha1 & Ha2 & Ha3).
  destruct (requoteBid_sends q (requoteAsk q s)) as (_ & _ & _ & Hb1 & Hb2 & Hb3).
  change (mAskId (set_indicators g (requoteBid q (requoteAsk q s))))
    with (mAskId (requoteBid q (requoteAsk q s))).
  change (PendingCancelAsk (set_indicators g (requoteBid q (requoteAsk q s))))
    with (PendingCancelAsk (requoteBid q (requoteAsk q s))).
  change (mBidId (set_indicators g (requoteBid q (requoteAsk q s))))
    with (mBidId (requoteBid q (requoteAsk q s))).
  change (PendingCancelBid (set_indicators g (requoteBid q (requoteAsk q s))))
    with (PendingCancelBid (requoteBid q (requoteAsk q s))).
  split.
  - intros _ Hid Hnz Hne.
    assert (Hdue : askDue q s = true) by (apply due_true; assumption).
    pose proof (requoteAsk_resting q s Hdue Hid) as E.
    assert (Hma1 : ma = [CancelOrder (mAskId s)]).
    { apply (app_inv_head (outbox s)). rewrite <- Hoa, E. reflexivity. }
    subst ma. rewrite Hb1, Hb2, E.
    split; [left; reflexivity|]. split; [|split; reflexivity].
    intros m [<-|Hin]; [reflexivity|].
    destruct (Hmb m Hin) as [->|[id ->]]; reflexivity.
  - intros _ Hid Hnz Hne.
    set (s1 := requoteAsk q s) in *.
    assert (Hdue : bidDue q s1 = true).
    { unfold bidDue. rewrite Ha3. apply due_true; assumption. }
    assert (Hid1 : mBidId s1 <> 0) by (rewrite Ha1; exact Hid).
    pose proof (requoteBid_resting q s1 Hdue Hid1) as E.
    assert (Hmb1 : mb = [CancelOrder (mBidId s)]).
    { assert (Hx : outbox (requoteBid q s1)
                   = (outbox s ++ ma) ++ [CancelOrder (mBidId s)])
        by (rewrite E, <- Hoa, <- Ha1; reflexivity).
      rewrite Hob, app_assoc in Hx. exact (app_inv_head _ _ _ Hx). }
    subst mb. rewrite E.
    split; [apply in_or_app; right; left; reflexivity|].
    split; [|split; [exact Ha1 | reflexivity]].
    intros m Hin. apply in_app_or in Hin. destruct Hin as [Hin|[<-|[]]]; [|reflexivity].
    destruct (Hma m Hin) as [->|[id ->]]; reflexivity.
Qed.

Lemma pending_cancel_is_repeated_witness :
  wf_indicators (indicators cancel_pending_state)
  /\ computeQuote [1300] [10] [1100] [10] (mPosition cancel_pending_state)
     = Some (mkQuote 1200 1400 1000 100 100)
  /\ exists s',
       OrderBookMessageHandler FUTURE 2 [1300] [10] [1100] [10] cancel_pending_state = Some s'
       /\ In (CancelOrder 1) (sent_since cancel_pending_state s')
       /\ In (CancelOrder 2) (sent_since cancel_pending_state s').
Proof.
  assert (Hwf : wf_indicators (indicators cancel_pending_state))
    by (apply (reachable_invariants quoted_state), quoted_state_reachable).
  assert (Hq : computeQuote [1300] [10] [1100] [10] (mPosition cancel_pending_state)
               = Some (mkQuote 1200 1400 1000 100 100)) by (vm_compute; reflexivity).
  split; [exact Hwf|]. split; [exact Hq|].
  destruct (pending_cancel_is_repeated 2 _ _ _ _ cancel_pending_state _ Hwf Hq)
    as (s' & Hs' & Hask & Hbid).
  exists s'. split; [exact Hs'|]. split.
  - apply Hask; [reflexivity | discriminate | discriminate | discriminate].
  - apply Hbid; [reflexivity | discriminate | discriminate | discriminate].
Defined.

(** ** Fills *)

(** What a fill does besides moving the position. *)
Lemma OrderFilledMessageHandler_effect id p v s s' :
  OrderFilledMessageHandler id p v s = Some s' ->
  outbox s' = outbox s ++ hedge_for id v s
  /\ lotSize s' = map_emplace id v (lotSize s)
  /\ shortInventory s'
     = (if set_has id (mAsks s) then map_emplace id p (shortInventory s)
        else shortInventory s)
  /\ longInventory s'
     = (if set_has id (mAsks s) then longInventory s
        else if set_has id (mBids s) then map_emplace id p (longInventory s)
        else longInventory s)
  /\ mNextMessageId s'
     = (if set_has id (mAsks s) || set_has id (mBids s)
        then ulong_add (mNextMessageId s) 1 else mNextMessageId s)
  /\ mAskId s' = mAskId s /\ mBidId s' = mBidId s
  /\ PendingCancelAsk s' = PendingCancelAsk s /\ PendingCancelBid s' = PendingCancelBid s
  /\ mAsks s' = mAsks s /\ mBids s' = mBids s
  /\ mAskPrice s' = mAskPrice s /\ mBidPrice s' = mBidPrice s.
Proof.
  unfold OrderFilledMessageHandler, hedge_for.
  destruct (set_has id (mAsks s)); [|destruct (set_has id (mBids s))].
  - destruct (long_sub _ _) as [np|]; [|discriminate].
    destruct (askFillAccepted _ _) as [ok|]; [|discriminate].
    intros H; inversion H; subst s'; clear H.
    destruct ok; destruct s; simpl; repeat split; reflexivity.
  - destruct (long_add _ _) as [np|]; [|discriminate].
    destruct (bidFillAccepted _ _) as [ok|]; [|discriminate].
    intros H; inversion H; subst s'; clear H.
    destruct ok; destruct s; simpl; repeat split; reflexivity.
  - intros H; inversion H; subst s'; clear H.
    destruct s; simpl. rewrite app_nil_r. repeat split; reflexivity.
Qed.




(** ** A side whose cancel is never acknowledged *)

Lemma OrderStatusMessageHandler_other_ask id f r fees s :
  id <> mAskId s ->
  mAskId (OrderStatusMessageHandler id f r fees s) = mAskId s
  /\ PendingCancelAsk (OrderStatusMessageHandler id f r fees s) = PendingCancelAsk s
  /\ outbox (OrderStatusMessageHandler id f r fees s) = outbox s.
Proof.
  intros Hne. apply Z.eqb_neq in Hne.
  unfold OrderStatusMessageHandler. rewrite Hne.
  destruct s; simpl in *.
  repeat match goal with
         | |- context [if ?b then _ else _] => destruct b; simpl
         end; repeat split; reflexivity.
Qed.

Lemma OrderStatusMessageHandler_other_bid id f r fees s :
  id <> mBidId s ->
  mBidId (OrderStatusMessageHandler id f r fees s) = mBidId s
  /\ PendingCancelBid (OrderStatusMessageHandler id f r fees s) = PendingCancelBid s
  /\ outbox (OrderStatusMessageHandler id f r fees s) = outbox s.
Proof.
  intros Hne. apply Z.eqb_neq in Hne.
  unfold OrderStatusMessageHandler. rewrite Hne.
  destruct s; simpl in *.
  repeat match goal with
         | |- context [if ?b then _ else _] => destruct b; simpl
         end; repeat split; reflexivity.
Qed.

Lemma hedge_for_no_insert id v s m :
  In m (hedge_for id v s) -> is_sell_insert m = false /\ is_buy_insert m = false.
Proof.
  unfold hedge_for.
  destruct (set_has id (mAsks s)); [|destruct (set_has id (mBids s))];
    simpl; intros Hin;
    repeat (destruct Hin as [<-|Hin]; [split; reflexivity|]); contradiction.
Qed.

(** One notification, other than a status update or an error for the
    tracked ask, leaves a pending ask pending and sends no ask. *)
Lemma step_pending_ask s e s' :
  PendingCancelAsk s = true -> about_order (mAskId s) e = false ->
  step s e = Some s' ->
  PendingCancelAsk s' = true /\ mAskId s' = mAskId s
  /\ exists ms, outbox s' = outbox s ++ ms
                /\ forall m, In m ms -> is_sell_insert m = false.
Proof.
  intros Hp Hab H.
  destruct e as [i n b|i n b|id p v|id f r fees|id p v|id msg|]; simpl in *.
  - apply OrderBookMessageHandler_cases in H.
    destruct H as (q & _ & [[_ ->]|(_ & signal & g & _ & ->)]).
    + split; [exact Hp|]. split; [reflexivity|]. exists [].
      split; [symmetry; apply app_nil_r | intros m []].
    + destruct (requoteBid_sends q (requoteAsk q s)) as (mb & Hob & Hmb & Hb1 & Hb2 & _).
      change (PendingCancelAsk (requoteBid q (requoteAsk q s)) = true
              /\ mAskId (requoteBid q (requoteAsk q s)) = mAskId s
              /\ exists ms, outbox (requoteBid q (requoteAsk q s)) = outbox s ++ ms
                            /\ forall m, In m ms -> is_sell_insert m = false).
      rewrite Hb1, Hb2, Hob.
      assert (Hmb' : forall m, In m mb -> is_sell_insert m = false).
      { intros m Hin. destruct (Hmb m Hin) as [->|[id ->]]; reflexivity. }
      destruct (requoteAsk_cases q s)
        as [(_ & ->)|[(_ & _ & ->)|[(_ & _ & _ & ->)|(_ & _ & Hc & _)]]].
      * split; [exact Hp|]. split; [reflexivity|]. exists mb. split; [reflexivity|exact Hmb'].
      * split; [reflexivity|]. split; [reflexivity|].
        exists (CancelOrder (mAskId s) :: mb). split.
        -- unfold SendCancelOrder, send. simpl. rewrite <- app_assoc. reflexivity.
        -- intros m [<-|Hin]; [reflexivity | auto].
      * split; [exact Hp|]. split; [reflexivity|]. exists mb. split; [reflexivity|exact Hmb'].
      * rewrite Hc in Hp. discriminate Hp.
  - inversion H; subst. split; [exact Hp|]. split; [reflexivity|]. exists [].
    split; [symmetry; apply app_nil_r | intros m []].
  - destruct (OrderFilledMessageHandler_effect _ _ _ _ _ H)
      as (Hout & _ & _ & _ & _ & Hid & _ & Hpa & _).
    split; [congruence|]. split; [exact Hid|].
    exists (hedge_for id v s). split; [exact Hout|].
    intros m Hin. apply (hedge_for_no_insert _ _ _ _ Hin).
  - inversion H; subst.
    apply Z.eqb_neq in Hab.
    destruct (OrderStatusMessageHandler_other_ask id f r fees s Hab) as (-> & -> & ->).
    split; [exact Hp|]. split; [reflexivity|]. exists [].
    split; [symmetry; apply app_nil_r | intros m []].
  - inversion H; subst. split; [exact Hp|]. split; [reflexivity|]. exists [].
    split; [symmetry; apply app_nil_r | intros m []].
  - inversion H; subst. apply Z.eqb_neq in Hab.
    unfold ErrorMessageHandler. destruct (_ && _).
    + destruct (OrderStatusMessageHandler_other_ask id 0 0 0 s Hab) as (-> & -> & ->).
      split; [exact Hp|]. split; [reflexivity|]. exists [].
      split; [symmetry; apply app_nil_r | intros m []].
    + split; [exact Hp|]. split; [reflexivity|]. exists [].
      split; [symmetry; apply app_nil_r | intros m []].
  - inversion H; subst. split; [exact Hp|]. split; [reflexivity|]. exists [].
    split; [symmetry; apply app_nil_r | intros m []].
Qed.

Lemma step_pending_bid s e s' :
  PendingCancelBid s = true -> about_order (mBidId s) e = false ->
  step s e = Some s' ->
  PendingCancelBid s' = true /\ mBidId s' = mBidId s
  /\ exists ms, outbox s' = outbox s ++ ms
                /\ forall m, In m ms -> is_buy_insert m = false.
Proof.
  intros Hp Hab H.
  destruct e as [i n b|i n b|id p v|id f r fees|id p v|id msg|]; simpl in *.
  - apply OrderBookMessageHandler_cases in H.
    destruct H as (q & _ & [[_ ->]|(_ & signal & g & _ & ->)]).
    + split; [exact Hp|]. split; [reflexivity|]. exists [].
      split; [symmetry; apply app_nil_r | intros m []].
    + destruct (requoteAsk_sends q s) as (ma & Hoa & Hma & Ha1 & Ha2 & _).
      change (PendingCancelBid (requoteBid q (requoteAsk q s)) = true
              /\ mBidId (requoteBid q (requoteAsk q s)) = mBidId s
              /\ exists ms, outbox (requoteBid q (requoteAsk q s)) = outbox s ++ ms
                            /\ forall m, In m ms -> is_buy_insert m = false).
      assert (Hma' : forall m, In m ma -> is_buy_insert m = false).
      { intros m Hin. destruct (Hma m Hin) as [->|[id ->]]; reflexivity. }
      set (s1 := requoteAsk q s) in *.
      assert (Hp1 : PendingCancelBid s1 = true) by congruence.
      destruct (requoteBid_cases q s1)
        as [(_ & ->)|[(_ & _ & ->)|[(_ & _ & _ & ->)|(_ & _ & Hc & _)]]].
      * split; [exact Hp1|]. split; [exact Ha1|]. exists ma.
        split; [exact Hoa | exact Hma'].
      * split; [reflexivity|]. split; [exact Ha1|].
        exists (ma ++ [CancelOrder (mBidId s1)]). split.
        -- unfold SendCancelOrder, send. simpl. rewrite Hoa, <- app_assoc. reflexivity.
        -- intros m Hin. apply in_app_or in Hin.
           destruct Hin as [Hin|[<-|[]]]; [auto | reflexivity].
      * split; [exact Hp1|]. split; [exact Ha1|]. exists ma.
        split; [exact Hoa | exact Hma'].
      * rewrite Hc in Hp1. discriminate Hp1.
  - inversion H; subst. split; [exact Hp|]. split; [reflexivity|]. exists [].
    split; [symmetry; apply app_nil_r | intros m []].
  - destruct (OrderFilledMessageHandler_effect _ _ _ _ _ H)
      as (Hout & _ & _ & _ & _ & _ & Hid & _ & Hpb & _).
    split; [congruence|]. split; [exact Hid|].
    exists (hedge_for id v s). split; [exact Hout|].
    intros m Hin. apply (hedge_for_no_insert _ _ _ _ Hin).
  - inversion H; subst.
    apply Z.eqb_neq in Hab.
    destruct (OrderStatusMessageHandler_other_bid id f r fees s Hab) as (-> & -> & ->).
    split; [exact Hp|]. split; [reflexivity|]. exists [].
    split; [symmetry; apply app_nil_r | intros m []].
  - inversion H; subst. split; [exact Hp|]. split; [reflexivity|]. exists [].
    split; [symmetry; apply app_nil_r | intros m []].
  - inversion H; subst. apply Z.eqb_neq in Hab.
    unfold ErrorMessageHandler. destruct (_ && _).
    + destruct (OrderStatusMessageHandler_other_bid id 0 0 0 s Hab) as (-> & -> & ->).
      split; [exact Hp|]. split; [reflexivity|]. exists [].
      split; [symmetry; apply app_nil_r | intros m []].
    + split; [exact Hp|]. split; [reflexivity|]. exists [].
      split; [symmetry; apply app_nil_r | intros m []].
  - inversion H; subst. split; [exact Hp|]. split; [reflexivity|]. exists [].
    split; [symmetry; apply app_nil_r | intros m []].
Qed.

Lemma run_pending_ask events : forall s s',
  PendingCancelAsk s = true ->
  Forall (fun e => about_order (mAskId s) e = false) events ->
  run s events = Some s' ->
  PendingCancelAsk s' = true /\ mAskId s' = mAskId s
  /\ exists ms, outbox s' = outbox s ++ ms
                /\ forall m, In m ms -> is_sell_insert m = false.
Proof.
  induction events as [|e events IH]; intros s s' Hp Hall H; simpl in H.
  - inversion H; subst. split; [exact Hp|]. split; [reflexivity|].
    exists []. split; [symmetry; apply app_nil_r|]. intros m Hin. destruct Hin.
  - inversion Hall as [|e0 l He Hrest]; subst.
    destruct (step s e) as [s1|] eqn:E; [|discriminate].
    destruct (step_pending_ask _ _ _ Hp He E) as (Hp1 & Hid1 & ms1 & Ho1 & Hm1).
    rewrite <- Hid1 in Hrest.
    destruct (IH _ _ Hp1 Hrest H) as (Hp2 & Hid2 & ms2 & Ho2 & Hm2).
    split; [exact Hp2|]. split; [congruence|].
    exists (ms1 ++ ms2). split; [rewrite Ho2, Ho1, app_assoc; reflexivity|].
    intros m Hin. apply in_app_or in Hin. destruct Hin; auto.
Qed.

Lemma run_pending_bid events : forall s s',
  PendingCancelBid s = true ->
  Forall (fun e => about_order (mBidId s) e = false) events ->
  run s events = Some s' ->
  PendingCancelBid s' = true /\ mBidId s' = mBidId s
  /\ exists ms, outbox s' = outbox s ++ ms
                /\ forall m, In m ms -> is_buy_insert m = false.
Proof.
  induction events as [|e events IH]; intros s s' Hp Hall H; simpl in H.
  - inversion H; subst. split; [exact Hp|]. split; [reflexivity|].
    exists []. split; [symmetry; apply app_nil_r|]. intros m Hin. destruct Hin.
  - inversion Hall as [|e0 l He Hrest]; subst.
    destruct (step s e) as [s1|] eqn:E; [|discriminate].
    destruct (step_pending_bid _ _ _ Hp He E) as (Hp1 & Hid1 & ms1 & Ho1 & Hm1).
    rewrite <- Hid1 in Hrest.
    destruct (IH _ _ Hp1 Hrest H) as (Hp2 & Hid2 & ms2 & Ho2 & Hm2).
    split; [exact Hp2|]. split; [congruence|].
    exists (ms1 ++ ms2). split; [rewrite Ho2, Ho1, app_assoc; reflexivity|].
    intros m Hin. apply in_app_or in Hin. destruct Hin; auto.
Qed.

(** X14: a side whose cancel is pending stays pending, keeps its tracked
    id and sends no insert through any run of notifications that holds no
    status update and no error for the tracked id: nothing but the
    acknowledgement of the cancel (or an error for the order) lets the side
    quote again. *)
Theorem pending_side_sends_no_order (s : State) (events : list Event) (s' : State) :
  run s events = Some s' ->
  (PendingCancelAsk s = true ->
   Forall (fun e => about_order (mAskId s) e = false) events ->
   PendingCancelAsk s' = true /\ mAskId s' = mAskId s
   /\ forall m, In m (sent_since s s') -> is_sell_insert m = false)
  /\ (PendingCancelBid s = true ->
      Forall (fun e => about_order (mBidId s) e = false) events ->
      PendingCancelBid s' = true /\ mBidId s' = mBidId s
      /\ forall m, In m (sent_since s s') -> is_buy_insert m = false).
Proof.
  intros H. split; intros Hp Hall.
  - destruct (run_pending_ask _ _ _ Hp Hall H) as (Hp' & Hid & ms & Ho & Hm).
    split; [exact Hp'|]. split; [exact Hid|].
    rewrite (sent_since_app _ _ _ Ho). exact Hm.
  - destruct (run_pending_bid _ _ _ Hp Hall H) as (Hp' & Hid & ms & Ho & Hm).
    split; [exact Hp'|]. split; [exact Hid|].
    rewrite (sent_since_app _ _ _ Ho). exact Hm.
Qed.

Lemma pending_side_sends_no_order_witness :
  exists s',
    run cancel_pending_state
      [EvOrderBook FUTURE 3 book2; EvOrderFilled 1 1200 10;
       EvOrderStatus 2 0 0 0; EvOrderBook FUTURE 4 book1] = Some s'
    /\ PendingCancelAsk s' = true /\ mAskId s' = 1.
Proof.
  destruct (run cancel_pending_state
              [EvOrderBook FUTURE 3 book2; EvOrderFilled 1 1200 10;
               EvOrderStatus 2 0 0 0; EvOrderBook FUTURE 4 book1]) as [s'|] eqn:E;
    [|vm_compute in E; discriminate E].
  exists s'. split; [reflexivity|].
  destruct (proj1 (pending_side_sends_no_order _ _ _ E)) as (Hp & Hid & _).
  - reflexivity.
  - repeat constructor.
  - split; [exact Hp | exact Hid].
Defined.

(** ** Errors *)

(** X1: an error notification for a nonzero id that is in an active set
    has the effect of a status update with zero remaining volume: the id
    leaves both active sets; if it is the tracked ask, the ask id and its
    pending flag are cleared, otherwise, if it is the tracked bid, the bid
    id and its flag; no gateway call is made, and the position, the prices,
    the inventory and the message counter stay as they are.  An error with
    id 0, or for an id in neither set, changes nothing. *)
Theorem error_clears_active_order (id : Z) (msg : string) (s : State) :
  id <> 0 -> (id ∈ mAsks s) \/ (id ∈ mBids s) ->
  let s' := ErrorMessageHandler id msg s in
  s' = OrderStatusMessageHandler id 0 0 0 s
  /\ (id ∉ mAsks s') /\ (id ∉ mBids s')
  /\ (forall k, k <> id -> (k ∈ mAsks s' <-> k ∈ mAsks s) /\ (k ∈ mBids s' <-> k ∈ mBids s))
  /\ (id = mAskId s -> mAskId s' = 0 /\ PendingCancelAsk s' = false)
  /\ (id <> mAskId s -> mAskId s' = mAskId s /\ PendingCancelAsk s' = PendingCancelAsk s)
  /\ (id <> mAskId s -> id = mBidId s -> mBidId s' = 0 /\ PendingCancelBid s' = false)
  /\ outbox s' = outbox s /\ mPosition s' = mPosition s
  /\ mNextMessageId s' = mNextMessageId s
  /\ mAskPrice s' = mAskPrice s /\ mBidPrice s' = mBidPrice s
  /\ longInventory s' = longInventory s /\ shortInventory s' = shortInventory s
  /\ lotSize s' = lotSize s
  /\ (forall msg' id', id' = 0 \/ ((id' ∉ mAsks s) /\ (id' ∉ mBids s)) ->
        ErrorMessageHandler id' msg' s = s).
Proof.
  intros Hnz Hact. cbv zeta.
  assert (E : ErrorMessageHandler id msg s = OrderStatusMessageHandler id 0 0 0 s).
  { unfold ErrorMessageHandler, set_has.
    apply Z.eqb_neq in Hnz. rewrite Hnz. simpl.
    destruct Hact as [H|H].
    - rewrite (bool_decide_eq_true_2 _ H). reflexivity.
    - rewrite (bool_decide_eq_true_2 _ H), orb_true_r. reflexivity. }
  rewrite E. split; [reflexivity|].
  unfold OrderStatusMessageHandler, set_has. simpl.
  assert (Hlast : forall msg' id', id' = 0 \/ ((id' ∉ mAsks s) /\ (id' ∉ mBids s)) ->
                    ErrorMessageHandler id' msg' s = s).
  { intros msg' id' [->|[Ha Hb]]; unfold ErrorMessageHandler, set_has.
    - reflexivity.
    - rewrite (bool_decide_eq_false_2 _ Ha), (bool_decide_eq_false_2 _ Hb).
      rewrite andb_false_r. reflexivity. }
  destruct (id =? mAskId s) eqn:Ea; [|destruct (id =? mBidId s) eqn:Eb];
    destruct s; simpl in *;
    repeat match goal with
           | |- context [bool_decide ?P] => destruct (bool_decide P) eqn:?; simpl
           end;
    repeat match goal with
           | H : bool_decide _ = true |- _ => apply bool_decide_eq_true_1 in H
           | H : bool_decide _ = false |- _ => apply bool_decide_eq_false_1 in H
           | H : (_ =? _) = true |- _ => apply Z.eqb_eq in H
           | H : (_ =? _) = false |- _ => apply Z.eqb_neq in H
           end;
    repeat split; try reflexivity; try congruence;
    rewrite ?elem_of_difference, ?elem_of_singleton in *; intuition congruence.
Qed.

Lemma error_clears_active_order_witness :
  1 <> 0 /\ (1 ∈ mAsks quoted_state)
  /\ mAskId (ErrorMessageHandler 1 EmptyString quoted_state) = 0
  /\ (1 ∉ mAsks (ErrorMessageHandler 1 EmptyString quoted_state)).
Proof.
  assert (H1 : 1 <> 0) by discriminate.
  assert (Hin : 1 ∈ mAsks quoted_state)
    by (apply (bool_decide_eq_true_1 (1 ∈ mAsks quoted_state)); vm_compute; reflexivity).
  split; [exact H1|]. split; [exact Hin|].
  destruct (error_clears_active_order 1 EmptyString quoted_state H1 (or_introl Hin))
    as (_ & Hout & _ & _ & Hask & _).
  split; [apply Hask; reflexivity | exact Hout].
Defined.

(** ** The indicator windows over a session *)

(** What one notification does to the indicator variables: an order book
    for the quoted instrument is one call of [Ichimoku]; anything else
    leaves them alone. *)
Lemma step_indicators s e s' :
  step s e = Some s' ->
  wf_indicators (indicators s) -> sums_found (indicators s) ->
  wf_indicators (indicators s') /\ sums_found (indicators s')
  /\ (is_future_book e = false -> indicators s' = indicators s)
  /\ (is_future_book e = true ->
      conversionLineCount (indicators s')
      = Z.min (conversionLineCount (indicators s) + 1) conversion_line_size
      /\ baselineCount (indicators s')
         = Z.min (baselineCount (indicators s) + 1) baseline_size
      /\ leadingSpanBCount (indicators s')
         = Z.min (leadingSpanBCount (indicators s) + 1) leading_span_b_window
      /\ laggingSpanCount (indicators s')
         = Z.min (laggingSpanCount (indicators s) + 1) baseline_size).
Proof.
  intros H Hwf Hs.
  destruct e as [i n b|i n b|id p v|id f r fees|id p v|id msg|]; simpl in H.
  - apply OrderBookMessageHandler_cases in H.
    destruct H as (q & _ & [[-> ->]|(-> & signal & g & Hi & ->)]).
    + split; [exact Hwf|]. split; [exact Hs|]. split; [reflexivity|discriminate].
    + destruct (Ichimoku_sums (askPrices b) (askVolumes b) (bidPrices b) (bidVolumes b)
                  (indicators s) Hwf Hs) as (g' & Hg' & Hwf' & Hs' & K).
      rewrite Hg' in Hi. inversion Hi; subst g'.
      split; [exact Hwf'|]. split; [exact Hs'|]. split; [discriminate|].
      intros _. exact K.
  - inversion H; subst. split; [exact Hwf|]. split; [exact Hs|].
    split; [reflexivity|discriminate].
  - apply OrderFilledMessageHandler_position in H. destruct H as (_ & Hi & _).
    rewrite Hi. split; [exact Hwf|]. split; [exact Hs|].
    split; [reflexivity|discriminate].
  - inversion H; subst.
    destruct (OrderStatusMessageHandler_same_books_position id f r fees s) as (_ & _ & ->).
    split; [exact Hwf|]. split; [exact Hs|]. split; [reflexivity|discriminate].
  - inversion H; subst. split; [exact Hwf|]. split; [exact Hs|].
    split; [reflexivity|discriminate].
  - inversion H; subst.
    destruct (ErrorMessageHandler_position id msg s) as (_ & _ & ->).
    split; [exact Hwf|]. split; [exact Hs|]. split; [reflexivity|discriminate].
  - inversion H; subst. split; [exact Hwf|]. split; [exact Hs|].
    split; [reflexivity|discriminate].
Qed.

Lemma run_indicators events : forall s s',
  run s events = Some s' ->
  wf_indicators (indicators s) -> sums_found (indicators s) ->
  wf_indicators (indicators s') /\ sums_found (indicators s')
  /\ conversionLineCount (indicators s')
     = Z.min (conversionLineCount (indicators s) + Z.of_nat (future_books events))
         conversion_line_size
  /\ baselineCount (indicators s')
     = Z.min (baselineCount (indicators s) + Z.of_nat (future_books events)) baseline_size
  /\ leadingSpanBCount (indicators s')
     = Z.min (leadingSpanBCount (indicators s) + Z.of_nat (future_books events))
         leading_span_b_window
  /\ laggingSpanCount (indicators s')
     = Z.min (laggingSpanCount (indicators s) + Z.of_nat (future_books events)) baseline_size.
Proof.
  induction events as [|e events IH]; intros s s' H Hwf Hs; simpl in H.
  - inversion H; subst. unfold future_books. simpl. rewrite !Z.add_0_r.
    split; [exact Hwf|]. split; [exact Hs|].
    destruct Hwf as [(_ & _ & ? & _) (_ & _ & ? & _) (_ & _ & ? & _) (_ & _ & ? & _)].
    repeat split; lia.
  - destruct (step s e) as [s1|] eqn:E; [|discriminate].
    destruct (step_indicators _ _ _ E Hwf Hs) as (Hwf1 & Hs1 & Hsame & Hadv).
    destruct (IH _ _ H Hwf1 Hs1) as (Hwf2 & Hs2 & J1 & J2 & J3 & J4).
    split; [exact Hwf2|]. split; [exact Hs2|].
    rewrite J1, J2, J3, J4. unfold future_books. simpl.
    destruct (is_future_book e) eqn:Ef.
    + destruct (Hadv eq_refl) as (K1 & K2 & K3 & K4). rewrite K1, K2, K3, K4.
      change (length (e :: List.filter is_future_book events))
        with (S (length (List.filter is_future_book events))).
      destruct Hwf as [(_ & _ & ? & _) (_ & _ & ? & _) (_ & _ & ? & _) (_ & _ & ? & _)].
      unfold conversion_line_size, baseline_size, leading_span_b_window in *.
      repeat split; lia.
    + rewrite (Hsame eq_refl). repeat split; reflexivity.
Qed.

(** X12: after any session started in the initial state, each window
    count is the number of order books for the quoted instrument received
    so far, capped at the capacity of the window (9, 26, 52, 26); no other
    notification moves a count. *)
Theorem window_counts_follow_future_books (events : list Event) (s : State) :
  run initial_state events = Some s ->
  window_counts (indicators s) = counts_after (future_books events).
Proof.
  intros H.
  destruct (run_indicators _ _ _ H wf_initial_indicators sums_found_initial)
    as (_ & _ & J1 & J2 & J3 & J4).
  unfold window_counts, counts_after. rewrite J1, J2, J3, J4. reflexivity.
Qed.

Lemma window_counts_follow_future_books_witness :
  run initial_state [EvOrderBook FUTURE 1 book1; EvOrderFilled 1 1200 10] = Some filled_state
  /\ window_counts (indicators filled_state) = (1, 1, 1, 1).
Proof.
  split; [exact filled_state_run|].
  exact (window_counts_follow_future_books _ _ filled_state_run).
Defined.

(** X13: in every reachable state the conversion-line sum and the baseline
    sum are the sums of the filled parts of their buffers, and
    [leadingSpanBSum] is the sum of the filled part of the leading-span-B
    buffer plus that of the lagging-span buffer, all modulo 2^64; every
    buffer keeps its length and every cursor stays inside its buffer. *)
Theorem indicator_sums_in_reachable_states (s : State) :
  reachable s ->
  let g := indicators s in
  conversionLineSum g
  = sum_list (take (Z.to_nat (conversionLineCount g)) (conversionLineBuffer g)) mod 2 ^ 64
  /\ baselineSum g
     = sum_list (take (Z.to_nat (baselineCount g)) (baselineBuffer g)) mod 2 ^ 64
  /\ leadingSpanBSum g
     = (sum_list (take (Z.to_nat (leadingSpanBCount g)) (leadingSpanBBuffer g))
        + sum_list (take (Z.to_nat (laggingSpanCount g)) (laggingSpanBuffer g))) mod 2 ^ 64
  /\ vec_size (conversionLineBuffer g) = conversion_line_size
  /\ vec_size (baselineBuffer g) = baseline_size
  /\ vec_size (leadingSpanBBuffer g) = leading_span_b_window
  /\ vec_size (laggingSpanBuffer g) = baseline_size
  /\ 0 <= conversionLineIndex g < conversion_line_size
  /\ 0 <= baselineIndex g < baseline_size
  /\ 0 <= leadingSpanBIndex g < leading_span_b_window
  /\ 0 <= laggingSpanIndex g < baseline_size.
Proof.
  intros [events H]. cbv zeta.
  destruct (run_indicators _ _ _ H wf_initial_indicators sums_found_initial)
    as ([W1 W2 W3 W4] & [S1 S2 S3] & _).
  destruct W1 as (? & ? & _), W2 as (? & ? & _), W3 as (? & ? & _), W4 as (? & ? & _).
  unfold to_ulong, ULONG_MOD in S1, S2, S3. unfold vec_size.
  repeat split; try assumption; lia.
Qed.

Lemma indicator_sums_in_reachable_states_witness :
  reachable quoted_state /\ leadingSpanBSum (indicators quoted_state) = 2000.
Proof.
  split; [exact quoted_state_reachable|].
  destruct (indicator_sums_in_reachable_states quoted_state quoted_state_reachable)
    as (_ & _ & H & _).
  rewrite H. reflexivity.
Defined.

(** ** The four windows as sliding windows *)

Lemma push_wf N w v :
  0 < N <= INT_MAX -> wf_window N (w_buffer w) (w_index w) (w_count w) ->
  exists w', push N w v = Some w'
    /\ wf_window N (w_buffer w') (w_index w') (w_count w')
    /\ w_buffer w' = <[Z.to_nat (w_index w) := v]> (w_buffer w)
    /\ w_index w' = (w_index w + 1) mod N
    /\ w_count w' = Z.min (w_count w + 1) N.
Proof.
  intros HN Hwf. unfold push.
  pose proof Hwf as (Hlen & Hi & Hc & _).
  destruct (update_wf N _ _ _ v (w_sum w) HN Hwf) as (b & i & c & s & E & Hwf' & _ & Hb & Hidx).
  pose proof E as E'.
  rewrite (update_defined N (proj1 HN) (proj2 HN) _ _ _ v (w_sum w) Hlen Hi Hc) in E'.
  injection E' as _ _ Hc' _.
  rewrite E. eexists. split; [reflexivity|]. simpl.
  repeat split; try apply Hwf'; auto.
Qed.

(** One call of [Ichimoku] is one push into each window: the mid-price
    into the conversion-line window, the new conversion line into the
    baseline window and into the leading-span-B slots, and the mid-price
    into the lagging-span slots. *)
Lemma Ichimoku_pushes (b : Book) g :
  wf_indicators g ->
  exists g',
    Ichimoku (askPrices b) (askVolumes b) (bidPrices b) (bidVolumes b) g
      = Some (IchimokuSignal.NEUTRAL, g')
    /\ wf_indicators g'
    /\ push conversion_line_size (conversion_window g) (midprice b)
       = Some (conversion_window g')
    /\ push baseline_size (baseline_window g) (window_average (conversion_window g'))
       = Some (baseline_window g')
    /\ leadingSpanBBuffer g'
       = <[Z.to_nat (leadingSpanBIndex g) := window_average (conversion_window g')]>
           (leadingSpanBBuffer g)
    /\ leadingSpanBIndex g' = (leadingSpanBIndex g + 1) mod leading_span_b_window
    /\ leadingSpanBCount g' = Z.min (leadingSpanBCount g + 1) leading_span_b_window
    /\ laggingSpanBuffer g' = <[Z.to_nat (laggingSpanIndex g) := midprice b]> (laggingSpanBuffer g)
    /\ laggingSpanIndex g' = (laggingSpanIndex g + 1) mod baseline_size
    /\ laggingSpanCount g' = Z.min (laggingSpanCount g + 1) baseline_size.
Proof.
  intros [Hc Hb Hl Hg].
  assert (I9 : 0 < conversion_line_size <= INT_MAX) by (vm_compute; split; [reflexivity|discriminate]).
  assert (I26 : 0 < baseline_size <= INT_MAX) by (vm_compute; split; [reflexivity|discriminate]).
  assert (I52 : 0 < leading_span_b_window <= INT_MAX) by (vm_compute; split; [reflexivity|discriminate]).
  unfold Ichimoku, push, conversion_window, baseline_window, window_average, midprice. simpl.
  set (cur := ulong_shr1 _).
  destruct (update_wf _ _ _ _ cur (conversionLineSum g) I9 Hc)
    as (b1 & i1 & c1 & s1 & E1 & W1 & P1 & _ & _).
  rewrite E1.
  rewrite ulong_div_count
    by (destruct W1 as (_ & _ & ? & _); unfold conversion_line_size in *; unfold INT_MAX; lia).
  destruct (update_wf _ _ _ _ (s1 / c1) (baselineSum g) I26 Hb)
    as (b2 & i2 & c2 & s2 & E2 & W2 & P2 & _ & _).
  rewrite E2.
  rewrite ulong_div_count
    by (destruct W2 as (_ & _ & ? & _); unfold baseline_size in *; unfold INT_MAX; lia).
  pose proof Hl as (Ll & Il & Cl & _).
  rewrite (update_defined _ (proj1 I52) (proj2 I52) _ _ _ (s1 / c1) (leadingSpanBSum g) Ll Il Cl).
  destruct (update_wf _ _ _ _ (s1 / c1) (leadingSpanBSum g) I52 Hl)
    as (b3 & i3 & c3 & s3 & E3 & W3 & _).
  rewrite (update_defined _ (proj1 I52) (proj2 I52) _ _ _ (s1 / c1) (leadingSpanBSum g) Ll Il Cl) in E3.
  injection E3 as <- <- <- <-.
  pose proof Hg as (Lg & Ig & Cg & _).
  rewrite (update_defined _ (proj1 I26) (proj2 I26) _ _ _ cur _ Lg Ig Cg).
  destruct (update_wf _ _ _ _ cur (if leadingSpanBCount g <? leading_span_b_window then ulong_add (leadingSpanBSum g) (s1 / c1) else ulong_add (ulong_sub (leadingSpanBSum g) (default 0 (leadingSpanBBuffer g !! Z.to_nat (leadingSpanBIndex g)))) (s1 / c1)) I26 Hg)
    as (b4 & i4 & c4 & s4 & E4 & W4 & _).
  rewrite (update_defined _ (proj1 I26) (proj2 I26) _ _ _ cur _ Lg Ig Cg) in E4.
  injection E4 as <- <- <- <-.
  pose proof W4 as (L4 & R4 & _ & _).
  match type of L4 with
  | Z.of_nat (length ?b4) = _ =>
      match type of R4 with
      | 0 <= ?i4 < _ =>
          assert (Hload : exists x, vec_load b4 i4 = Some x);
          [ unfold vec_load; destruct (i4 <? 0) eqn:E; [apply Z.ltb_lt in E; lia|];
            apply lookup_lt_is_Some_2; lia
          | destruct Hload as [x Hx]; rewrite Hx;
            rewrite (laggingComparisonIndex_self i4 b4 L4 R4) ]
      end
  end.
  rewrite Hx. rewrite Z.ltb_irrefl. rewrite !andb_false_r.
  eexists. split; [reflexivity|]. simpl.
  split; [split; simpl; assumption|].
  repeat split; auto.
  rewrite E2. reflexivity.
Qed.

Lemma conversion_window_initial :
  conversion_window initial_indicators = fresh conversion_line_size
  /\ baseline_window initial_indicators = fresh baseline_size.
Proof. split; reflexivity. Qed.

(** The windows along a run of [Ichimoku], from any well-formed start. *)
Lemma Ichimoku_run_windows books : forall g wl wg,
  wf_indicators g ->
  same_slots wl (leadingSpanBBuffer g) (leadingSpanBIndex g) (leadingSpanBCount g) ->
  same_slots wg (laggingSpanBuffer g) (laggingSpanIndex g) (laggingSpanCount g) ->
  exists signals g' lines wl' wg',
    Ichimoku_run g books = Some (signals, g')
    /\ wf_indicators g'
    /\ pushes conversion_line_size (conversion_window g) (map midprice books)
       = Some (conversion_window g')
    /\ push_averages conversion_line_size (conversion_window g) (map midprice books)
       = Some lines
    /\ pushes baseline_size (baseline_window g) lines = Some (baseline_window g')
    /\ pushes leading_span_b_window wl lines = Some wl'
    /\ same_slots wl' (leadingSpanBBuffer g') (leadingSpanBIndex g') (leadingSpanBCount g')
    /\ pushes baseline_size wg (map midprice books) = Some wg'
    /\ same_slots wg' (laggingSpanBuffer g') (laggingSpanIndex g') (laggingSpanCount g').
Proof.
  assert (I26 : 0 < baseline_size <= INT_MAX) by (vm_compute; split; [reflexivity|discriminate]).
  assert (I52 : 0 < leading_span_b_window <= INT_MAX) by (vm_compute; split; [reflexivity|discriminate]).
  induction books as [|b books IH]; intros g wl wg Hwf Hl Hg.
  - exists [], g, [], wl, wg. simpl.
    split; [reflexivity|]. split; [assumption|].
    repeat (split; [reflexivity || assumption|]). assumption.
  - destruct (Ichimoku_pushes b g Hwf)
      as (g1 & E1 & Hwf1 & Pc & Pb & L1 & L2 & L3 & G1 & G2 & G3).
    destruct Hl as (Hl1 & Hl2 & Hl3). destruct Hg as (Hg1 & Hg2 & Hg3).
    destruct (push_wf leading_span_b_window wl (window_average (conversion_window g1)) I52)
      as (wl1 & Pl & _ & Bl & Il & Cl).
    { rewrite Hl1, Hl2, Hl3. apply (wf_leading g Hwf). }
    destruct (push_wf baseline_size wg (midprice b) I26)
      as (wg1 & Pg & _ & Bg & Ig & Cg).
    { rewrite Hg1, Hg2, Hg3. apply (wf_lagging g Hwf). }
    destruct (IH g1 wl1 wg1 Hwf1) as (sigs & g2 & lines & wl2 & wg2 & E2 & Hwf2 & Qc & Qa & Qb & Ql & Sl & Qg & Sg).
    { unfold same_slots. rewrite Bl, Il, Cl, Hl1, Hl2, Hl3. auto. }
    { unfold same_slots. rewrite Bg, Ig, Cg, Hg1, Hg2, Hg3. auto. }
    exists (IchimokuSignal.NEUTRAL :: sigs), g2,
      (window_average (conversion_window g1) :: lines), wl2, wg2.
    simpl. rewrite E1, E2, Pc, Qa, Pb, Pl, Pg. simpl.
    split; [reflexivity|]. split; [assumption|].
    repeat (split; [reflexivity || assumption|]). assumption.
Qed.

Lemma pushes_fresh_tracks N vs w :
  0 < N <= INT_MAX -> pushes N (fresh N) vs = Some w -> tracks N vs w.
Proof.
  intros [Hpos Hint] H.
  destruct (pushes_tracks N Hpos Hint vs) as (w' & Hw & Ht).
  rewrite Hw in H. injection H as <-. exact Ht.
Qed.

Lemma push_averages_lookup N vs : forall w lines,
  push_averages N w vs = Some lines ->
  length lines = length vs
  /\ forall k, (k < length vs)%nat ->
       exists wk, pushes N w (take (S k) vs) = Some wk
                  /\ lines !! k = Some (window_average wk).
Proof.
  induction vs as [|v vs IH]; intros w lines H; simpl in H.
  - injection H as <-. split; [reflexivity|]. simpl. lia.
  - destruct (push N w v) as [w1|] eqn:E1; [|discriminate]. simpl in H.
    destruct (push_averages N w1 vs) as [r|] eqn:E2; [|discriminate]. simpl in H.
    injection H as <-.
    destruct (IH _ _ E2) as [Hlen Hk].
    split; [simpl; congruence|].
    intros [|k] Hlt.
    + exists w1. change (take 1 (v :: vs)) with [v]. simpl. rewrite E1. split; reflexivity.
    + simpl in Hlt. destruct (Hk k ltac:(lia)) as (wk & Hp & Hl).
      exists wk. split; [|exact Hl].
      change (take (S (S k)) (v :: vs)) with (v :: take (S k) vs).
      simpl. rewrite E1. exact Hp.
Qed.

(** The averages observed while pushing into a new window are the moving
    averages of the pushed values. *)
Lemma push_averages_moving N vs lines :
  0 < N <= INT_MAX ->
  push_averages N (fresh N) vs = Some lines ->
  lines = moving_averages (Z.to_nat N) vs.
Proof.
  intros HN H.
  destruct (push_averages_lookup N vs _ _ H) as [Hlen Hk].
  apply list_eq. intros k. unfold moving_averages.
  rewrite list_lookup_fmap.
  destruct (decide (k < length vs)%nat) as [Hlt|Hge].
  - rewrite lookup_seq_lt by exact Hlt. simpl.
    destruct (Hk k Hlt) as (wk & Hp & ->).
    destruct (pushes_fresh_tracks N _ _ HN Hp) as [_ _ Hc _ Hs].
    assert (Hl : length (take (S k) vs) = S k) by (rewrite length_take; lia).
    rewrite Hl in Hc.
    unfold window_average. rewrite Hs, Hc.
    replace (Z.to_nat (Z.min (Z.of_nat (S k)) N)) with (Nat.min (S k) (Z.to_nat N)) by lia.
    replace (Z.min (Z.of_nat (S k)) N) with (Z.of_nat (Nat.min (S k) (Z.to_nat N))) by lia.
    reflexivity.
  - rewrite lookup_seq_ge by lia. simpl.
    apply lookup_ge_None. lia.
Qed.

(** An order book for the quoted instrument is one call of [Ichimoku] on
    the indicator variables; no other notification touches them. *)
Lemma run_Ichimoku_run events : forall s s',
  run s events = Some s' ->
  wf_indicators (indicators s) ->
  exists signals,
    Ichimoku_run (indicators s) (future_book_stream events) = Some (signals, indicators s').
Proof.
  induction events as [|e events IH]; intros s s' H Hwf; simpl in H.
  - injection H as <-. exists []. reflexivity.
  - destruct (step s e) as [s1|] eqn:E; [|discriminate]. simpl in H.
    assert (Hcase :
      (exists n b, e = EvOrderBook FUTURE n b
         /\ exists sig, Ichimoku (askPrices b) (askVolumes b) (bidPrices b) (bidVolumes b)
                          (indicators s) = Some (sig, indicators s1))
      \/ (future_book_stream (e :: events) = future_book_stream events
          /\ indicators s1 = indicators s)).
    { destruct e as [i n b|i n b|id p v|id f r fees|id p v|id msg|]; simpl in E.
      - apply OrderBookMessageHandler_cases in E.
        destruct E as (q & _ & [[-> ->]|(-> & signal & g & Hi & ->)]).
        + right. split; reflexivity.
        + left. exists n, b. split; [reflexivity|]. exists signal. exact Hi.
      - right. injection E as <-. split; reflexivity.
      - right. apply OrderFilledMessageHandler_position in E. destruct E as (_ & Hi & _).
        split; [reflexivity|exact Hi].
      - right. injection E as <-.
        destruct (OrderStatusMessageHandler_same_books_position id f r fees s) as (_ & _ & ->).
        split; reflexivity.
      - right. injection E as <-. split; reflexivity.
      - right. injection E as <-.
        destruct (ErrorMessageHandler_position id msg s) as (_ & _ & ->).
        split; reflexivity.
      - right. injection E as <-. split; reflexivity. }
    destruct Hcase as [(n & b & -> & sig & Hi)|[Hst Hg]].
    + destruct (Ichimoku_pushes b _ Hwf) as (g1 & Hg1 & Hwf1 & _).
      rewrite Hg1 in Hi. injection Hi as _ Hg.
      rewrite Hg in Hwf1.
      destruct (IH _ _ H Hwf1) as [sigs Hr].
      exists (IchimokuSignal.NEUTRAL :: sigs).
      change (future_book_stream (EvOrderBook FUTURE n b :: events))
        with (b :: future_book_stream events).
      simpl. rewrite Hg1, Hg, Hr. reflexivity.
    + rewrite Hst. rewrite <- Hg in Hwf |- *. exact (IH _ _ H Hwf).
Qed.

(** X16: after any session started in the initial state, the four windows
    hold the stream of mid-prices of the order books received for the
    quoted instrument.  The conversion-line window is the sliding window
    of the last 9 mid-prices, its sum included.  The values pushed into the
    baseline window and into the leading-span-B slots are the conversion
    lines, that is the moving averages over 9 of the mid-prices (sum modulo
    2^64, integer division); the baseline window is the sliding window of
    the last 26 of them, the leading-span-B slots hold the last 52.  The
    lagging-span slots hold the last 26 mid-prices. *)
Theorem windows_hold_recent_mid_prices (events : list Event) (s : State) :
  run initial_state events = Some s ->
  let g := indicators s in
  let mids := map midprice (future_book_stream events) in
  let lines := moving_averages 9 mids in
  tracks conversion_line_size mids (conversion_window g)
  /\ tracks baseline_size lines (baseline_window g)
  /\ (exists w, tracks leading_span_b_window lines w
        /\ same_slots w (leadingSpanBBuffer g) (leadingSpanBIndex g) (leadingSpanBCount g))
  /\ (exists w, tracks baseline_size mids w
        /\ same_slots w (laggingSpanBuffer g) (laggingSpanIndex g) (laggingSpanCount g)).
Proof.
  intros H g mids lines.
  assert (I9 : 0 < conversion_line_size <= INT_MAX) by (vm_compute; split; [reflexivity|discriminate]).
  assert (I26 : 0 < baseline_size <= INT_MAX) by (vm_compute; split; [reflexivity|discriminate]).
  assert (I52 : 0 < leading_span_b_window <= INT_MAX) by (vm_compute; split; [reflexivity|discriminate]).
  destruct (run_Ichimoku_run _ _ _ H wf_initial_indicators) as [sigs Hr].
  destruct (Ichimoku_run_windows (future_book_stream events) initial_indicators
              (fresh leading_span_b_window) (fresh baseline_size) wf_initial_indicators)
    as (sigs' & g' & lines' & wl & wg & Hr' & _ & Qc & Qa & Qb & Ql & Sl & Qg & Sg).
  { repeat split. }
  { repeat split. }
  change (indicators initial_state) with initial_indicators in Hr.
  rewrite Hr in Hr'. injection Hr' as _ <-.
  change (conversion_window initial_indicators) with (fresh conversion_line_size) in Qc, Qa.
  change (baseline_window initial_indicators) with (fresh baseline_size) in Qb.
  fold mids in Qc, Qa, Qg.
  apply (push_averages_moving _ _ _ I9) in Qa.
  change (Z.to_nat conversion_line_size) with 9%nat in Qa. fold lines in Qa. subst lines'.
  split; [exact (pushes_fresh_tracks _ _ _ I9 Qc)|].
  split; [exact (pushes_fresh_tracks _ _ _ I26 Qb)|].
  split.
  - exists wl. split; [exact (pushes_fresh_tracks _ _ _ I52 Ql)|exact Sl].
  - exists wg. split; [exact (pushes_fresh_tracks _ _ _ I26 Qg)|exact Sg].
Qed.

Lemma windows_hold_recent_mid_prices_witness :
  run initial_state [EvOrderBook FUTURE 1 book1; EvOrderFilled 1 1200 10] = Some filled_state
  /\ w_sum (conversion_window (indicators filled_state)) = 1000
  /\ w_buffer (baseline_window (indicators filled_state)) !! 0%nat = Some 1000.
Proof.
  split; [exact filled_state_run|].
  destruct (windows_hold_recent_mid_prices _ _ filled_state_run) as (Hc & Hb & _).
  split.
  - rewrite (tr_sum _ _ _ Hc). vm_compute. reflexivity.
  - change 0%nat with (Z.to_nat (Z.of_nat 0 mod baseline_size)) at 1.
    rewrite (tr_slots _ _ _ Hb 0%nat); [vm_compute; reflexivity| |].
    + apply Nat.ltb_lt. vm_compute. reflexivity.
    + apply Z.leb_le. vm_compute. reflexivity.
Defined.
